(** * fsvs ignore patterns (src/ignore.c): a shallow embedding

    The ignore list of fsvs is an ordered array of compiled patterns.  This
    development embeds the pattern parser ([ign___init_pattern_into]), the
    shell-glob to PCRE translator ([ign__compile_pattern],
    [ign___translate_bracketed_expr]), the list operations
    ([ign__new_pattern], [ign__load_list], [ign__save_ignorelist], the
    [at=] branch of [ign__work]) and the evaluator ([ign__is_ignore],
    [ign___compare_dev]).

    C strings are [string]s without the terminating NUL; file contents are
    [string]s that may contain NUL characters.  Status codes are [Z], as in
    the C code (0 is success). *)

From Stdlib Require Import Bool Arith ZArith Lia List Ascii String.
From Stdlib Require Import DecimalString DecimalNat Decimal.
From Stdlib Require DecimalFacts.
Import ListNotations.

Local Open Scope string_scope.
Local Open Scope Z_scope.

(** ** Status codes and results *)

Definition ENOENT : Z := 2.
Definition ENOMEM : Z := 12.
Definition EINVAL : Z := 22.
Definition ENOSPC : Z := 28.

(** What a call leaves behind: a value with status 0, a non-zero status
    (the [STOPIF] family jumps to [ex:] with it), or a run that does not
    return at all ([BUG_ON], or a read or write outside an object). *)
Inductive result (A : Type) : Type :=
| Ok (a : A)
| Err (status : Z)
| Abort.
Arguments Ok {A} a.
Arguments Err {A} status.
Arguments Abort {A}.

Definition bind {A B : Type} (r : result A) (k : A -> result B) : result B :=
  match r with
  | Ok a => k a
  | Err e => Err e
  | Abort => Abort
  end.

Notation "x <- r ;; k" := (bind r (fun x => k))
  (at level 61, r at next level, right associativity).
Notation "' p <- r ;; k" := (bind r (fun p => k))
  (at level 61, p pattern, r at next level, right associativity).

(** ** Characters and C strings *)

Definition PATH_SEPARATOR : ascii := "/"%char.
Definition NUL : ascii := "000"%char.
Definition LF : ascii := "010"%char.

Definition chr (c : ascii) : string := String c "".

Definition code (c : ascii) : Z := Z.of_nat (nat_of_ascii c).

Definition in_range (lo hi c : ascii) : bool :=
  (code lo <=? code c) && (code c <=? code hi).

Definition is_digit (c : ascii) : bool := in_range "0" "9" c.
Definition is_lower (c : ascii) : bool := in_range "a" "z" c.
Definition is_upper (c : ascii) : bool := in_range "A" "Z" c.
Definition is_alnum (c : ascii) : bool := is_digit c || is_lower c || is_upper c.

(** [isspace] in the C locale: space, and the controls 9 to 13. *)
Definition isspace (c : ascii) : bool :=
  (code c =? 32) || ((9 <=? code c) && (code c <=? 13)).

Definition strlen (s : string) : Z := Z.of_nat (String.length s).

(** [s[n]]; the terminator when [n] is the length of [s]. *)
Definition nth_char (n : nat) (s : string) : ascii :=
  match String.get n s with
  | Some c => c
  | None => NUL
  end.

(** [s[-1]] for a pointer [s] that stands on the terminating NUL. *)
Fixpoint last_char (s : string) : option ascii :=
  match s with
  | "" => None
  | String c "" => Some c
  | String _ s' => last_char s'
  end.

(** The string without its last character. *)
Fixpoint drop_last (s : string) : string :=
  match s with
  | "" => ""
  | String _ "" => ""
  | String c s' => String c (drop_last s')
  end.

(** [strncmp(prefix, s, strlen(prefix)) == 0], leaving the rest of [s]. *)
Fixpoint strip_prefix (p s : string) : option string :=
  match p with
  | "" => Some s
  | String a p' =>
      match s with
      | "" => None
      | String b s' => if (a =? b)%char then strip_prefix p' s' else None
      end
  end.

(** The number of [c] in [s]: the [strchr] loop of the parser. *)
Fixpoint count_char (c : ascii) (s : string) : nat :=
  match s with
  | "" => O
  | String a s' => ((if (a =? c)%char then 1 else 0) + count_char c s')%nat
  end.

(** ** Translation of a bracket expression

    [src] is the unread part of the pattern, [dest] the text written to the
    buffer so far, [len] the size of the buffer.  Every pass of the
    [do ... while] loop reads exactly one character. *)

Fixpoint bracket_loop (len : Z) (pos_in_bracket_expr : Z) (backslashed : bool)
         (src dest : string) {struct src} : result (string * string) :=
  match src with
  | "" => Ok (src, dest)
  | String c src' =>
      let '(pos, bs, out) :=
        if backslashed then
          (pos_in_bracket_expr, false, c)
        else if (pos_in_bracket_expr =? 0)
                && ((c =? "!")%char || (c =? "^")%char) then
          (pos_in_bracket_expr, false, "^"%char)
        else
          ((if (c =? "]")%char && (0 <? pos_in_bracket_expr)
            then -1 else pos_in_bracket_expr + 1),
           (c =? "\")%char, c) in
      let dest' := dest ++ chr out in
      if len - strlen dest' <? 5 then Err ENOSPC
      else if 0 <=? pos then bracket_loop len pos bs src' dest'
           else Ok (src', dest')
  end.

Definition ign___translate_bracketed_expr (len : Z) (src dest : string)
  : result (string * string) :=
  match src with
  | String c _ =>
      if (c =? "[")%char then bracket_loop len (-1) false src dest
      else Err 1
  | "" => Err 1
  end.

(** ** Translation of a shell pattern *)

(** The inner [while] of the double-star case: [src] moves over every
    star that follows. *)
Fixpoint skip_stars (src : string) : string :=
  match src with
  | String c src' => if (c =? "*")%char then skip_stars src' else src
  | "" => src
  end.

(** The state of the translation loop between two passes. *)
Record xlate := {
  x_backslashed : bool;
  x_wildwild : bool;
  x_src : string;
  x_dest : string
}.

(** One pass of the [do ... while] loop over a non-empty [src], before the
    space check. *)
Definition shell_body (len : Z) (st : xlate) (c : ascii) (src' : string)
  : result xlate :=
  let src := String c src' in
  let dest := x_dest st in
  let hww := x_wildwild st in
  if x_backslashed st then
    Ok {| x_backslashed := false; x_wildwild := hww;
          x_src := src'; x_dest := dest ++ chr c |}
  else if (c =? "*")%char then
    if (nth_char 1 src =? "*")%char then
      Ok {| x_backslashed := false; x_wildwild := true;
            x_src := skip_stars src; x_dest := dest ++ ".*" |}
    else
      Ok {| x_backslashed := false; x_wildwild := hww;
            x_src := src';
            x_dest := dest ++ "[^" ++ chr PATH_SEPARATOR ++ "]*" |}
  else if (c =? "?")%char then
    Ok {| x_backslashed := false; x_wildwild := hww;
          x_src := src'; x_dest := dest ++ "." |}
  else if (c =? "[")%char then
    match ign___translate_bracketed_expr len src dest with
    | Ok (s, d) =>
        Ok {| x_backslashed := false; x_wildwild := hww;
              x_src := s; x_dest := d |}
    | Err e => Err e
    | Abort => Abort
    end
  else if is_alnum c || (c =? "/")%char || (c =? "-")%char then
    Ok {| x_backslashed := false; x_wildwild := hww;
          x_src := src'; x_dest := dest ++ chr c |}
  else if (c =? "\")%char then
    Ok {| x_backslashed := true; x_wildwild := hww;
          x_src := src'; x_dest := dest ++ chr c |}
  else
    Ok {| x_backslashed := false; x_wildwild := hww;
          x_src := src'; x_dest := dest ++ "\" ++ chr c |}.

(** The loop.  Every pass reads at least one character, so [fuel] equal to
    the length of [src] is enough (lemma [shell_loop_ok]).  A pass over an
    empty [src] would read the terminator as a character and leave the
    string: the caller never passes one (its pattern has three characters
    or more). *)
Fixpoint shell_loop (fuel : nat) (len : Z) (st : xlate) : result xlate :=
  match fuel with
  | O => Abort
  | S fuel' =>
      match x_src st with
      | "" => Abort
      | String c src' =>
          st' <- shell_body len st c src' ;;
          if len - strlen (x_dest st') <? 11 then Err ENOSPC
          else match x_src st' with
               | "" => Ok st'
               | String _ _ => shell_loop fuel' len st'
               end
      end
  end.

(** The anchor written after the loop: ["$"], or, when the last character
    read ([src[-1]], [src] being on the terminator) is the separator,
    [dest[-2] = '('] and ["|/)"] behind the ["$"]. *)
Definition anchor (compare_string dest : string) : string :=
  match last_char compare_string with
  | Some c =>
      if (c =? PATH_SEPARATOR)%char
      then drop_last dest ++ "($|" ++ chr PATH_SEPARATOR ++ ")"
      else dest ++ "$"
  | None => dest ++ "$"
  end.

(** The shell branch of [ign__compile_pattern] up to the call of
    [pcre_compile]: the translated text and [has_wildwildcard].  [pattern]
    is the text of the rule with its modifiers, which sizes the buffer;
    [compare_string] the text that is translated. *)
Definition shell_to_pcre (pattern compare_string : string)
  : result (bool * string) :=
  let len := strlen pattern * 5 + 16 in
  st <- shell_loop (String.length compare_string) len
          {| x_backslashed := false; x_wildwild := false;
             x_src := compare_string; x_dest := "" |} ;;
  Ok (x_wildwild st, anchor compare_string (x_dest st)).

(** ** Numbers in patterns *)

Fixpoint skip_space (s : string) : string :=
  match s with
  | String c s' => if isspace c then skip_space s' else s
  | "" => s
  end.

Definition digit_val (base : Z) (c : ascii) : option Z :=
  let v := if is_digit c then code c - 48
           else if is_lower c then code c - 97 + 10
           else if is_upper c then code c - 65 + 10
           else base in
  if v <? base then Some v else None.

(** The digits of a number in [base]: the value, whether a digit was read,
    and what follows. *)
Fixpoint digits (base acc : Z) (any : bool) (s : string) : Z * bool * string :=
  match s with
  | String c s' =>
      match digit_val base c with
      | Some v => digits base (acc * base + v) true s'
      | None => (acc, any, s)
      end
  | "" => (acc, any, s)
  end.

Definition sign_of (s : string) : bool * string :=
  match s with
  | String c s' =>
      if (c =? "-")%char then (true, s')
      else if (c =? "+")%char then (false, s')
      else (false, s)
  | "" => (false, s)
  end.

(** The base of [strtoul(.., .., 0)]: ["0x"] before a hexadecimal digit
    gives 16, another leading ["0"] gives 8, anything else 10. *)
Definition base_of (s : string) : Z * string :=
  match s with
  | String c0 (String x (String h r)) =>
      if (c0 =? "0")%char then
        if ((x =? "x")%char || (x =? "X")%char)
           && match digit_val 16 h with Some _ => true | None => false end
        then (16, String h r)
        else (8, s)
      else (10, s)
  | String c0 _ => if (c0 =? "0")%char then (8, s) else (10, s)
  | "" => (10, s)
  end.

(** [strtoul(s, &cp, 0)] for an unsigned type of [w] bits: [None] when no
    number is found ([cp == s]), else the value and the text at [cp]. *)
Definition strtoul_w (w : Z) (s : string) : option (Z * string) :=
  let '(neg, s1) := sign_of (skip_space s) in
  let '(base, s2) := base_of s1 in
  let '(v, any, rest) := digits base 0 false s2 in
  if any then
    Some ((if 2 ^ w <=? v then 2 ^ w - 1
           else if neg then (2 ^ w - v) mod 2 ^ w
           else v), rest)
  else None.

Definition strtoul := strtoul_w 64.
Definition strtoull := strtoul_w 64.

(** The value an [int] holds after an assignment of [v]. *)
Definition to_int (v : Z) : Z := (v + 2 ^ 31) mod 2 ^ 32 - 2 ^ 31.

(** [sscanf(s, "%u", &count)] with an [int count]: [None] when no number
    is converted. *)
Definition sscanf_u (s : string) : option Z :=
  let '(neg, s1) := sign_of (skip_space s) in
  let '(v, any, _) := digits 10 0 false s1 in
  if any then Some (to_int (if neg then - v else v)) else None.

(** [sscanf(s, "at=%d", &i)]. *)
Definition sscanf_at (s : string) : option Z :=
  match strip_prefix "at=" s with
  | Some r =>
      let '(neg, s1) := sign_of (skip_space r) in
      let '(v, any, _) := digits 10 0 false s1 in
      if any then Some (to_int (if neg then - v else v)) else None
  | None => None
  end.

(** [snprintf(buffer, .., "%u", l)]. *)
Definition print_u (l : nat) : string :=
  NilZero.string_of_uint (Nat.to_uint l).

(** ** Devices *)

(** Modelled from the spec: the macros [MAJOR], [MINOR] and [MKDEV] are
    defined outside src/; a device id is the pair of its major and its
    minor number, each the [int] that the evaluator works with. *)
Record dev_t := MKDEV { MAJOR : Z; MINOR : Z }.

Definition dev_eqb (a b : dev_t) : bool :=
  (MAJOR a =? MAJOR b) && (MINOR a =? MINOR b).

(** ** The regular expression library

    [pcre_compile], [pcre_study] and [pcre_exec] belong to the PCRE library.
    The code always compiles with [PCRE_DOTALL | PCRE_NO_AUTO_CAPTURE |
    PCRE_UNGREEDY | PCRE_ANCHORED], and with [PCRE_CASELESS] for an [i]
    rule; it always runs a match from offset 0 without an output vector, so
    that [pcre_exec] gives 0 for a match and [PCRE_ERROR_NOMATCH] for none. *)
Class Pcre := {
  pcre : Type;
  (** [None]: the library rejects the text. *)
  pcre_compile : string -> forall caseless : bool, option pcre;
  (** [true]: studying the compiled pattern reports an error. *)
  pcre_study_err : pcre -> bool;
  pcre_exec : pcre -> string -> Z
}.

Definition PCRE_ERROR_NOMATCH : Z := -1.
Definition PCRE_ERROR_NULL : Z := -2.

(** ** Patterns *)

Inductive pattern_type := PT_SHELL | PT_PCRE | PT_DEVICE | PT_INODE.

(** Modelled from the spec: the comparator bits are defined in a header
    outside src/; the parser ors them together, and [PAT_DEV__UNSPECIFIED]
    stands for none of them. *)
Definition PAT_DEV__UNSPECIFIED : Z := 0.
Definition PAT_DEV__LESS : Z := 1.
Definition PAT_DEV__EQUAL : Z := 2.
Definition PAT_DEV__GREATER : Z := 4.

(** Modelled from the spec: the two position constants are defined in a
    header outside src/.  Start is the first user position (offset 0 from
    the first user pattern), End is no offset at all. *)
Definition PATTERN_POSITION_START : Z := 0.
Definition PATTERN_POSITION_END : Z := -1.

(** [struct ignore_t], for compiled patterns of the type [pcre_t].  The C
    structure overlays the fields of the three kinds of patterns; a field
    that the parser does not write for the kind at hand is not read for it
    either, and holds a fixed value here. *)
Record ignore_of (pcre_t : Type) := {
  pattern : string;
  compare_string : string;
  type : pattern_type;
  is_ignore : bool;
  is_icase : bool;
  is_user_pat : bool;
  path_level : nat;
  has_wildwildcard : bool;
  compiled : option pcre_t;
  compare : Z;
  major : Z;
  minor : Z;
  has_minor : bool;
  dev : dev_t;
  inode : Z
}.
Arguments pattern {pcre_t} _.
Arguments compare_string {pcre_t} _.
Arguments type {pcre_t} _.
Arguments is_ignore {pcre_t} _.
Arguments is_icase {pcre_t} _.
Arguments is_user_pat {pcre_t} _.
Arguments path_level {pcre_t} _.
Arguments has_wildwildcard {pcre_t} _.
Arguments compiled {pcre_t} _.
Arguments compare {pcre_t} _.
Arguments major {pcre_t} _.
Arguments minor {pcre_t} _.
Arguments has_minor {pcre_t} _.
Arguments dev {pcre_t} _.
Arguments inode {pcre_t} _.

(** What a call leaves in the global state: the status it returns and the
    used entries, or no return at all. *)
Inductive outcome (A : Type) : Type :=
| Returns (status : Z) (ilist : list A)
| Aborts.
Arguments Returns {A} status ilist.
Arguments Aborts {A}.

Section Ignore.

Context {E : Pcre}.

Definition ignore_t : Type := ignore_of pcre.

Definition set_user_pat (u : bool) (ign : ignore_t) : ignore_t :=
  {| pattern := pattern ign; compare_string := compare_string ign;
     type := type ign; is_ignore := is_ignore ign; is_icase := is_icase ign;
     is_user_pat := u; path_level := path_level ign;
     has_wildwildcard := has_wildwildcard ign; compiled := compiled ign;
     compare := compare ign; major := major ign; minor := minor ign;
     has_minor := has_minor ign; dev := dev ign; inode := inode ign |}.

(** [ign__compile_pattern] for a rule of kind [ty] with the text [pat] and
    the text to compile [cmp]: the new [compare_string], [has_wildwildcard]
    and the compiled pattern. *)
Definition ign__compile_pattern (ty : pattern_type) (icase : bool)
           (pat cmp : string) : result (string * bool * pcre) :=
  '(hww, dest) <-
     match ty with
     | PT_PCRE => Ok (false, cmp)
     | PT_SHELL => shell_to_pcre pat cmp
     | _ => Abort
     end ;;
  match pcre_compile dest icase with
  | None => Err EINVAL
  | Some re => if pcre_study_err re then Err EINVAL else Ok (dest, hww, re)
  end.

(** The first loop of the parser: white space before the pattern.  [off]
    is the distance walked from the start, [end_] the distance of [end]. *)
Fixpoint skip_white (end_ off : Z) (p : string) : result (Z * string) :=
  match p with
  | String c p' =>
      if isspace c then
        if end_ <=? off + 1 then Err EINVAL
        else skip_white end_ (off + 1) p'
      else Ok (off, p)
  | "" => Ok (off, p)
  end.

(** The modifier loop: [is_ignore], [is_icase] and the rest. *)
Fixpoint modifiers (end_ off : Z) (ignore icase : bool) (p : string)
  : result (bool * bool * string) :=
  match p with
  | String c p' =>
      if (c =? "t")%char then
        if end_ <=? off + 1 then Err EINVAL
        else modifiers end_ (off + 1) false icase p'
      else if (c =? "i")%char then
        if end_ <=? off + 1 then Err EINVAL
        else modifiers end_ (off + 1) ignore true p'
      else Ok (ignore, icase, p)
  | "" => Ok (ignore, icase, p)
  end.

(** The comparator loop of a device pattern. *)
Fixpoint comparators (cmp : Z) (p : string) : Z * string :=
  match p with
  | String c p' =>
      if (c =? "<")%char then comparators (Z.lor cmp PAT_DEV__LESS) p'
      else if (c =? "=")%char then comparators (Z.lor cmp PAT_DEV__EQUAL) p'
      else if (c =? ">")%char then comparators (Z.lor cmp PAT_DEV__GREATER) p'
      else (cmp, p)
  | "" => (cmp, p)
  end.

Definition blank (raw : string) (ignore icase : bool) (ty : pattern_type)
           (cmp : string) : ignore_t :=
  {| pattern := raw; compare_string := cmp; type := ty;
     is_ignore := ignore; is_icase := icase; is_user_pat := false;
     path_level := O; has_wildwildcard := false; compiled := None;
     compare := 0; major := 0; minor := 0; has_minor := false;
     dev := MKDEV 0 0; inode := 0 |}.

Definition init_device (raw : string) (ignore icase : bool) (p rest : string)
  : result ignore_t :=
  let '(cmp0, p1) := comparators PAT_DEV__UNSPECIFIED rest in
  let cmp := if cmp0 =? PAT_DEV__UNSPECIFIED then PAT_DEV__EQUAL else cmp0 in
  match strtoul p1 with
  | None => Err EINVAL
  | Some (mj, cp) =>
      let b := blank raw ignore icase PT_DEVICE p in
      match cp with
      | "" =>
          Ok {| pattern := raw; compare_string := p; type := PT_DEVICE;
                is_ignore := ignore; is_icase := icase;
                is_user_pat := false; path_level := O;
                has_wildwildcard := false; compiled := None;
                compare := cmp; major := to_int mj;
                minor := PAT_DEV__UNSPECIFIED; has_minor := false;
                dev := dev b; inode := inode b |}
      | String c p2 =>
          if negb (c =? ":")%char then Err EINVAL
          else match strtoul p2 with
               | None => Err EINVAL
               | Some (mn, cp') =>
                   match cp' with
                   | String _ _ => Err EINVAL
                   | "" =>
                       Ok {| pattern := raw; compare_string := p;
                             type := PT_DEVICE;
                             is_ignore := ignore; is_icase := icase;
                             is_user_pat := false; path_level := O;
                             has_wildwildcard := false; compiled := None;
                             compare := cmp; major := to_int mj;
                             minor := to_int mn; has_minor := true;
                             dev := dev b; inode := inode b |}
                   end
               end
      end
  end.

(** A number and the [':'] behind it. *)
Definition number_colon (p : string) : result (Z * string) :=
  match strtoul p with
  | None => Err EINVAL
  | Some (v, cp) =>
      match cp with
      | String c cp' => if (c =? ":")%char then Ok (v, cp') else Err EINVAL
      | "" => Err EINVAL
      end
  end.

Definition init_inode (raw : string) (ignore icase : bool) (p rest : string)
  : result ignore_t :=
  '(mj, p1) <- number_colon rest ;;
  '(mn, p2) <- number_colon p1 ;;
  match strtoull p2 with
  | None => Err EINVAL
  | Some (i, cp) =>
      match cp with
      | String _ _ => Err EINVAL
      | "" =>
          let b := blank raw ignore icase PT_INODE p in
          Ok {| pattern := raw; compare_string := p; type := PT_INODE;
                is_ignore := ignore; is_icase := icase;
                is_user_pat := false; path_level := O;
                has_wildwildcard := false; compiled := None;
                compare := compare b; major := major b; minor := minor b;
                has_minor := has_minor b;
                dev := MKDEV (to_int mj) (to_int mn); inode := i |}
      end
  end.

Definition init_regex (raw : string) (ignore icase : bool)
           (ty : pattern_type) (p : string) : result ignore_t :=
  if strlen p <? 3 then Err EINVAL
  else
    '(cmp, hww, re) <- ign__compile_pattern ty icase raw p ;;
    Ok {| pattern := raw; compare_string := cmp; type := ty;
          is_ignore := ignore; is_icase := icase; is_user_pat := false;
          path_level := count_char PATH_SEPARATOR p;
          has_wildwildcard := hww; compiled := Some re;
          compare := 0; major := 0; minor := 0; has_minor := false;
          dev := MKDEV 0 0; inode := 0 |}.

(** The kinds of patterns, tried in the order of the code: [p] is the
    text behind the modifiers, [raw] the text with them. *)
Definition init_kind (raw : string) (ignore icase : bool) (p : string)
  : result ignore_t :=
  match strip_prefix "DEVICE:" p with
  | Some rest => init_device raw ignore icase p rest
  | None =>
      match strip_prefix "INODE:" p with
      | Some rest => init_inode raw ignore icase p rest
      | None =>
          match strip_prefix "PCRE:" p with
          | Some rest => init_regex raw ignore icase PT_PCRE rest
          | None =>
              match strip_prefix "./" p with
              | Some _ => init_regex raw ignore icase PT_SHELL p
              | None => Err EINVAL
              end
          end
      end
  end.

(** [ign___init_pattern_into(pattern, end, ignore)].  [ends] is [None] for
    a NULL [end], else the distance of [end] from [pattern]. *)
Definition ign___init_pattern_into (pattern0 : string) (ends : option Z)
  : result ignore_t :=
  let cp := strlen pattern0 in
  let end_ := match ends with
              | Some e => if cp <? e then cp else e
              | None => cp
              end in
  '(off, raw) <- skip_white end_ 0 pattern0 ;;
  '(ignore, icase, p) <- modifiers end_ off true false raw ;;
  init_kind raw ignore icase p.

(** ** The ignore list

    The global array [ignore_list] with its [used_ignore_entries] entries
    is a list; the room behind the used entries ([max_ignore_entries]) is
    not kept, and [realloc] is taken to succeed. *)

(** The search loop of [ign__new_pattern]: the index of the first user
    pattern, the number of entries when there is none. *)
Fixpoint first_user (ilist : list ignore_t) : nat :=
  match ilist with
  | [] => O
  | ign :: ilist' => if is_user_pat ign then O else S (first_user ilist')
  end.

(** The last loop of [ign__new_pattern]: [count] patterns are read from
    the array [pats] and initialised one after the other.  (An [ends] only
    ever comes with a single pattern.) *)
Fixpoint init_patterns (count : nat) (pats : list string) (ends : option Z)
         (user_pattern : bool) : result (list ignore_t) :=
  match count with
  | O => Ok []
  | S count' =>
      match pats with
      | [] => Abort
      | p :: pats' =>
          ign <- ign___init_pattern_into p ends ;;
          rest <- init_patterns count' pats' ends user_pattern ;;
          Ok (set_user_pat user_pattern ign :: rest)
      end
  end.

(** [ign__new_pattern(count, pattern, ends, user_pattern, position)].
    [memmove] moves the entries from index [i] on behind the room for the
    new ones; it leaves the array when [i] is not within the used entries,
    which is also what [BUG_ON] refuses. *)
Definition ign__new_pattern (count : nat) (pats : option (list string))
           (ends : option Z) (user_pattern : bool) (position : Z)
           (ilist : list ignore_t) : result (list ignore_t) :=
  match pats with
  | None => Ok ilist
  | Some ps =>
      let used := Z.of_nat (List.length ilist) in
      pos <- (if negb (position =? PATTERN_POSITION_END) && (0 <? used) then
                let i := Z.of_nat (first_user ilist) + position in
                if (i <? 0) || (used <? i) then Abort else Ok i
              else Ok used) ;;
      if (used <? pos) || (pos <? 0) then Abort
      else
        news <- init_patterns count ps ends user_pattern ;;
        Ok (firstn (Z.to_nat pos) ilist ++ news
            ++ skipn (Z.to_nat pos) ilist)%list
  end.

(** The C string that starts a text with NUL characters (the text is taken
    to be followed by NULs, as a mapped file is). *)
Fixpoint cstr (mem : string) : string :=
  match mem with
  | String c mem' => if (c =? NUL)%char then "" else String c (cstr mem')
  | "" => ""
  end.

Fixpoint drop (n : nat) (mem : string) : string :=
  match n with
  | O => mem
  | S n' => match mem with
            | String _ mem' => drop n' mem'
            | "" => ""
            end
  end.

(** [strchr(s, c)]: the offset of the first [c]. *)
Fixpoint strchr (s : string) (c : ascii) : option Z :=
  match s with
  | String a s' =>
      if (a =? c)%char then Some 0
      else match strchr s' c with
           | Some k => Some (k + 1)
           | None => None
           end
  | "" => None
  end.

(** The loop that fills the list: [l] passes are left, [cp] is the offset
    of the next pattern in [memory], [cp2] the size of the file. *)
Fixpoint load_loop (l : nat) (memory : string) (cp2 cp : Z)
         (ilist : list ignore_t) : result (list ignore_t) :=
  match l with
  | O => Ok ilist
  | S l' =>
      let p := cstr (drop (Z.to_nat cp) memory) in
      ilist' <- ign__new_pattern 1 (Some [p]) (Some (cp2 - cp)) true
                 PATTERN_POSITION_END ilist ;;
      let cp' := cp + strlen p + 1 in
      if cp2 <=? cp' then Ok ilist' else load_loop l' memory cp2 cp' ilist'
  end.

(** [ign__load_list].  [file] is the content of the ignore file, [None]
    when there is none ([ENOENT]).  Mapping an empty file fails without
    giving NULL, and the header is then read from an invalid address. *)
Definition ign__load_list (file : option string) (ilist : list ignore_t)
  : outcome ignore_t :=
  match file with
  | None => Returns 0 ilist
  | Some memory =>
      if strlen memory =? 0 then Aborts
      else
        match strchr (cstr memory) LF with
        | None => Returns 0 ilist
        | Some k =>
            match sscanf_u (cstr memory) with
            | None => Returns EINVAL []
            | Some count =>
                match load_loop (Z.to_nat count) memory (strlen memory)
                                (k + 1) ilist with
                | Ok ilist' => Returns 0 ilist'
                | Err e => Returns e []
                | Abort => Aborts
                end
            end
        end
  end.

Section Save.

(** The size of the header buffer, a constant of a header outside src/. *)
Variable HEADER_LEN : Z.

Definition user_patterns (ilist : list ignore_t) : list ignore_t :=
  filter is_user_pat ilist.

(** One pattern in the file: its text, the NUL, a newline. *)
Definition file_entry (text : string) : string :=
  text ++ chr NUL ++ chr LF.

Fixpoint concat_str (l : list string) : string :=
  match l with
  | [] => ""
  | s :: l' => s ++ concat_str l'
  end.

(** [ign__save_ignorelist]: the bytes written to the ignore file (opening,
    writing and closing are taken to succeed). *)
Definition ign__save_ignorelist (ilist : list ignore_t) : result string :=
  let l := List.length (user_patterns ilist) in
  let buffer := print_u l in
  if HEADER_LEN - 1 <=? strlen buffer then Err ENOSPC
  else
    Ok (buffer ++ chr LF
        ++ concat_str (map (fun ign => file_entry (pattern ign))
                           (user_patterns ilist))).

(** Modelled from the spec: the two command words are constants defined
    outside src/ ([fsvs ignore dump|load]). *)
Definition parm_dump : string := "dump".
Definition parm_load : string := "load".

(** The loop of the [load] command over the strings read from [stdin]. *)
Fixpoint load_stdin (lines : list string) (ilist : list ignore_t)
  : result (list ignore_t) :=
  match lines with
  | [] => Ok ilist
  | cp :: lines' =>
      ilist' <- ign__new_pattern 1 (Some [cp]) None true
                  PATTERN_POSITION_END ilist ;;
      load_stdin lines' ilist'
  end.

(** [ign__work(root, argc, argv)].  [file] is the content of the ignore
    file, [stdin] the strings that [hlp__string_from_filep] reads; the
    result is the list at the end and the bytes written to the ignore
    file, if it is written.  What is printed is not kept. *)
Definition ign__work (file : option string) (stdin : list string)
           (argv : list string) (list0 : list ignore_t)
  : result (list ignore_t * option string) :=
  match argv with
  | [] => Abort
  | a0 :: argv' =>
      if String.eqb a0 parm_load then
        ilist <- load_stdin stdin list0 ;;
        bytes <- ign__save_ignorelist ilist ;;
        Ok (ilist, Some bytes)
      else
        match ign__load_list file list0 with
        | Aborts => Abort
        | Returns status ilist =>
            if negb (status =? 0) then Err status
            else if String.eqb a0 parm_dump then Ok (ilist, None)
            else
              '(args, position) <-
                 (if String.eqb a0 "prepend" then
                    Ok (argv', PATTERN_POSITION_START)
                  else match sscanf_at a0 with
                       | Some i =>
                           if Z.of_nat (List.length ilist) <? i
                           then Err EINVAL
                           else Ok (argv', i)
                       | None =>
                           if String.eqb a0 "append"
                           then Ok (argv', PATTERN_POSITION_END)
                           else Ok (argv, PATTERN_POSITION_END)
                       end) ;;
              ilist' <- ign__new_pattern (List.length args) (Some args) None
                          true position ilist ;;
              bytes <- ign__save_ignorelist ilist' ;;
              Ok (ilist', Some bytes)
        end
  end.

End Save.

(** ** Matching *)

Record sstat_t := {
  st_mode : Z;
  st_dev : dev_t;
  st_ino : Z
}.

Definition S_ISDIR (mode : Z) : bool := Z.land mode 61440 =? 16384.

Inductive filetype := FT_IGNORE | FT_OTHER.

(** [struct estat], as far as the evaluator reads it.  [path] is the
    text that [ops__build_path] gives for the entry, [ftype] what
    [ops___filetype] gives for its [st]; both functions are defined
    outside src/. *)
#[local] Unset Elimination Schemes.
Inductive estat : Type := Estat {
  path : string;
  st : sstat_t;
  ftype : filetype;
  parent : option estat
}.
#[local] Set Elimination Schemes.

(** Modelled from the spec: [dir___f_sort_by_inodePP] is defined outside
    src/; it orders entries by device and inode, and gives 0 exactly for
    the same device and the same inode. *)
Definition dir___f_sort_by_inodePP (a b : sstat_t) : Z :=
  if dev_eqb (st_dev a) (st_dev b) && (st_ino a =? st_ino b) then 0 else 1.

Definition ign___compare_dev (s : sstat_t) (ign : ignore_t) : Z :=
  let mj := MAJOR (st_dev s) in
  let mn := MINOR (st_dev s) in
  if major ign <? mj then 2
  else if mj <? major ign then -2
  else if negb (has_minor ign) then 0
  else if minor ign <? mn then 1
  else if mn <? minor ign then -1
  else 0.

Definition b2z (b : bool) : Z := if b then 1 else 0.

(** The test of one pattern in the loop of [ign__is_ignore]: the value of
    [status] behind the chain of [if]s, 0 for a match.  [status] is the
    value the variable has when the pattern is reached: a comparator
    outside the five cases of the [switch] leaves it as it is before the
    negation. *)
Definition ign_test (status : Z) (ign : ignore_t) (sts dir : estat) : Z :=
  match type ign with
  | PT_SHELL | PT_PCRE =>
      match compiled ign with
      | Some re => pcre_exec re (path sts)
      | None => PCRE_ERROR_NULL
      end
  | PT_DEVICE =>
      let s := if S_ISDIR (st_mode (st sts)) then st dir else st sts in
      let c := ign___compare_dev s ign in
      let status1 :=
        if compare ign =? PAT_DEV__LESS then b2z (c <? 0)
        else if compare ign =? Z.lor PAT_DEV__LESS PAT_DEV__EQUAL
             then b2z (c <=? 0)
        else if compare ign =? PAT_DEV__EQUAL then b2z (c =? 0)
        else if compare ign =? Z.lor PAT_DEV__EQUAL PAT_DEV__GREATER
             then b2z (0 <=? c)
        else if compare ign =? PAT_DEV__GREATER then b2z (0 <? c)
        else status in
      b2z (status1 =? 0)
  | PT_INODE =>
      let sts_cmp := {| st_mode := 0; st_dev := dev ign;
                        st_ino := inode ign |} in
      b2z (negb (dir___f_sort_by_inodePP sts_cmp (st sts) =? 0))
  end.

(** The loop over the used entries: the status returned and [*is_ignored]. *)
Fixpoint ign_scan (status : Z) (ilist : list ignore_t) (sts dir : estat)
  : Z * Z :=
  match ilist with
  | [] => (0, 0)
  | ign :: ilist' =>
      let status' := ign_test status ign sts dir in
      match type ign with
      | PT_SHELL | PT_PCRE =>
          if negb (status' =? 0) && negb (status' =? PCRE_ERROR_NOMATCH)
          then (status', 0)
          else if status' =? 0 then (0, if is_ignore ign then 1 else -1)
          else ign_scan status' ilist' sts dir
      | _ =>
          if status' =? 0 then (0, if is_ignore ign then 1 else -1)
          else ign_scan status' ilist' sts dir
      end
  end.

(** [ign__is_ignore(sts, &is_ignored)] over the list [list]: the status
    and [*is_ignored] (+1 ignored, -1 taken, 0 unknown). *)
Definition ign__is_ignore (ilist : list ignore_t) (sts : estat) : Z * Z :=
  match parent sts with
  | None => (0, 0)
  | Some dir =>
      match ftype sts with
      | FT_IGNORE => (0, 1)
      | FT_OTHER => ign_scan 0 ilist sts dir
      end
  end.

End Ignore.

(** ** The regular expressions that the translator writes

    A model of the PCRE library for the texts that [shell_to_pcre] writes:
    literal characters, [\c] for a character [c] that is no letter and no
    digit, [.], character classes with negation and ranges, [*] behind one
    of these, [$], and groups with alternatives.  [compile] gives [None]
    for a text that the library rejects, and for a text outside of this
    fragment.

    The options of the call are part of the model: a match starts at the
    first character of the subject and may end anywhere ([PCRE_ANCHORED]),
    [.] takes every character ([PCRE_DOTALL]), and [$] holds at the end of
    the subject and before a newline that ends it.  Whether a quantifier is
    greedy does not change whether there is a match. *)
Module Regex.

Inductive cset :=
| CAny
| CLit (c : ascii)
| CClass (neg : bool) (items : list (ascii * ascii)).

Inductive re :=
| REmpty
| RSet (cs : cset)
| RStar (cs : cset)
| REnd
| RSeq (a b : re)
| RAlt (a b : re).

Definition swap_case (c : ascii) : ascii :=
  if is_lower c then ascii_of_nat (nat_of_ascii c - 32)
  else if is_upper c then ascii_of_nat (nat_of_ascii c + 32)
  else c.

Definition in_item (c : ascii) (it : ascii * ascii) : bool :=
  in_range (fst it) (snd it) c.

Definition cset_match (caseless : bool) (cs : cset) (c : ascii) : bool :=
  match cs with
  | CAny => true
  | CLit a => (a =? c)%char || (caseless && (a =? swap_case c)%char)
  | CClass neg items =>
      xorb neg (existsb (in_item c) items
                || (caseless && existsb (in_item (swap_case c)) items))
  end.

(** [$]: the end of the subject, or the newline that ends it. *)
Definition at_end (s : string) : bool :=
  match s with
  | "" => true
  | String c "" => (c =? LF)%char
  | _ => false
  end.

Fixpoint star (caseless : bool) (cs : cset) (k : string -> bool) (s : string)
  : bool :=
  k s || match s with
         | String c s' => cset_match caseless cs c && star caseless cs k s'
         | "" => false
         end.

(** [run caseless r k s]: [r] matches at the start of [s], and [k] accepts
    what is left. *)
Fixpoint run (caseless : bool) (r : re) (k : string -> bool) (s : string)
  : bool :=
  match r with
  | REmpty => k s
  | RSet cs =>
      match s with
      | String c s' => cset_match caseless cs c && k s'
      | "" => false
      end
  | RStar cs => star caseless cs k s
  | REnd => at_end s && k s
  | RSeq a b => run caseless a (run caseless b k) s
  | RAlt a b => run caseless a k s || run caseless b k s
  end.

Definition posix_start (c : ascii) : bool :=
  (c =? ":")%char || (c =? ".")%char || (c =? "=")%char.

(** The items of a class up to its closing bracket; [first] as long as no
    item is read (a closing bracket is then an item). *)
Fixpoint class_items (first : bool) (acc : list (ascii * ascii)) (s : string)
  : option (list (ascii * ascii) * string) :=
  match s with
  | "" => None
  | String c s1 =>
      if (c =? "]")%char && negb first then Some (acc, s1)
      else if (c =? "\")%char then
        match s1 with
        | String e s2 =>
            if is_alnum e then None
            else class_items false (acc ++ [(e, e)])%list s2
        | "" => None
        end
      else if (c =? "[")%char && posix_start (nth_char 0 s1) then None
      else
        match s1 with
        | String d (String h s3) =>
            if (d =? "-")%char && negb (h =? "]")%char then
              if (h =? "\")%char || (h =? "[")%char then None
              else if code h <? code c then None
              else class_items false (acc ++ [(c, h)])%list s3
            else class_items false (acc ++ [(c, c)])%list s1
        | _ => class_items false (acc ++ [(c, c)])%list s1
        end
  end.

Definition parse_class (s : string) : option (cset * string) :=
  let '(neg, s1) := match s with
                    | String c s' =>
                        if (c =? "^")%char then (true, s') else (false, s)
                    | "" => (false, s)
                    end in
  match class_items true [] s1 with
  | Some (items, rest) => Some (CClass neg items, rest)
  | None => None
  end.

(** A quantifier other than a plain star is outside the fragment. *)
Definition quantified (cs : cset) (s : string) : option (re * string) :=
  match s with
  | String c s' =>
      if (c =? "*")%char then
        match s' with
        | String c' _ =>
            if (c' =? "?")%char || (c' =? "+")%char then None
            else Some (RStar cs, s')
        | "" => Some (RStar cs, s')
        end
      else if (c =? "?")%char || (c =? "+")%char || (c =? "{")%char then None
      else Some (RSet cs, s)
  | "" => Some (RSet cs, s)
  end.

Definition close (alts : option re) (seq : re) : re :=
  match alts with
  | Some a => RAlt a seq
  | None => seq
  end.

(** The text up to the end or to an unmatched closing parenthesis. *)
Fixpoint parse (fuel : nat) (alts : option re) (seq : re) (s : string)
  : option (re * string) :=
  match fuel with
  | O => None
  | S fuel' =>
      match s with
      | "" => Some (close alts seq, s)
      | String c s' =>
          if (c =? ")")%char then Some (close alts seq, s)
          else if (c =? "|")%char then
            parse fuel' (Some (close alts seq)) REmpty s'
          else if (c =? "(")%char then
            match parse fuel' None REmpty s' with
            | Some (g, String _ s'') =>
                match quantified CAny s'' with
                | Some (RSet _, _) => parse fuel' alts (RSeq seq g) s''
                | _ => None
                end
            | _ => None
            end
          else if (c =? "$")%char then parse fuel' alts (RSeq seq REnd) s'
          else if (c =? "*")%char || (c =? "?")%char || (c =? "+")%char
                  || (c =? "{")%char || (c =? "^")%char then None
          else
            match (if (c =? ".")%char then Some (CAny, s')
                   else if (c =? "[")%char then parse_class s'
                   else if (c =? "\")%char then
                     match s' with
                     | String e s'' =>
                         if is_alnum e then None else Some (CLit e, s'')
                     | "" => None
                     end
                   else Some (CLit c, s')) with
            | Some (cs, rest) =>
                match quantified cs rest with
                | Some (r, rest') => parse fuel' alts (RSeq seq r) rest'
                | None => None
                end
            | None => None
            end
      end
  end.

Definition compile (s : string) (caseless : bool) : option (re * bool) :=
  match parse (S (String.length s)) None REmpty s with
  | Some (r, "") => Some (r, caseless)
  | _ => None
  end.

Definition exec (p : re * bool) (subject : string) : Z :=
  if run (snd p) (fst p) (fun _ => true) subject then 0
  else PCRE_ERROR_NOMATCH.

End Regex.

#[export] Instance PcreFragment : Pcre := {|
  pcre := Regex.re * bool;
  pcre_compile := Regex.compile;
  pcre_study_err := fun _ => false;
  pcre_exec := Regex.exec
|}.

(** Whether the rule that [text] gives matches the path [p]: the rule is
    parsed, and the path is tested as [ign__is_ignore] does it. *)
Definition rule_matches (text p : string) : option bool :=
  match ign___init_pattern_into (E := PcreFragment) text None with
  | Ok ign =>
      match compiled ign with
      | Some re => Some (pcre_exec re p =? 0)
      | None => None
      end
  | _ => None
  end.

(** ** The verdict of the evaluator *)

Inductive verdict := Ignored | Taken | Unclassified.

(** The three values of [*is_ignored], or the status of a failed match. *)
Definition classify {E : Pcre} (ilist : list ignore_t) (sts : estat)
  : result verdict :=
  let '(status, is_ignored) := ign__is_ignore ilist sts in
  if negb (status =? 0) then Err status
  else if is_ignored =? 1 then Ok Ignored
  else if is_ignored =? -1 then Ok Taken
  else Ok Unclassified.

(** The scan of [pre] from [status] on when no pattern of it matches and
    no match fails: the value of [status] behind the last pattern. *)
Fixpoint scan_miss {E : Pcre} (status : Z) (pre : list ignore_t)
         (sts dir : estat) : option Z :=
  match pre with
  | [] => Some status
  | ign :: pre' =>
      let status' := ign_test status ign sts dir in
      if status' =? 0 then None
      else match type ign with
           | PT_SHELL | PT_PCRE =>
               if status' =? PCRE_ERROR_NOMATCH
               then scan_miss status' pre' sts dir
               else None
           | _ => scan_miss status' pre' sts dir
           end
  end.

(** The list that the user patterns [texts], appended in this order to an
    empty list, give. *)
Definition rules_of (texts : list string)
  : result (list (@ignore_t PcreFragment)) :=
  ign__new_pattern (List.length texts) (Some texts) None true
                   PATTERN_POSITION_END [].

(** The pattern that [text] gives (a blank one when [text] is refused). *)
Definition rule_of (text : string) : @ignore_t PcreFragment :=
  match ign___init_pattern_into text None with
  | Ok ign => set_user_pat true ign
  | _ => blank text true false PT_SHELL text
  end.

(** Entries for the examples: a directory and a regular file below the
    root of the tree. *)
Definition root_entry : estat :=
  {| path := "."; ftype := FT_OTHER; parent := None;
     st := {| st_mode := 16877; st_dev := MKDEV 8 1; st_ino := 2 |} |}.

Definition file_entry_at (p : string) (d : dev_t) : estat :=
  {| path := p; ftype := FT_OTHER; parent := Some root_entry;
     st := {| st_mode := 33188; st_dev := d; st_ino := 42 |} |}.

Definition dir_entry_at (p : string) (d : dev_t) : estat :=
  {| path := p; ftype := FT_OTHER; parent := Some root_entry;
     st := {| st_mode := 16877; st_dev := d; st_ino := 43 |} |}.

(** The device that a device pattern is compared with: the one of the
    parent for a directory, the own one for every other entry. *)
Definition relevant_device (sts dir : estat) : dev_t :=
  if S_ISDIR (st_mode (st sts)) then st_dev (st dir) else st_dev (st sts).

(** ** Glob patterns, as the documentation describes them *)

Fixpoint has_char (c : ascii) (s : string) : bool :=
  match s with
  | String a s' => (a =? c)%char || has_char c s'
  | "" => false
  end.

(** A text without NUL: what a C string can hold. *)
Definition c_string (s : string) : Prop := has_char NUL s = false.

(** A run of [n] stars. *)
Fixpoint stars (n : nat) : string :=
  match n with
  | O => ""
  | S n' => String "*" (stars n')
  end.

Definition starts_with (c : ascii) (s : string) : bool :=
  match s with
  | String a _ => (a =? c)%char
  | "" => false
  end.

Definition is_negation (c : ascii) : bool := (c =? "!")%char || (c =? "^")%char.

(** The negation marks that open a bracket expression: each becomes a
    caret, none of them is content.  The result is the text written and
    the text that is left. *)
Fixpoint bracket_negations (s : string) : string * string :=
  match s with
  | String c s' =>
      if is_negation c then
        let '(out, rest) := bracket_negations s' in (String "^" out, rest)
      else ("", s)
  | "" => ("", s)
  end.

(** The content of a bracket expression, copied up to and with the closing
    bracket.  A backslash is copied together with the character behind it;
    a closing bracket closes unless it is the very first content
    character ([first]). *)
Fixpoint bracket_content (first : bool) (s : string) : string * string :=
  match s with
  | "" => ("", "")
  | String c s' =>
      if (c =? "\")%char then
        match s' with
        | String e s'' =>
            let '(out, rest) := bracket_content false s'' in
            (String c (String e out), rest)
        | "" => (String c "", "")
        end
      else if (c =? "]")%char && negb first then (String c "", s')
      else
        let '(out, rest) := bracket_content false s' in (String c out, rest)
  end.

(** The translation of a bracket expression, for the text behind the
    opening bracket. *)
Definition bracket_spec (s : string) : string * string :=
  let '(out1, rest1) := bracket_negations s in
  let '(out2, rest2) := bracket_content true rest1 in
  (out1 ++ out2, rest2).

(** Where a reader of a glob pattern stands: in plain text, in plain text
    right behind a star that is a wildcard, behind an escaping backslash,
    or inside a bracket expression ([first]: no content character read so
    far; [esc]: behind a backslash). *)
Inductive lex :=
| LPlain
| LStar
| LEscape
| LBracket (first esc : bool).

Definition lex_step (l : lex) (c : ascii) : lex :=
  match l with
  | LPlain | LStar =>
      if (c =? "\")%char then LEscape
      else if (c =? "[")%char then LBracket true false
      else if (c =? "*")%char then LStar
      else LPlain
  | LEscape => LPlain
  | LBracket first esc =>
      if esc then LBracket first false
      else if first && is_negation c then LBracket true false
      else if (c =? "]")%char && negb first then LPlain
      else LBracket false (c =? "\")%char
  end.

Fixpoint lex_run (l : lex) (s : string) : lex :=
  match s with
  | String c s' => lex_run (lex_step l c) s'
  | "" => l
  end.

Definition is_plain (c : ascii) : bool :=
  is_alnum c || (c =? "/")%char || (c =? "-")%char.

Definition prepend (d : string) (r : string * bool) : string * bool :=
  (d ++ fst r, snd r).

(** The translation of a shell pattern as the documentation gives it, item
    by item: a backslash with the character behind it is copied; a run of
    two or more stars is [.*] and makes the pattern one with a wild
    wildcard; a single star is [[^/]*]; a question mark is [.]; a bracket
    expression is translated by [bracket_spec]; letters, digits, the slash
    and the minus are copied, and every other character gets a backslash
    before it.  The result is the text and [has_wildwildcard]; [fuel] at
    least the length of the pattern is enough. *)
Fixpoint glob_spec (fuel : nat) (s : string) : string * bool :=
  match fuel with
  | O => ("", false)
  | S fuel' =>
      match s with
      | "" => ("", false)
      | String c s' =>
          if (c =? "\")%char then
            match s' with
            | String e s'' =>
                prepend (String c (String e "")) (glob_spec fuel' s'')
            | "" => (chr c, false)
            end
          else if (c =? "*")%char then
            if starts_with "*" s' then
              (".*" ++ fst (glob_spec fuel' (skip_stars s')), true)
            else prepend "[^/]*" (glob_spec fuel' s')
          else if (c =? "?")%char then prepend "." (glob_spec fuel' s')
          else if (c =? "[")%char then
            prepend (String c (fst (bracket_spec s')))
                    (glob_spec fuel' (snd (bracket_spec s')))
          else if is_plain c then prepend (chr c) (glob_spec fuel' s')
          else prepend (String "\" (chr c)) (glob_spec fuel' s')
      end
  end.

Definition glob_text (s : string) : string * bool :=
  glob_spec (String.length s) s.

(** The loop of the translator for a text that may be empty: nothing is
    left to do for the empty text. *)
Definition shell_cont (fuel : nat) (len : Z) (st : xlate) : result xlate :=
  match x_src st with
  | "" => Ok st
  | String _ _ => shell_loop fuel len st
  end.

(** The text that the translator writes for [s], before the anchor, in a
    buffer that is large enough. *)
Definition translate_body (s : string) : string :=
  match shell_cont (String.length s) (strlen s * 5 + 16)
                   {| x_backslashed := false; x_wildwild := false;
                      x_src := s; x_dest := "" |} with
  | Ok st => x_dest st
  | _ => ""
  end.

Fixpoint all_chars (f : ascii -> bool) (s : string) : bool :=
  match s with
  | String c s' => f c && all_chars f s'
  | "" => true
  end.

(** The patterns of a file, one after the other. *)
Definition entries (texts : list string) : string :=
  concat_str (map file_entry texts).

(** What loading [l] patterns from the texts of a file amounts to: each
    text is parsed and appended as a user pattern; a text that is refused
    stops the loop with its status, and so does the end of the texts. *)
Fixpoint load_texts {E : Pcre} (l : nat) (texts : list string)
         (ilist : list ignore_t) : result (list ignore_t) :=
  match l with
  | O => Ok ilist
  | S l' =>
      match texts with
      | [] => Err EINVAL
      | t :: texts' =>
          ign <- ign___init_pattern_into t None ;;
          load_texts l' texts' (ilist ++ [set_user_pat true ign])%list
      end
  end.

(** A pattern of the list as the parser leaves it: its text is a C string,
    and parsing this text gives the pattern again (up to the mark of a
    user pattern, which [ign__new_pattern] sets behind the parser). *)
Definition parsed {E : Pcre} (ign : ignore_t) : Prop :=
  c_string (pattern ign)
  /\ ign___init_pattern_into (pattern ign) None = Ok (set_user_pat false ign).

Definition starts_space (s : string) : bool :=
  match s with
  | String c _ => isspace c
  | "" => false
  end.

Definition starts_digit (s : string) : bool :=
  match s with
  | String c _ => is_digit c
  | "" => false
  end.

(** ** The texts of patterns *)

(** The characters that the modifier loop of the parser passes over. *)
Definition is_modifier (c : ascii) : bool := (c =? "t")%char || (c =? "i")%char.

Definition starts_modifier (s : string) : bool :=
  match s with
  | String c _ => is_modifier c
  | "" => false
  end.

(** The pattern [ign] with the text [raw] and the sense [sense] in the place
    of its own. *)
Definition with_text_sense {E : Pcre} (raw : string) (sense : bool)
           (ign : ignore_t) : ignore_t :=
  {| pattern := raw; compare_string := compare_string ign;
     type := type ign; is_ignore := sense; is_icase := is_icase ign;
     is_user_pat := is_user_pat ign; path_level := path_level ign;
     has_wildwildcard := has_wildwildcard ign; compiled := compiled ign;
     compare := compare ign; major := major ign; minor := minor ign;
     has_minor := has_minor ign; dev := dev ign; inode := inode ign |}.

(** The characters that the comparator loop of a device pattern passes
    over. *)
Definition is_comparator (c : ascii) : bool :=
  (c =? "<")%char || (c =? "=")%char || (c =? ">")%char.

Definition starts_comparator (s : string) : bool :=
  match s with
  | String c _ => is_comparator c
  | "" => false
  end.

(** The bits that the comparators [cs] set in [compare]. *)
Definition comparator_bits (cs : string) : Z :=
  (if has_char "<" cs then PAT_DEV__LESS else 0)
  + (if has_char "=" cs then PAT_DEV__EQUAL else 0)
  + (if has_char ">" cs then PAT_DEV__GREATER else 0).

(** What the comparators [cs] of a device pattern ask for: the device is
    below ([lt]), at ([eq]) or above ([gt]) the numbers of the pattern; no
    comparator asks for [eq].  [<] together with [>] is none of the cases
    of the [switch], and leaves the decision to what is [carried] in
    [status]. *)
Definition asks (cs : string) (lt eq gt carried : Prop) : Prop :=
  if has_char "<" cs && has_char ">" cs then carried
  else if has_char "<" cs then (if has_char "=" cs then lt \/ eq else lt)
  else if has_char ">" cs then (if has_char "=" cs then gt \/ eq else gt)
  else eq.

(** The value of [compare] with the three bits set or not. *)
Definition bits3 (l e g : bool) : Z :=
  (if l then PAT_DEV__LESS else 0) + (if e then PAT_DEV__EQUAL else 0)
  + (if g then PAT_DEV__GREATER else 0).

(** ** Patterns without stars and brackets *)

(** The characters that open something in a shell pattern: a wildcard of
    any length, a bracket expression, an escape. *)
Definition is_special (c : ascii) : bool :=
  (c =? "*")%char || (c =? "[")%char || (c =? "\")%char.

(** A text of literal characters and question marks. *)
Definition simple_glob (s : string) : bool :=
  all_chars (fun c => negb (is_special c)) s.

(** A regular expression of letters, digits, slashes, minus signs and
    dots. *)
Definition simple_regex (s : string) : bool :=
  all_chars (fun c => is_plain c || (c =? ".")%char) s.

(** One character [c] of a pattern against one character [d] of a path;
    [w] is the character of the pattern that stands for any character. *)
Definition char_matches (caseless : bool) (w c d : ascii) : bool :=
  (c =? w)%char || (c =? d)%char
  || (caseless && (c =? Regex.swap_case d)%char).

(** The pattern [p], character by character, against the start of [s]:
    what is left of [s] behind it. *)
Fixpoint wstrip (caseless : bool) (w : ascii) (p s : string)
  : option string :=
  match p with
  | "" => Some s
  | String c p' =>
      match s with
      | String d s' =>
          if char_matches caseless w c d then wstrip caseless w p' s'
          else None
      | "" => None
      end
  end.

(** The regular expression for one character of a pattern. *)
Definition item (w c : ascii) : Regex.cset :=
  if (c =? w)%char then Regex.CAny else Regex.CLit c.

(** How an item is written in a regular expression. *)
Definition spell_item (cs : Regex.cset) : string :=
  match cs with
  | Regex.CLit c => if is_plain c then chr c else String "\" (chr c)
  | _ => "."
  end.

Fixpoint spell (w : ascii) (p : string) : string :=
  match p with
  | "" => ""
  | String c p' => spell_item (item w c) ++ spell w p'
  end.

(** The sequence of the items of [p] behind [seq], as the parser of
    regular expressions builds it. *)
Fixpoint lits (w : ascii) (seq : Regex.re) (p : string) : Regex.re :=
  match p with
  | "" => seq
  | String c p' => lits w (Regex.RSeq seq (Regex.RSet (item w c))) p'
  end.

Fixpoint lit_run (caseless : bool) (w : ascii) (p : string)
         (k : string -> bool) : string -> bool :=
  match p with
  | "" => k
  | String c p' =>
      Regex.run caseless (Regex.RSet (item w c)) (lit_run caseless w p' k)
  end.

(** The characters that a quantifier starts with. *)
Definition starts_quantifier (s : string) : bool :=
  match s with
  | String c _ =>
      (c =? "*")%char || (c =? "?")%char || (c =? "+")%char
      || (c =? "{")%char
  | "" => false
  end.

(** The text with every letter in the other case. *)
Fixpoint swap_all (s : string) : string :=
  match s with
  | "" => ""
  | String c s' => String (Regex.swap_case c) (swap_all s')
  end.

(** ** The order of the list *)

(** What [ign__new_pattern] takes for granted: the patterns that are no
    user patterns stand before the user patterns, that is, behind the
    first user pattern there are user patterns only. *)
Definition system_first {E : Pcre} (ilist : list ignore_t) : bool :=
  forallb is_user_pat (skipn (first_user ilist) ilist).

(** ** The lists of a directory ([ign___do_parent_list])

    The lists are arrays of pointers to patterns, ended by a NULL pointer.
    A heap gives the cells of the array at an address, [None] for an
    address that is not in use; a cell holds [None] for a NULL pointer.
    The patterns that the cells point to are not changed by the function,
    and stand in the cells themselves. *)

Section ParentList.

Context {E : Pcre}.

Definition heap : Type := nat -> option (list (option ignore_t)).

(** [array[i]]: [None] for a read outside of an array in use. *)
Definition heap_get (h : heap) (a i : nat) : option (option ignore_t) :=
  match h a with
  | Some cells => nth_error cells i
  | None => None
  end.

Fixpoint set_nth {A : Type} (i : nat) (v : A) (l : list A)
  : option (list A) :=
  match l with
  | [] => None
  | x :: l' =>
      match i with
      | O => Some (v :: l')
      | S i' =>
          match set_nth i' v l' with
          | Some r => Some (x :: r)
          | None => None
          end
      end
  end.

(** [array[i] = v]: [None] for a write outside of an array in use. *)
Definition heap_set (h : heap) (a : nat) (i : Z) (v : option ignore_t)
  : option heap :=
  if i <? 0 then None
  else
    match h a with
    | Some cells =>
        match set_nth (Z.to_nat i) v cells with
        | Some cells' =>
            Some (fun b => if Nat.eqb b a then Some cells' else h b)
        | None => None
        end
    | None => None
    end.

(** Modelled from the spec: the macro [IF_FREE] is defined outside src/; it
    frees the array that a pointer holds, if it holds one. *)
Definition IF_FREE (h : heap) (p : option nat) : option heap :=
  match p with
  | None => Some h
  | Some a =>
      match h a with
      | Some _ => Some (fun b => if Nat.eqb b a then None else h b)
      | None => None
      end
  end.

(** Whether a pattern is taken into the list of a directory at
    [sts->path_level]. *)
Definition take (level : Z) (ign : ignore_t) : bool :=
  if has_wildwildcard ign then Z.of_nat (path_level ign) <=? level
  else level =? Z.of_nat (path_level ign).

(** The [while] loop over [list]: [i] is the place of [list] in [source].  A
    source without a NULL pointer is read behind its end ([fuel] is the
    size of the array). *)
Fixpoint parent_loop (fuel : nat) (h : heap) (target : option nat)
         (next_index : Z) (source i : nat) (level : Z) (all_parent : bool)
  : result (heap * Z * bool) :=
  match fuel with
  | O => Abort
  | S fuel' =>
      match heap_get h source i with
      | None => Abort
      | Some None => Ok (h, next_index, all_parent)
      | Some (Some ign) =>
          if take level ign then
            match target with
            | None => Abort
            | Some t =>
                match heap_set h t next_index (Some ign) with
                | Some h' =>
                    parent_loop fuel' h' target (next_index + 1) source
                                (S i) level all_parent
                | None => Abort
                end
            end
          else
            parent_loop fuel' h target next_index source (S i) level false
      end
  end.

(** [ign___do_parent_list(target, next_index, source, sts, ..)]: the heap,
    [*target] and the index returned.  [level] is [sts->path_level]; the
    other arguments are not used by the function. *)
Definition ign___do_parent_list (h : heap) (target : option nat)
           (next_index : Z) (source : option nat) (level : Z)
  : result (heap * option nat * Z) :=
  match source with
  | None => Ok (h, target, next_index)
  | Some src =>
      match h src with
      | None => Abort
      | Some cells =>
          '(h', idx, all_parent) <-
             parent_loop (List.length cells) h target next_index src O
                         level true ;;
          if all_parent then
            match IF_FREE h' target with
            | Some h'' => Ok (h'', Some src, idx)
            | None => Abort
            end
          else Ok (h', target, idx)
      end
  end.

End ParentList.

(** Two stars in a row, somewhere in the text. *)
Fixpoint has_star_run (s : string) : bool :=
  match s with
  | String a s' =>
      ((a =? "*")%char && starts_with "*" s') || has_star_run s'
  | "" => false
  end.

(** The items of a character class that lists the characters of [set]. *)
Fixpoint pairs (set : string) : list (ascii * ascii) :=
  match set with
  | "" => []
  | String c set' => (c, c) :: pairs set'
  end.

(** A text that does not start with a number: it is empty, or starts with
    a character that is no digit, no sign and no white space. *)
Definition no_number (s : string) : bool :=
  match s with
  | "" => true
  | String c _ =>
      negb (is_digit c || isspace c || (c =? "-")%char || (c =? "+")%char)
  end.

(** A character that ends a decimal number, and does not turn a leading
    zero into the start of a hexadecimal number. *)
Definition ends_number (c : ascii) : bool :=
  negb (is_digit c || (c =? "x")%char || (c =? "X")%char).

(** * Properties *)

(** ** The root of the tree *)

(** C10: an entry without a parent (the root of the tree) is left
    unclassified, with status 0, whatever the list holds, whatever the
    entry is, and whatever the matching library would answer: no pattern
    is tested. *)
Theorem root_is_unclassified :
  forall (E : Pcre) (ilist : list ignore_t) (p : string) (s : sstat_t)
         (f : filetype),
    ign__is_ignore ilist (Estat p s f None) = (0, 0)
    /\ classify ilist (Estat p s f None) = Ok Unclassified.
Proof.
  intros E ilist p s f. unfold classify, ign__is_ignore. simpl. split; reflexivity.
Qed.

(** ** The first match decides *)

Lemma ign_scan_app_miss :
  forall (E : Pcre) (pre post : list ignore_t) (sts dir : estat)
         (status status1 : Z),
    scan_miss status pre sts dir = Some status1 ->
    ign_scan status (pre ++ post) sts dir = ign_scan status1 post sts dir.
Proof.
  intros E pre. induction pre as [|ign pre IH]; intros post sts dir status status1 H.
  - simpl in H. injection H as ->. reflexivity.
  - simpl in H. simpl.
    destruct (ign_test status ign sts dir =? 0) eqn:Hz; [discriminate|].
    destruct (type ign); simpl.
    + destruct (ign_test status ign sts dir =? PCRE_ERROR_NOMATCH) eqn:Hn;
        [|discriminate]. simpl. now apply IH.
    + destruct (ign_test status ign sts dir =? PCRE_ERROR_NOMATCH) eqn:Hn;
        [|discriminate]. simpl. now apply IH.
    + now apply IH.
    + now apply IH.
Qed.

Lemma ign_scan_hit :
  forall (E : Pcre) (ign : ignore_t) (post : list ignore_t) (sts dir : estat)
         (status : Z),
    ign_test status ign sts dir = 0 ->
    ign_scan status (ign :: post) sts dir
    = (0, if is_ignore ign then 1 else -1).
Proof.
  intros E ign post sts dir status H. simpl. rewrite H. simpl.
  destruct (type ign); reflexivity.
Qed.

Lemma ign_scan_all_miss :
  forall (E : Pcre) (ilist : list ignore_t) (sts dir : estat)
         (status status1 : Z),
    scan_miss status ilist sts dir = Some status1 ->
    ign_scan status ilist sts dir = (0, 0).
Proof.
  intros E ilist sts dir status status1 H.
  rewrite <- (app_nil_r ilist).
  rewrite (ign_scan_app_miss E ilist [] sts dir status status1 H). reflexivity.
Qed.

(** C1 (as stated, refuted): behind the pattern [./**], the take pattern
    [t./keep.txt] is never reached; the path [./keep.txt] is ignored, not
    taken. *)
Lemma keep_txt_behind_ignore_all_is_ignored :
  exists ilist,
    rules_of ["./**"; "t./keep.txt"] = Ok ilist
    /\ classify ilist (file_entry_at "./keep.txt" (MKDEV 8 1)) = Ok Ignored
    /\ classify ilist (file_entry_at "./keep.txt" (MKDEV 8 1)) <> Ok Taken.
Proof.
  eexists. split; [vm_compute; reflexivity|].
  split; [vm_compute; reflexivity|].
  vm_compute. discriminate.
Qed.

(** C1 (amended): for every list and every entry.  An entry without a
    parent is left unclassified and an entry whose file type is ignored
    as such is Ignored, whatever the list holds.  For every other entry
    the patterns are tested in the order of the list, and the first one
    that matches, every pattern before it having been tested without a
    match and without an error of the library, decides: an ignore pattern
    gives Ignored, a take pattern gives Taken, whatever follows it in the
    list; when no pattern matches the entry is left unclassified.  With
    the list [./**], [t./keep.txt] the path [./keep.txt] is Ignored; with
    the list [t./keep.txt], [./**] it is Taken. *)
Theorem first_match_decides :
  (forall (E : Pcre) (ilist : list ignore_t) (sts : estat),
      parent sts = None ->
      classify ilist sts = Ok Unclassified)
  /\ (forall (E : Pcre) (ilist : list ignore_t) (sts dir : estat),
         parent sts = Some dir ->
         ftype sts = FT_IGNORE ->
         classify ilist sts = Ok Ignored)
  /\ (forall (E : Pcre) (pre : list ignore_t) (r : ignore_t)
             (post : list ignore_t) (sts dir : estat) (status1 : Z),
         parent sts = Some dir ->
         ftype sts = FT_OTHER ->
         scan_miss 0 pre sts dir = Some status1 ->
         ign_test status1 r sts dir = 0 ->
         classify (pre ++ r :: post) sts
         = Ok (if is_ignore r then Ignored else Taken))
  /\ (forall (E : Pcre) (ilist : list ignore_t) (sts dir : estat)
             (status1 : Z),
         parent sts = Some dir ->
         ftype sts = FT_OTHER ->
         scan_miss 0 ilist sts dir = Some status1 ->
         classify ilist sts = Ok Unclassified)
  /\ (exists ilist,
        rules_of ["./**"; "t./keep.txt"] = Ok ilist
        /\ classify ilist (file_entry_at "./keep.txt" (MKDEV 8 1))
           = Ok Ignored)
  /\ (exists ilist,
        rules_of ["t./keep.txt"; "./**"] = Ok ilist
        /\ classify ilist (file_entry_at "./keep.txt" (MKDEV 8 1))
           = Ok Taken).
Proof.
  split; [|split; [|split; [|split; [|split]]]].
  - intros E ilist sts Hp. unfold classify, ign__is_ignore.
    rewrite Hp. reflexivity.
  - intros E ilist sts dir Hp Hf. unfold classify, ign__is_ignore.
    rewrite Hp, Hf. reflexivity.
  - intros E pre r post sts dir status1 Hp Hf Hmiss Hhit.
    unfold classify, ign__is_ignore. rewrite Hp, Hf.
    rewrite (ign_scan_app_miss E pre (r :: post) sts dir 0 status1 Hmiss).
    rewrite (ign_scan_hit E r post sts dir status1 Hhit).
    destruct (is_ignore r); reflexivity.
  - intros E ilist sts dir status1 Hp Hf Hmiss.
    unfold classify, ign__is_ignore. rewrite Hp, Hf.
    rewrite (ign_scan_all_miss E ilist sts dir 0 status1 Hmiss).
    reflexivity.
  - eexists. split; [vm_compute; reflexivity | vm_compute; reflexivity].
  - eexists. split; [vm_compute; reflexivity | vm_compute; reflexivity].
Qed.

Lemma first_match_decides_witness :
  classify ([rule_of "./x"] ++ rule_of "t./keep.txt" :: [rule_of "./**"])
           (file_entry_at "./keep.txt" (MKDEV 8 1))
  = Ok Taken.
Proof.
  apply (proj1 (proj2 (proj2 first_match_decides)) PcreFragment
               [rule_of "./x"] (rule_of "t./keep.txt") [rule_of "./**"]
               (file_entry_at "./keep.txt" (MKDEV 8 1)) root_entry
               PCRE_ERROR_NOMATCH);
    vm_compute; reflexivity.
Defined.

(** ** Device patterns *)

Lemma device_test_relevant :
  forall (E : Pcre) (ign : ignore_t) (status : Z)
         (sts dir sts' dir' : estat),
    type ign = PT_DEVICE ->
    relevant_device sts dir = relevant_device sts' dir' ->
    ign_test status ign sts dir = ign_test status ign sts' dir'.
Proof.
  intros E ign status sts dir sts' dir' Hty Hrel.
  unfold ign_test. rewrite Hty. unfold ign___compare_dev.
  unfold relevant_device in Hrel.
  assert (Hd : st_dev (if S_ISDIR (st_mode (st sts)) then st dir else st sts)
               = st_dev (if S_ISDIR (st_mode (st sts')) then st dir'
                         else st sts')).
  { destruct (S_ISDIR (st_mode (st sts)));
      destruct (S_ISDIR (st_mode (st sts'))); exact Hrel. }
  rewrite Hd. reflexivity.
Qed.

(** A list of device patterns gives the same verdict for two entries with
    the same relevant device. *)
Lemma device_scan_relevant :
  forall (E : Pcre) (ilist : list ignore_t) (status : Z)
         (sts dir sts' dir' : estat),
    Forall (fun r => type r = PT_DEVICE) ilist ->
    relevant_device sts dir = relevant_device sts' dir' ->
    ign_scan status ilist sts dir = ign_scan status ilist sts' dir'.
Proof.
  intros E ilist. induction ilist as [|r ilist IH];
    intros status sts dir sts' dir' Hty Hrel; [reflexivity|].
  inversion Hty as [|r' l' Hr Hl]; subst.
  cbn [ign_scan]. rewrite Hr.
  rewrite (device_test_relevant E r status sts dir sts' dir' Hr Hrel).
  destruct (ign_test status r sts' dir' =? 0); [reflexivity|].
  apply IH; assumption.
Qed.

(** The verdict of a list that holds one device pattern. *)
Lemma classify_one_device :
  forall (E : Pcre) (r : ignore_t) (sts dir : estat),
    type r = PT_DEVICE ->
    parent sts = Some dir ->
    ftype sts = FT_OTHER ->
    classify [r] sts
    = Ok (if ign_test 0 r sts dir =? 0
          then (if is_ignore r then Ignored else Taken)
          else Unclassified).
Proof.
  intros E r sts dir Hty Hp Hf. unfold classify, ign__is_ignore.
  rewrite Hp, Hf. cbn [ign_scan]. rewrite Hty.
  destruct (ign_test 0 r sts dir =? 0); [|reflexivity].
  destruct (is_ignore r); reflexivity.
Qed.

(** What the three device patterns of the documentation test. *)
Lemma device_three_tests :
  (forall status sts dir,
      ign_test status (rule_of "DEVICE:3") sts dir = 0
      <-> MAJOR (relevant_device sts dir) = 3)
  /\ (forall status sts dir,
        ign_test status (rule_of "DEVICE:<3") sts dir = 0
        <-> MAJOR (relevant_device sts dir) < 3)
  /\ (forall status sts dir,
        ign_test status (rule_of "DEVICE:3:1") sts dir = 0
        <-> MAJOR (relevant_device sts dir) = 3
            /\ MINOR (relevant_device sts dir) = 1).
Proof.
  assert (Hd : forall sts dir,
             st_dev (if S_ISDIR (st_mode (st sts)) then st dir else st sts)
             = relevant_device sts dir).
  { intros sts dir. unfold relevant_device.
    destruct (S_ISDIR (st_mode (st sts))); reflexivity. }
  split; [|split]; intros status sts dir.
  - set (r := rule_of "DEVICE:3"). vm_compute in r. subst r.
    unfold ign_test, ign___compare_dev. cbn -[Z.ltb Z.eqb Z.leb].
    rewrite Hd. set (mj := MAJOR (relevant_device sts dir)).
    destruct (3 <? mj) eqn:H1; [cbn; split; [discriminate|lia]|].
    destruct (mj <? 3) eqn:H2; cbn; split; try discriminate; try reflexivity;
      lia.
  - set (r := rule_of "DEVICE:<3"). vm_compute in r. subst r.
    unfold ign_test, ign___compare_dev. cbn -[Z.ltb Z.eqb Z.leb].
    rewrite Hd. set (mj := MAJOR (relevant_device sts dir)).
    destruct (3 <? mj) eqn:H1; [cbn; split; [discriminate|lia]|].
    destruct (mj <? 3) eqn:H2; cbn; split; try discriminate; try reflexivity;
      lia.
  - set (r := rule_of "DEVICE:3:1"). vm_compute in r. subst r.
    unfold ign_test, ign___compare_dev. cbn -[Z.ltb Z.eqb Z.leb].
    rewrite Hd. set (mj := MAJOR (relevant_device sts dir)).
    set (mn := MINOR (relevant_device sts dir)).
    destruct (3 <? mj) eqn:H1; [cbn; split; [discriminate|lia]|].
    destruct (mj <? 3) eqn:H2; [cbn; split; [discriminate|lia]|].
    destruct (1 <? mn) eqn:H3; [cbn; split; [discriminate|lia]|].
    destruct (mn <? 1) eqn:H4; cbn; split; try discriminate; try reflexivity;
      lia.
Qed.

(** C5: the verdict that a list of device patterns gives rests on one
    device only: the device of the parent when the entry is a directory,
    the device of the entry itself otherwise.  Two directories below
    parents on the same device get the same verdict whatever their own
    devices are, and two other entries on the same device get the same
    verdict whatever the devices of their parents are.  With the list
    that holds [DEVICE:3] an entry is Ignored exactly when the major
    number of that device is 3, whatever the minor; with [DEVICE:<3]
    exactly when the major number is below 3; with [DEVICE:3:1] exactly
    for major 3, minor 1; every other entry is left unclassified.  The
    take pattern [tDEVICE:3] gives Taken in the place of Ignored. *)
Theorem device_patterns :
  (forall (E : Pcre) (ilist : list ignore_t) (sts dir sts' dir' : estat),
      Forall (fun r => type r = PT_DEVICE) ilist ->
      parent sts = Some dir -> ftype sts = FT_OTHER ->
      parent sts' = Some dir' -> ftype sts' = FT_OTHER ->
      relevant_device sts dir = relevant_device sts' dir' ->
      classify ilist sts = classify ilist sts')
  /\ (forall (E : Pcre) (ilist : list ignore_t) (sts dir sts' dir' : estat),
         Forall (fun r => type r = PT_DEVICE) ilist ->
         parent sts = Some dir -> ftype sts = FT_OTHER ->
         parent sts' = Some dir' -> ftype sts' = FT_OTHER ->
         S_ISDIR (st_mode (st sts)) = true ->
         S_ISDIR (st_mode (st sts')) = true ->
         st_dev (st dir) = st_dev (st dir') ->
         classify ilist sts = classify ilist sts')
  /\ (forall (E : Pcre) (ilist : list ignore_t) (sts dir sts' dir' : estat),
         Forall (fun r => type r = PT_DEVICE) ilist ->
         parent sts = Some dir -> ftype sts = FT_OTHER ->
         parent sts' = Some dir' -> ftype sts' = FT_OTHER ->
         S_ISDIR (st_mode (st sts)) = false ->
         S_ISDIR (st_mode (st sts')) = false ->
         st_dev (st sts) = st_dev (st sts') ->
         classify ilist sts = classify ilist sts')
  /\ (forall sts dir,
        (S_ISDIR (st_mode (st sts)) = true ->
         relevant_device sts dir = st_dev (st dir))
        /\ (S_ISDIR (st_mode (st sts)) = false ->
            relevant_device sts dir = st_dev (st sts)))
  /\ (forall sts dir,
        parent sts = Some dir -> ftype sts = FT_OTHER ->
        classify [rule_of "DEVICE:3"] sts
        = Ok (if MAJOR (relevant_device sts dir) =? 3
              then Ignored else Unclassified))
  /\ (forall sts dir,
        parent sts = Some dir -> ftype sts = FT_OTHER ->
        classify [rule_of "tDEVICE:3"] sts
        = Ok (if MAJOR (relevant_device sts dir) =? 3
              then Taken else Unclassified))
  /\ (forall sts dir,
        parent sts = Some dir -> ftype sts = FT_OTHER ->
        classify [rule_of "DEVICE:<3"] sts
        = Ok (if MAJOR (relevant_device sts dir) <? 3
              then Ignored else Unclassified))
  /\ (forall sts dir,
        parent sts = Some dir -> ftype sts = FT_OTHER ->
        classify [rule_of "DEVICE:3:1"] sts
        = Ok (if (MAJOR (relevant_device sts dir) =? 3)
                 && (MINOR (relevant_device sts dir) =? 1)
              then Ignored else Unclassified))
  /\ (forall status sts dir,
        ign_test status (rule_of "DEVICE:3") sts dir = 0
        <-> MAJOR (relevant_device sts dir) = 3)
  /\ (forall status sts dir,
        ign_test status (rule_of "DEVICE:<3") sts dir = 0
        <-> MAJOR (relevant_device sts dir) < 3)
  /\ (forall status sts dir,
        ign_test status (rule_of "DEVICE:3:1") sts dir = 0
        <-> MAJOR (relevant_device sts dir) = 3
            /\ MINOR (relevant_device sts dir) = 1).
Proof.
  assert (HA : forall (E : Pcre) (ilist : list ignore_t)
                      (sts dir sts' dir' : estat),
             Forall (fun r => type r = PT_DEVICE) ilist ->
             parent sts = Some dir -> ftype sts = FT_OTHER ->
             parent sts' = Some dir' -> ftype sts' = FT_OTHER ->
             relevant_device sts dir = relevant_device sts' dir' ->
             classify ilist sts = classify ilist sts').
  { intros E ilist sts dir sts' dir' Hty Hp Hf Hp' Hf' Hrel.
    unfold classify, ign__is_ignore. rewrite Hp, Hf, Hp', Hf'.
    now rewrite (device_scan_relevant E ilist 0 sts dir sts' dir' Hty Hrel). }
  destruct device_three_tests as (T3 & Tlt & T31).
  split; [exact HA|].
  split.
  { intros E ilist sts dir sts' dir' Hty Hp Hf Hp' Hf' Hd Hd' Hdev.
    apply (HA E ilist sts dir sts' dir'); try assumption.
    unfold relevant_device. now rewrite Hd, Hd'. }
  split.
  { intros E ilist sts dir sts' dir' Hty Hp Hf Hp' Hf' Hd Hd' Hdev.
    apply (HA E ilist sts dir sts' dir'); try assumption.
    unfold relevant_device. now rewrite Hd, Hd'. }
  split.
  { intros sts dir. unfold relevant_device.
    split; intros ->; reflexivity. }
  split.
  { intros sts dir Hp Hf.
    rewrite (classify_one_device PcreFragment (rule_of "DEVICE:3") sts dir
               eq_refl Hp Hf).
    change (is_ignore (rule_of "DEVICE:3")) with true. cbv iota.
    pose proof (T3 0 sts dir) as H.
    destruct (ign_test 0 (rule_of "DEVICE:3") sts dir =? 0) eqn:Ht.
    - apply Z.eqb_eq in Ht. apply H in Ht.
      apply Z.eqb_eq in Ht. now rewrite Ht.
    - destruct (MAJOR (relevant_device sts dir) =? 3) eqn:Hm; [|reflexivity].
      apply Z.eqb_eq in Hm. apply H in Hm. apply Z.eqb_neq in Ht.
      contradiction. }
  split.
  { intros sts dir Hp Hf.
    rewrite (classify_one_device PcreFragment (rule_of "tDEVICE:3") sts dir
               eq_refl Hp Hf).
    change (is_ignore (rule_of "tDEVICE:3")) with false. cbv iota.
    assert (Hsame : ign_test 0 (rule_of "tDEVICE:3") sts dir
                    = ign_test 0 (rule_of "DEVICE:3") sts dir) by reflexivity.
    rewrite Hsame.
    pose proof (T3 0 sts dir) as H.
    destruct (ign_test 0 (rule_of "DEVICE:3") sts dir =? 0) eqn:Ht.
    - apply Z.eqb_eq in Ht. apply H in Ht.
      apply Z.eqb_eq in Ht. now rewrite Ht.
    - destruct (MAJOR (relevant_device sts dir) =? 3) eqn:Hm; [|reflexivity].
      apply Z.eqb_eq in Hm. apply H in Hm. apply Z.eqb_neq in Ht.
      contradiction. }
  split.
  { intros sts dir Hp Hf.
    rewrite (classify_one_device PcreFragment (rule_of "DEVICE:<3") sts dir
               eq_refl Hp Hf).
    change (is_ignore (rule_of "DEVICE:<3")) with true. cbv iota.
    pose proof (Tlt 0 sts dir) as H.
    destruct (ign_test 0 (rule_of "DEVICE:<3") sts dir =? 0) eqn:Ht.
    - apply Z.eqb_eq in Ht. apply H in Ht.
      apply Z.ltb_lt in Ht. now rewrite Ht.
    - destruct (MAJOR (relevant_device sts dir) <? 3) eqn:Hm; [|reflexivity].
      apply Z.ltb_lt in Hm. apply H in Hm. apply Z.eqb_neq in Ht.
      contradiction. }
  split.
  { intros sts dir Hp Hf.
    rewrite (classify_one_device PcreFragment (rule_of "DEVICE:3:1") sts dir
               eq_refl Hp Hf).
    change (is_ignore (rule_of "DEVICE:3:1")) with true. cbv iota.
    pose proof (T31 0 sts dir) as H.
    destruct (ign_test 0 (rule_of "DEVICE:3:1") sts dir =? 0) eqn:Ht.
    - apply Z.eqb_eq in Ht. apply H in Ht. destruct Ht as [H1 H2].
      apply Z.eqb_eq in H1, H2. now rewrite H1, H2.
    - destruct ((MAJOR (relevant_device sts dir) =? 3)
                && (MINOR (relevant_device sts dir) =? 1)) eqn:Hm;
        [|reflexivity].
      apply andb_true_iff in Hm. destruct Hm as [H1 H2].
      apply Z.eqb_eq in H1, H2. apply Z.eqb_neq in Ht.
      exfalso. apply Ht. apply H. split; assumption. }
  split; [exact T3|]. split; [exact Tlt|exact T31].
Qed.

Lemma device_patterns_witness :
  classify [rule_of "DEVICE:3"]
           {| path := "./mnt"; ftype := FT_OTHER;
              st := {| st_mode := 16877; st_dev := MKDEV 9 9;
                       st_ino := 43 |};
              parent := Some {| path := "."; ftype := FT_OTHER;
                                parent := None;
                                st := {| st_mode := 16877;
                                         st_dev := MKDEV 3 7;
                                         st_ino := 2 |} |} |}
  = Ok Ignored.
Proof.
  exact (proj1 (proj2 (proj2 (proj2 (proj2 device_patterns))))
               {| path := "./mnt"; ftype := FT_OTHER;
                  st := {| st_mode := 16877; st_dev := MKDEV 9 9;
                           st_ino := 43 |};
                  parent := Some {| path := "."; ftype := FT_OTHER;
                                    parent := None;
                                    st := {| st_mode := 16877;
                                             st_dev := MKDEV 3 7;
                                             st_ino := 2 |} |} |}
               {| path := "."; ftype := FT_OTHER; parent := None;
                  st := {| st_mode := 16877; st_dev := MKDEV 3 7;
                           st_ino := 2 |} |}
               eq_refl eq_refl).
Defined.

(** ** The translator always ends *)

Lemma strlen_app : forall a b, strlen (a ++ b) = strlen a + strlen b.
Proof.
  intros a b. unfold strlen.
  induction a as [|c a IH]; simpl String.length.
  - simpl. lia.
  - simpl append. simpl String.length. lia.
Qed.

Lemma strlen_cons : forall c s, strlen (String c s) = strlen s + 1.
Proof. intros c s. unfold strlen. simpl String.length. lia. Qed.

Lemma strlen_nonneg : forall s, 0 <= strlen s.
Proof. intros s. unfold strlen. lia. Qed.

Lemma append_assoc : forall a b c : string, (a ++ b) ++ c = a ++ (b ++ c).
Proof.
  intros a b c. induction a as [|x a IH]; simpl; [reflexivity|].
  now rewrite IH.
Qed.

Lemma append_nil_r : forall a : string, a ++ "" = a.
Proof.
  intros a. induction a as [|x a IH]; simpl; [reflexivity|]. now rewrite IH.
Qed.

Lemma skip_stars_length :
  forall s, (String.length (skip_stars s) <= String.length s)%nat.
Proof.
  intros s. induction s as [|c s IH]; simpl; [lia|].
  destruct (c =? "*")%char; simpl; lia.
Qed.

Lemma bracket_loop_ok :
  forall src len pos bs dest,
    strlen dest + strlen src + 5 <= len ->
    exists s d,
      bracket_loop len pos bs src dest = Ok (s, d)
      /\ strlen d + strlen s = strlen dest + strlen src
      /\ (String.length s <= String.length src)%nat.
Proof.
  intros src. induction src as [|c src IH]; intros len pos bs dest Hlen.
  - exists "", dest. simpl. repeat split; lia.
  - simpl bracket_loop.
    destruct (if bs then (pos, false, c)
              else if (pos =? 0) && ((c =? "!")%char || (c =? "^")%char)
                   then (pos, false, "^"%char)
                   else (if (c =? "]")%char && (0 <? pos) then -1 else pos + 1,
                         (c =? "\")%char, c)) as [[pos' bs'] out].
    assert (Hd : strlen (dest ++ chr out) = strlen dest + 1).
    { rewrite strlen_app. reflexivity. }
    rewrite strlen_cons in Hlen.
    destruct (len - strlen (dest ++ chr out) <? 5) eqn:Hsp.
    { apply Z.ltb_lt in Hsp. pose proof (strlen_nonneg src). lia. }
    destruct (0 <=? pos').
    + destruct (IH len pos' bs' (dest ++ chr out)) as (s & d & H1 & H2 & H3).
      { lia. }
      exists s, d. rewrite H1. rewrite strlen_cons.
      repeat split; simpl String.length; lia.
    + exists src, (dest ++ chr out). rewrite strlen_cons.
      repeat split; simpl String.length; lia.
Qed.

Lemma bracket_loop_first :
  forall len src' dest,
    bracket_loop len (-1) false (String "[" src') dest
    = if len - strlen (dest ++ "[") <? 5 then Err ENOSPC
      else bracket_loop len 0 false src' (dest ++ "[").
Proof. reflexivity. Qed.

Lemma shell_body_ok :
  forall len st c src',
    strlen (x_dest st) + 5 * strlen (String c src') + 11 <= len ->
    exists st',
      shell_body len st c src' = Ok st'
      /\ (String.length (x_src st') <= String.length src')%nat
      /\ strlen (x_dest st') + 5 * strlen (x_src st')
         <= strlen (x_dest st) + 5 * strlen (String c src')
      /\ (x_wildwild st = true -> x_wildwild st' = true).
Proof.
  intros len st c src' Hlen. unfold shell_body.
  pose proof (strlen_nonneg src') as Hn.
  rewrite strlen_cons in *.
  destruct (x_backslashed st).
  { eexists. split; [reflexivity|]. cbn [x_src x_dest x_wildwild]. rewrite strlen_app.
    change (strlen (chr c)) with 1. repeat split; auto; lia. }
  destruct (c =? "*")%char eqn:Hstar.
  { destruct (nth_char 1 (String c src') =? "*")%char.
    - eexists. split; [reflexivity|]. cbn [x_src x_dest x_wildwild].
      rewrite strlen_app. change (strlen ".*") with 2.
      pose proof (skip_stars_length (String c src')) as Hs.
      simpl skip_stars in *. rewrite Hstar in *.
      pose proof (skip_stars_length src') as Hs'.
      assert (strlen (skip_stars src') <= strlen src')
        by (unfold strlen; lia).
      repeat split; auto; lia.
    - eexists. split; [reflexivity|]. cbn [x_src x_dest x_wildwild]. rewrite strlen_app.
      change (strlen ("[^" ++ chr PATH_SEPARATOR ++ "]*")) with 5.
      repeat split; auto; lia. }
  destruct (c =? "?")%char.
  { eexists. split; [reflexivity|]. cbn [x_src x_dest x_wildwild]. rewrite strlen_app.
    change (strlen ".") with 1. repeat split; auto; lia. }
  destruct (c =? "[")%char eqn:Hbr.
  { unfold ign___translate_bracketed_expr. rewrite Hbr.
    apply Ascii.eqb_eq in Hbr. subst c.
    destruct (bracket_loop_ok (String "[" src') len (-1) false (x_dest st))
      as (s & d & H1 & H2 & H3).
    { rewrite strlen_cons. lia. }
    rewrite H1.
    (* the first pass reads the bracket itself *)
    assert (Hlt : (String.length s <= String.length src')%nat).
    { rewrite bracket_loop_first in H1.
      destruct (len - strlen (x_dest st ++ "[") <? 5); [discriminate|].
      destruct (bracket_loop_ok src' len 0 false (x_dest st ++ "["))
        as (s1 & d1 & H4 & H5 & H6).
      { rewrite strlen_app. change (strlen "[") with 1. lia. }
      rewrite H4 in H1. injection H1 as <- <-. exact H6. }
    eexists. split; [reflexivity|]. cbn [x_src x_dest x_wildwild]. rewrite strlen_cons in H2.
    assert (strlen s <= strlen src') by (unfold strlen; lia).
    repeat split; auto; lia. }
  destruct (is_alnum c || (c =? "/")%char || (c =? "-")%char).
  { eexists. split; [reflexivity|]. cbn [x_src x_dest x_wildwild]. rewrite strlen_app.
    change (strlen (chr c)) with 1. repeat split; auto; lia. }
  destruct (c =? "\")%char.
  { eexists. split; [reflexivity|]. cbn [x_src x_dest x_wildwild]. rewrite strlen_app.
    change (strlen (chr c)) with 1. repeat split; auto; lia. }
  eexists. split; [reflexivity|]. cbn [x_src x_dest x_wildwild]. rewrite strlen_app.
  change (strlen ("\" ++ chr c)) with 2. repeat split; auto; lia.
Qed.

Lemma shell_loop_ok :
  forall fuel len st,
    x_src st <> "" ->
    (String.length (x_src st) <= fuel)%nat ->
    strlen (x_dest st) + 5 * strlen (x_src st) + 11 <= len ->
    exists st',
      shell_loop fuel len st = Ok st'
      /\ x_src st' = ""
      /\ (x_wildwild st = true -> x_wildwild st' = true).
Proof.
  intros fuel. induction fuel as [|fuel IH]; intros len st Hne Hfuel Hlen.
  - destruct (x_src st); [contradiction|simpl in Hfuel; lia].
  - simpl shell_loop. destruct (x_src st) as [|c src'] eqn:Hsrc;
      [contradiction|].
    destruct (shell_body_ok len st c src' Hlen) as (st1 & H1 & H2 & H3 & H4).
    rewrite H1. simpl bind.
    pose proof (strlen_nonneg (x_src st1)) as Hn.
    destruct (len - strlen (x_dest st1) <? 11) eqn:Hsp.
    { apply Z.ltb_lt in Hsp. lia. }
    destruct (x_src st1) as [|c1 s1] eqn:Hsrc1.
    + exists st1. auto.
    + destruct (IH len st1) as (st2 & H5 & H6 & H7).
      * rewrite Hsrc1. discriminate.
      * rewrite Hsrc1. simpl in Hfuel, H2. simpl. lia.
      * rewrite Hsrc1. lia.
      * exists st2. auto.
Qed.

(** ** Matching with translated patterns *)

Lemma rule_matches_compiled :
  forall text ign re p,
    ign___init_pattern_into (E := PcreFragment) text None = Ok ign ->
    compiled ign = Some re ->
    rule_matches text p = Some (Regex.exec re p =? 0).
Proof.
  intros text ign re p H1 H2. unfold rule_matches. rewrite H1, H2. reflexivity.
Qed.

Ltac compiled_rule text :=
  erewrite (rule_matches_compiled text);
  [ | vm_compute; reflexivity | vm_compute; reflexivity ];
  unfold Regex.exec; cbn [fst snd Regex.run].

(** [.*$] takes whatever is left of the subject. *)
Lemma star_any_end :
  forall caseless s,
    Regex.star caseless Regex.CAny
               (fun s0 => Regex.at_end s0 && true) s = true.
Proof.
  intros caseless s. induction s as [|c s IH].
  - reflexivity.
  - cbn [Regex.star Regex.cset_match]. rewrite IH. simpl.
    apply orb_true_r.
Qed.

(** [[^/]*$] takes what is left exactly when there is no separator in it. *)
Lemma star_no_separator_end :
  forall s,
    Regex.star false (Regex.CClass true [("/"%char, "/"%char)])
               (fun s0 => Regex.at_end s0 && true) s
    = negb (has_char "/" s).
Proof.
  intros s. induction s as [|c s IH].
  - reflexivity.
  - cbn [Regex.star]. rewrite IH. cbn [has_char].
    destruct (c =? "/")%char eqn:Hc.
    + apply Ascii.eqb_eq in Hc. subst c. simpl. destruct s; reflexivity.
    + replace (Regex.cset_match false
                 (Regex.CClass true [("/"%char, "/"%char)]) c) with true.
      2:{ unfold Regex.cset_match, existsb, Regex.in_item, in_range. simpl fst.
          simpl snd. rewrite andb_false_l, !orb_false_r.
          apply Ascii.eqb_neq in Hc.
          assert (Hne : code c <> code "/").
          { unfold code. intros Heq. apply Hc.
            apply Nat2Z.inj in Heq.
            rewrite <- (ascii_nat_embedding c), Heq.
            apply ascii_nat_embedding. }
          destruct (code "/" <=? code c) eqn:H1;
            destruct (code c <=? code "/") eqn:H2; try reflexivity.
          apply Z.leb_le in H1, H2. lia. }
      simpl. destruct (has_char "/" s) eqn:Hs.
      * simpl. rewrite orb_false_r.
        destruct s; [discriminate|reflexivity].
      * simpl. apply orb_true_r.
Qed.

(** ** The anchor *)

Lemma last_char_app :
  forall a b, b <> "" -> last_char (a ++ b) = last_char b.
Proof.
  intros a b Hb. induction a as [|c a IH]; [reflexivity|].
  simpl append. simpl last_char. rewrite IH.
  destruct (a ++ b) eqn:Hab; [|reflexivity].
  destruct a; simpl in Hab; [contradiction|discriminate].
Qed.

Lemma last_char_snoc : forall a c, last_char (a ++ chr c) = Some c.
Proof. intros a c. rewrite last_char_app; [reflexivity|discriminate]. Qed.

Lemma drop_last_spec :
  forall s c, last_char s = Some c -> s = drop_last s ++ chr c.
Proof.
  intros s c. induction s as [|a s IH]; intros H; [discriminate|].
  destruct s as [|b s].
  - simpl in H. injection H as ->. reflexivity.
  - change (last_char (String a (String b s))) with (last_char (String b s)) in H.
    change (drop_last (String a (String b s)))
      with (String a (drop_last (String b s))).
    simpl append. f_equal. apply IH. exact H.
Qed.

Lemma skip_stars_suffix : forall s, exists pre, s = pre ++ skip_stars s.
Proof.
  intros s. induction s as [|c s [pre IH]].
  - exists "". reflexivity.
  - simpl. destruct (c =? "*")%char.
    + exists (String c pre). simpl. now rewrite <- IH.
    + exists "". reflexivity.
Qed.

(** The bracket loop copies: what it leaves is the end of what it got, and
    a separator read last is written last. *)
Lemma bracket_loop_suffix :
  forall src len pos bs dest s d,
    bracket_loop len pos bs src dest = Ok (s, d) ->
    (exists pre, src = pre ++ s)
    /\ (src <> "" -> s = "" -> last_char src = Some "/"%char ->
        last_char d = Some "/"%char).
Proof.
  intros src. induction src as [|c src IH]; intros len pos bs dest s d H.
  - simpl in H. injection H as <- <-. split; [exists ""; reflexivity|].
    intros Hne. contradiction.
  - simpl in H.
    destruct (if bs then (pos, false, c)
              else if (pos =? 0) && ((c =? "!")%char || (c =? "^")%char)
                   then (pos, false, "^"%char)
                   else (if (c =? "]")%char && (0 <? pos) then -1 else pos + 1,
                         (c =? "\")%char, c)) as [[pos' bs'] out] eqn:Hstep.
    destruct (len - strlen (dest ++ chr out) <? 5); [discriminate|].
    assert (Hout : c = "/"%char -> out = "/"%char).
    { intros ->. destruct bs; [now inversion Hstep|].
      simpl in Hstep. rewrite andb_false_r in Hstep. now inversion Hstep. }
    destruct (0 <=? pos').
    + destruct (IH _ _ _ _ _ _ H) as [[pre Hpre] Hlast].
      split; [exists (String c pre); simpl; now rewrite <- Hpre|].
      intros _ Hs Hl. destruct src as [|b src].
      * simpl in H. injection H as <- <-. simpl in Hl. injection Hl as ->.
        rewrite (Hout eq_refl). apply last_char_snoc.
      * apply Hlast; [discriminate|exact Hs|exact Hl].
    + injection H as <- <-. split; [exists (chr c); reflexivity|].
      intros _ Hs Hl. subst src. simpl in Hl. injection Hl as ->.
      rewrite (Hout eq_refl). apply last_char_snoc.
Qed.

Lemma shell_body_suffix :
  forall len st c src' st',
    shell_body len st c src' = Ok st' ->
    (exists pre, String c src' = pre ++ x_src st')
    /\ (x_src st' = "" -> last_char (String c src') = Some "/"%char ->
        last_char (x_dest st') = Some "/"%char).
Proof.
  intros len st c src' st' H. unfold shell_body in H.
  assert (Hone : forall bs w d,
             st' = {| x_backslashed := bs; x_wildwild := w;
                      x_src := src'; x_dest := d |} ->
             (c = "/"%char -> last_char d = Some "/"%char) ->
             (exists pre, String c src' = pre ++ x_src st')
             /\ (x_src st' = "" -> last_char (String c src') = Some "/"%char ->
                 last_char (x_dest st') = Some "/"%char)).
  { intros bs w d -> Hd. simpl. split; [exists (chr c); reflexivity|].
    intros -> Hl. injection Hl as ->. now apply Hd. }
  destruct (x_backslashed st).
  { injection H as <-. eapply Hone; [reflexivity|].
    intros ->. apply last_char_snoc. }
  destruct (c =? "*")%char eqn:Hstar.
  { apply Ascii.eqb_eq in Hstar. subst c.
    destruct (nth_char 1 (String "*" src') =? "*")%char.
    - injection H as <-. simpl x_src. simpl x_dest. split.
      + destruct (skip_stars_suffix src') as [pre Hpre].
        exists (String "*" pre). simpl. now rewrite <- Hpre.
      + intros Hs Hl. exfalso.
        assert (Hall : forall s, skip_stars s = "" ->
                                 last_char (String "*" s) = Some "/"%char ->
                                 False).
        { clear. intros s. induction s as [|b s IH]; intros H1 H2.
          - discriminate.
          - simpl in H1. destruct (b =? "*")%char eqn:Hb; [|discriminate].
            apply Ascii.eqb_eq in Hb. subst b. apply IH; [exact H1|exact H2]. }
        exact (Hall src' Hs Hl).
    - injection H as <-. eapply Hone; [reflexivity|]. discriminate. }
  destruct (c =? "?")%char eqn:Hq.
  { injection H as <-. eapply Hone; [reflexivity|].
    intros ->. discriminate. }
  destruct (c =? "[")%char eqn:Hbr.
  { unfold ign___translate_bracketed_expr in H. rewrite Hbr in H.
    destruct (bracket_loop len (-1) false (String c src') (x_dest st))
      as [[s d]|e|] eqn:Hb; try discriminate.
    injection H as <-. simpl.
    destruct (bracket_loop_suffix _ _ _ _ _ _ _ Hb) as [Hpre Hlast].
    split; [exact Hpre|]. intros Hs Hl. apply Hlast; [discriminate|auto|auto]. }
  destruct (is_alnum c || (c =? "/")%char || (c =? "-")%char) eqn:Hcl.
  { injection H as <-. eapply Hone; [reflexivity|].
    intros ->. apply last_char_snoc. }
  destruct (c =? "\")%char eqn:Hbs.
  { injection H as <-. eapply Hone; [reflexivity|].
    intros ->. discriminate. }
  injection H as <-. eapply Hone; [reflexivity|].
  intros ->. discriminate.
Qed.

Lemma shell_loop_last_sep :
  forall fuel len st st',
    shell_loop fuel len st = Ok st' ->
    last_char (x_src st) = Some PATH_SEPARATOR ->
    last_char (x_dest st') = Some PATH_SEPARATOR.
Proof.
  intros fuel. induction fuel as [|fuel IH]; intros len st st' H Hl.
  - discriminate.
  - simpl in H. destruct (x_src st) as [|c src'] eqn:Hsrc; [discriminate|].
    destruct (shell_body len st c src') as [st1| |] eqn:Hb; try discriminate.
    simpl in H.
    destruct (len - strlen (x_dest st1) <? 11); [discriminate|].
    destruct (shell_body_suffix _ _ _ _ _ Hb) as [[pre Hpre] Hlast].
    destruct (x_src st1) as [|c1 s1] eqn:Hs1.
    + injection H as <-. apply Hlast; [reflexivity|exact Hl].
    + apply (IH len st1 st' H). rewrite Hs1.
      rewrite Hpre in Hl. rewrite last_char_app in Hl; [exact Hl|discriminate].
Qed.

(** The anchor for every pattern: the translation always ends (in a buffer
    of the size that the code allocates), and the text that is compiled is
    the translation followed by [$], or, when the pattern ends with the
    separator, the translation with [($|/)] in the place of this last
    separator. *)
Lemma anchor_of_pattern :
  forall pat p,
    p <> "" ->
    (String.length p <= String.length pat)%nat ->
    exists st,
      shell_loop (String.length p) (strlen pat * 5 + 16)
                 {| x_backslashed := false; x_wildwild := false;
                    x_src := p; x_dest := "" |} = Ok st
      /\ (last_char p <> Some PATH_SEPARATOR ->
          shell_to_pcre pat p = Ok (x_wildwild st, x_dest st ++ "$"))
      /\ (last_char p = Some PATH_SEPARATOR ->
          exists body,
            x_dest st = body ++ chr PATH_SEPARATOR
            /\ shell_to_pcre pat p = Ok (x_wildwild st, body ++ "($|/)")).
Proof.
  intros pat p Hne Hlen.
  destruct (shell_loop_ok (String.length p) (strlen pat * 5 + 16)
              {| x_backslashed := false; x_wildwild := false;
                 x_src := p; x_dest := "" |}) as (st & H1 & H2 & H3).
  - exact Hne.
  - simpl. lia.
  - cbn [x_src x_dest]. unfold strlen. simpl String.length. lia.
  - exists st. split; [exact H1|]. unfold shell_to_pcre. rewrite H1.
    cbn [bind]. unfold anchor. split.
    + intros Hl. destruct (last_char p) as [c|]; [|reflexivity].
      destruct (c =? PATH_SEPARATOR)%char eqn:Hc; [|reflexivity].
      apply Ascii.eqb_eq in Hc. subst c. contradiction.
    + intros Hl. rewrite Hl. rewrite Ascii.eqb_refl.
      exists (drop_last (x_dest st)). split; [|reflexivity].
      apply drop_last_spec.
      apply (shell_loop_last_sep _ _ _ _ H1). exact Hl.
Qed.

(** What the translator writes at the end: behind the translation of
    every shell pattern stands [$], or, when the last character of the
    pattern is the separator, [($|/)] in the place of this separator.  So
    [./a/] matches [./a] itself and every path below it (and not [./ab]),
    while [./a], without the separator, matches [./a] and no path below
    it. *)
Theorem end_anchor :
  (forall pat p,
      p <> "" ->
      (String.length p <= String.length pat)%nat ->
      exists st,
        shell_loop (String.length p) (strlen pat * 5 + 16)
                   {| x_backslashed := false; x_wildwild := false;
                      x_src := p; x_dest := "" |} = Ok st
        /\ (last_char p <> Some PATH_SEPARATOR ->
            shell_to_pcre pat p = Ok (x_wildwild st, x_dest st ++ "$"))
        /\ (last_char p = Some PATH_SEPARATOR ->
            exists body,
              x_dest st = body ++ chr PATH_SEPARATOR
              /\ shell_to_pcre pat p = Ok (x_wildwild st, body ++ "($|/)")))
  /\ shell_to_pcre "./a/" "./a/" = Ok (false, "\./a($|/)")
  /\ shell_to_pcre "./a" "./a" = Ok (false, "\./a$")
  /\ rule_matches "./a/" "./a" = Some true
  /\ (forall rest, rule_matches "./a/" ("./a/" ++ rest) = Some true)
  /\ rule_matches "./a/" "./ab" = Some false
  /\ rule_matches "./a" "./a" = Some true
  /\ (forall rest, rule_matches "./a" ("./a/" ++ rest) = Some false).
Proof.
  split; [exact anchor_of_pattern|].
  split; [vm_compute; reflexivity|].
  split; [vm_compute; reflexivity|].
  split; [vm_compute; reflexivity|].
  split.
  { intros rest. compiled_rule "./a/". cbn. destruct rest; reflexivity. }
  split; [vm_compute; reflexivity|].
  split; [vm_compute; reflexivity|].
  intros rest. compiled_rule "./a". cbn. destruct rest; reflexivity.
Qed.

Lemma end_anchor_witness :
  exists st,
    shell_loop 5 (strlen "t./a/" * 5 + 16)
               {| x_backslashed := false; x_wildwild := false;
                  x_src := "./a/"; x_dest := "" |} = Ok st
    /\ (last_char "./a/" <> Some PATH_SEPARATOR ->
        shell_to_pcre "t./a/" "./a/" = Ok (x_wildwild st, x_dest st ++ "$"))
    /\ (last_char "./a/" = Some PATH_SEPARATOR ->
        exists body,
          x_dest st = body ++ chr PATH_SEPARATOR
          /\ shell_to_pcre "t./a/" "./a/"
             = Ok (x_wildwild st, body ++ "($|/)")).
Proof.
  apply (proj1 end_anchor "t./a/" "./a/"); [discriminate|simpl; lia].
Defined.

(** What [$] accepts: the pattern [./a] matches the path [./a], the same
    path with one newline at its end, and nothing else. *)
Lemma exact_name_up_to_final_newline :
  forall s,
    rule_matches "./a" s = Some true <-> s = "./a" \/ s = "./a" ++ chr LF.
Proof.
  intros s. compiled_rule "./a". split.
  - intros H.
    assert (Hs : forall b, Some b = Some true -> b = true)
      by (intros b Hb; congruence).
    apply Hs in H. clear Hs.
    destruct s as [|c1 s]; [discriminate|]. cbn -[Ascii.eqb] in H.
    destruct (Ascii.eqb_spec "." c1) as [<-|]; [|discriminate].
    destruct s as [|c2 s]; [discriminate|]. cbn -[Ascii.eqb] in H.
    destruct (Ascii.eqb_spec "/" c2) as [<-|]; [|discriminate].
    destruct s as [|c3 s]; [discriminate|]. cbn -[Ascii.eqb] in H.
    destruct (Ascii.eqb_spec "a" c3) as [<-|]; [|discriminate].
    destruct s as [|c4 s]; [now left|]. right.
    destruct s as [|c5 s]; [|discriminate]. cbn -[Ascii.eqb] in H.
    destruct (Ascii.eqb_spec c4 LF) as [Heq|]; [|discriminate].
    rewrite Heq. reflexivity.
  - intros [->| ->]; reflexivity.
Qed.

(** C3 (the code at the failing inputs): the [$] that the translator
    writes is no anchor at the end of the path in two cases.  The library
    lets [$] hold before a newline that ends the subject, so the pattern
    [./a] matches the entry whose name is [a] with a newline behind it,
    and this entry is Ignored.  A backslash that ends the pattern is
    copied, and escapes the [$] that is written behind it: [./a\] gives
    [\./a\$], a literal dollar sign and no anchor, and matches paths that
    go on below [./a$]. *)
Theorem final_newline_passes_the_anchor :
  shell_to_pcre "./a" "./a" = Ok (false, "\./a$")
  /\ rule_matches "./a" ("./a" ++ chr LF) = Some true
  /\ classify [rule_of "./a"] (file_entry_at ("./a" ++ chr LF) (MKDEV 8 1))
     = Ok Ignored
  /\ shell_to_pcre "./a\" "./a\" = Ok (false, "\./a\$")
  /\ rule_matches "./a\" "./a$/b/c" = Some true
  /\ classify [rule_of "./a\"] (file_entry_at "./a$/b/c" (MKDEV 8 1))
     = Ok Ignored.
Proof. repeat split; vm_compute; reflexivity. Qed.

(** ** Bracket expressions *)

Lemma bracket_negations_length :
  forall s,
    strlen (fst (bracket_negations s)) + strlen (snd (bracket_negations s))
    = strlen s.
Proof.
  intros s. induction s as [|c s IH]; [reflexivity|].
  simpl. destruct (is_negation c); [|reflexivity].
  destruct (bracket_negations s) as [o r]. simpl fst in *. simpl snd in *.
  rewrite !strlen_cons. lia.
Qed.

Lemma bracket_negations_stop :
  forall s,
    match snd (bracket_negations s) with
    | String c _ => is_negation c = false
    | "" => True
    end.
Proof.
  intros s. induction s as [|c s IH]; [exact I|].
  simpl. destruct (is_negation c) eqn:Hc; [|exact Hc].
  destruct (bracket_negations s) as [o r]. exact IH.
Qed.

(** The passes over the negation marks. *)
Lemma bracket_loop_negations :
  forall s len dest,
    strlen dest + strlen s + 5 <= len ->
    bracket_loop len 0 false s dest
    = bracket_loop len 0 false (snd (bracket_negations s))
                   (dest ++ fst (bracket_negations s)).
Proof.
  intros s. induction s as [|c s IH]; intros len dest Hlen.
  - simpl. now rewrite append_nil_r.
  - simpl bracket_negations. unfold is_negation.
    destruct ((c =? "!")%char || (c =? "^")%char) eqn:Hc.
    + destruct (bracket_negations s) as [o r] eqn:Hn.
      simpl fst. simpl snd. simpl bracket_loop. rewrite Hc. simpl.
      unfold chr.
      rewrite strlen_cons in Hlen. pose proof (strlen_nonneg s).
      assert (Hd : strlen (dest ++ "^") = strlen dest + 1)
        by (rewrite strlen_app; reflexivity).
      destruct (len - strlen (dest ++ "^") <? 5) eqn:Hsp;
        [apply Z.ltb_lt in Hsp; lia|].
      rewrite IH by lia. simpl fst. simpl snd.
      rewrite append_assoc. reflexivity.
    + simpl fst. simpl snd. now rewrite append_nil_r.
Qed.

(** The passes over the content. *)
Lemma bracket_loop_content :
  forall (n : nat) (s : string) (len pos : Z) (dest : string) (first : bool),
    (String.length s <= n)%nat ->
    strlen dest + strlen s + 5 <= len ->
    (if first
     then pos = 0 /\ match s with
                     | String c _ => is_negation c = false
                     | "" => True
                     end
     else 0 < pos) ->
    bracket_loop len pos false s dest
    = Ok (snd (bracket_content first s), dest ++ fst (bracket_content first s)).
Proof.
  intros n. induction n as [|n IH]; intros s len pos dest first Hn Hlen Hpos.
  - destruct s; [|simpl in Hn; lia]. simpl. now rewrite append_nil_r.
  - destruct s as [|c s]; [simpl; now rewrite append_nil_r|].
    rewrite strlen_cons in Hlen. pose proof (strlen_nonneg s) as Hs.
    assert (Hneg : (pos =? 0) && ((c =? "!")%char || (c =? "^")%char) = false).
    { destruct first.
      - destruct Hpos as [_ Hc]. unfold is_negation in Hc. rewrite Hc.
        apply andb_false_r.
      - replace (pos =? 0) with false; [reflexivity|].
        symmetry. apply Z.eqb_neq. lia. }
    assert (Hclose : (0 <? pos) = negb first).
    { destruct first; simpl.
      - destruct Hpos as [-> _]. reflexivity.
      - apply Z.ltb_lt. exact Hpos. }
    assert (Hd : forall x, strlen (dest ++ String x "") = strlen dest + 1)
      by (intros x; rewrite strlen_app; reflexivity).
    simpl bracket_loop. rewrite Hneg. rewrite Hclose.
    cbv beta iota. unfold chr. rewrite Hd.
    destruct (len - (strlen dest + 1) <? 5) eqn:Hsp;
      [apply Z.ltb_lt in Hsp; lia|].
    simpl bracket_content.
    destruct (c =? "\")%char eqn:Hbs.
    + (* a backslash and the character behind it *)
      assert (Hc : (c =? "]")%char = false).
      { apply Ascii.eqb_eq in Hbs. subst c. reflexivity. }
      rewrite Hc. simpl andb. cbv iota.
      replace (0 <=? pos + 1) with true
        by (symmetry; apply Z.leb_le; destruct first; lia).
      destruct s as [|e s].
      * simpl. reflexivity.
      * simpl bracket_loop.
        rewrite strlen_cons in Hlen, Hs.
        pose proof (strlen_nonneg s) as Hs'.
        assert (Hd2 : strlen ((dest ++ String c "") ++ String e "")
                      = strlen dest + 2)
          by (rewrite !strlen_app, !strlen_cons; simpl; lia).
        unfold chr. rewrite Hd2.
        destruct (len - (strlen dest + 2) <? 5) eqn:Hsp2;
          [apply Z.ltb_lt in Hsp2; lia|].
        replace (0 <=? pos + 1) with true
          by (symmetry; apply Z.leb_le; destruct first; lia).
        rewrite (IH s len (pos + 1)
                    ((dest ++ String c "") ++ String e "") false).
        -- destruct (bracket_content false s) as [o r]. simpl fst. simpl snd.
           rewrite !append_assoc. reflexivity.
        -- simpl in Hn. lia.
        -- lia.
        -- destruct first; lia.
    + destruct ((c =? "]")%char && negb first) eqn:Hcl.
      * (* the closing bracket *)
        simpl. reflexivity.
      * replace (0 <=? pos + 1) with true
          by (symmetry; apply Z.leb_le; destruct first; lia).
        rewrite (IH s len (pos + 1) (dest ++ String c "") false).
        -- destruct (bracket_content false s) as [o r]. simpl fst. simpl snd.
           rewrite !append_assoc. reflexivity.
        -- simpl in Hn. lia.
        -- rewrite Hd. lia.
        -- destruct first; lia.
Qed.

(** The translation of a bracket expression is [bracket_spec], for every
    text behind the opening bracket and a buffer with room for it. *)
Lemma bracket_expr_spec :
  forall rest len dest,
    strlen dest + strlen rest + 6 <= len ->
    ign___translate_bracketed_expr len (String "[" rest) dest
    = Ok (snd (bracket_spec rest), dest ++ "[" ++ fst (bracket_spec rest)).
Proof.
  intros rest len dest Hlen.
  unfold ign___translate_bracketed_expr. simpl Ascii.eqb. cbv iota.
  rewrite bracket_loop_first.
  assert (Hd : strlen (dest ++ "[") = strlen dest + 1)
    by (rewrite strlen_app; reflexivity).
  pose proof (strlen_nonneg rest) as Hr.
  rewrite Hd. destruct (len - (strlen dest + 1) <? 5) eqn:Hsp;
    [apply Z.ltb_lt in Hsp; lia|].
  rewrite bracket_loop_negations by lia.
  pose proof (bracket_negations_length rest) as Hnl.
  pose proof (bracket_negations_stop rest) as Hns.
  unfold bracket_spec.
  destruct (bracket_negations rest) as [o1 r1]. simpl fst in *. simpl snd in *.
  rewrite (bracket_loop_content (String.length r1) r1 len 0
             ((dest ++ "[") ++ o1) true).
  - destruct (bracket_content true r1) as [o2 r2]. simpl fst. simpl snd.
    rewrite !append_assoc. reflexivity.
  - lia.
  - rewrite !strlen_app. change (strlen "[") with 1. lia.
  - split; [reflexivity|exact Hns].
Qed.

(** C8: the translation of a bracket expression, for every text behind the
    opening bracket.  The negation marks at the first content position
    become carets and are no content; the content is copied up to the
    closing bracket, where a closing bracket that is the first content
    character, and any character behind a backslash, is copied as it is
    and does not close. *)
Theorem bracket_translation :
  (forall rest len dest,
      strlen dest + strlen rest + 6 <= len ->
      ign___translate_bracketed_expr len (String "[" rest) dest
      = Ok (snd (bracket_spec rest), dest ++ "[" ++ fst (bracket_spec rest)))
  /\ bracket_spec "!a-z]x" = ("^a-z]", "x")
  /\ bracket_spec "^a-z]x" = ("^a-z]", "x")
  /\ bracket_spec "]a]x" = ("]a]", "x")
  /\ bracket_spec "!]a]x" = ("^]a]", "x")
  /\ bracket_spec "a\]b]x" = ("a\]b]", "x")
  /\ bracket_spec "\]]x" = ("\]]", "x")
  /\ bracket_spec "a!^*?.]x" = ("a!^*?.]", "x").
Proof.
  split; [exact bracket_expr_spec|repeat split; reflexivity].
Qed.

Lemma bracket_translation_witness :
  ign___translate_bracketed_expr 40 "[!]a\]]x" "\./"
  = Ok ("x", "\./[^]a\]]").
Proof.
  apply (proj1 bracket_translation "!]a\]]x" 40 "\./"). vm_compute.
  discriminate.
Defined.

(** ** The parser *)

Section Parser.

Context {E : Pcre}.

Lemma skip_white_spec :
  forall p e o off raw,
    skip_white e o p = Ok (off, raw) ->
    off - o = strlen p - strlen raw /\ starts_space raw = false.
Proof.
  intros p. induction p as [|c p IH]; intros e o off raw H.
  - simpl in H. injection H as <- <-. split; [lia|reflexivity].
  - simpl in H. destruct (isspace c) eqn:Hc.
    + destruct (e <=? o + 1); [discriminate|].
      apply IH in H. rewrite strlen_cons. destruct H. split; [lia|assumption].
    + injection H as <- <-. split; [lia|exact Hc].
Qed.

Lemma skip_white_result :
  forall p e o,
    (exists off raw, skip_white e o p = Ok (off, raw))
    \/ skip_white e o p = Err EINVAL.
Proof.
  intros p. induction p as [|c p IH]; intros e o.
  - left. eexists _, _. reflexivity.
  - simpl. destruct (isspace c).
    + destruct (e <=? o + 1); [now right|apply IH].
    + left. eexists _, _. reflexivity.
Qed.

Lemma skip_white_nospace :
  forall p e o, starts_space p = false -> skip_white e o p = Ok (o, p).
Proof.
  intros [|c p] e o H; [reflexivity|]. simpl in *. now rewrite H.
Qed.

Lemma skip_white_shift :
  forall p e o,
    skip_white (e + 1) (o + 1) p
    = match skip_white e o p with
      | Ok (off, raw) => Ok (off + 1, raw)
      | Err x => Err x
      | Abort => Abort
      end.
Proof.
  intros p. induction p as [|c p IH]; intros e o; [reflexivity|].
  simpl. destruct (isspace c); [|reflexivity].
  replace (e + 1 <=? o + 1 + 1) with (e <=? o + 1).
  - destruct (e <=? o + 1); [reflexivity|apply IH].
  - destruct (e <=? o + 1) eqn:H1; symmetry;
      [apply Z.leb_le; apply Z.leb_le in H1
      |apply Z.leb_gt; apply Z.leb_gt in H1]; lia.
Qed.

Lemma modifiers_mono :
  forall s e o e' o' a b x,
    e - o <= e' - o' ->
    modifiers e o a b s = Ok x ->
    modifiers e' o' a b s = Ok x.
Proof.
  intros s. induction s as [|c s IH]; intros e o e' o' a b x Hle H.
  - exact H.
  - simpl in *.
    destruct (c =? "t")%char.
    + destruct (e <=? o + 1) eqn:H1; [discriminate|].
      apply Z.leb_gt in H1.
      replace (e' <=? o' + 1) with false by (symmetry; apply Z.leb_gt; lia).
      apply (IH e (o + 1)); [lia|exact H].
    + destruct (c =? "i")%char; [|exact H].
      destruct (e <=? o + 1) eqn:H1; [discriminate|].
      apply Z.leb_gt in H1.
      replace (e' <=? o' + 1) with false by (symmetry; apply Z.leb_gt; lia).
      apply (IH e (o + 1)); [lia|exact H].
Qed.

Lemma modifiers_shift :
  forall s e o a b,
    modifiers (e + 1) (o + 1) a b s = modifiers e o a b s.
Proof.
  intros s. induction s as [|c s IH]; intros e o a b; [reflexivity|].
  simpl.
  replace (e + 1 <=? o + 1 + 1) with (e <=? o + 1).
  - destruct (c =? "t")%char.
    + destruct (e <=? o + 1); [reflexivity|apply IH].
    + destruct (c =? "i")%char; [|reflexivity].
      destruct (e <=? o + 1); [reflexivity|apply IH].
  - destruct (e <=? o + 1) eqn:H1; symmetry;
      [apply Z.leb_le; apply Z.leb_le in H1
      |apply Z.leb_gt; apply Z.leb_gt in H1]; lia.
Qed.

Lemma modifiers_result :
  forall s e o a b,
    (exists a' b' p, modifiers e o a b s = Ok (a', b', p)
                     /\ strlen p <= strlen s)
    \/ modifiers e o a b s = Err EINVAL.
Proof.
  intros s. induction s as [|c s IH]; intros e o a b.
  - left. eexists _, _, _. split; [reflexivity|lia].
  - simpl. rewrite strlen_cons.
    assert (Hrec : forall o1 a1 b1,
               (exists a' b' p,
                   modifiers e o1 a1 b1 s = Ok (a', b', p)
                   /\ strlen p <= strlen s + 1)
               \/ modifiers e o1 a1 b1 s = Err EINVAL).
    { intros o1 a1 b1. destruct (IH e o1 a1 b1) as [(a' & b' & p & H1 & H2)|H1].
      - left. exists a', b', p. split; [exact H1|lia].
      - now right. }
    destruct (c =? "t")%char.
    + destruct (e <=? o + 1); [now right|apply Hrec].
    + destruct (c =? "i")%char.
      * destruct (e <=? o + 1); [now right|apply Hrec].
      * left. eexists _, _, _. split; [reflexivity|].
        rewrite strlen_cons. lia.
Qed.

Lemma number_colon_result :
  forall p, (exists x, number_colon p = Ok x) \/ number_colon p = Err EINVAL.
Proof.
  intros p. unfold number_colon.
  destruct (strtoul p) as [[v cp]|]; [|now right].
  destruct cp as [|c cp]; [now right|].
  destruct (c =? ":")%char; [left; eexists; reflexivity|now right].
Qed.

(** The parser returns: with a pattern that holds the text as it was
    given (behind the white space) and is no user pattern so far, or with
    [EINVAL]. *)
Lemma init_kind_result :
  forall raw ignore icase p,
    strlen p <= strlen raw ->
    (exists ign, init_kind raw ignore icase p = Ok ign
                 /\ pattern ign = raw /\ is_user_pat ign = false)
    \/ init_kind raw ignore icase p = Err EINVAL.
Proof.
  intros raw ignore icase p Hlen. unfold init_kind.
  assert (Hregex : forall ty q,
             (ty = PT_PCRE \/ (ty = PT_SHELL /\ q = p)) ->
             (exists ign, init_regex raw ignore icase ty q = Ok ign
                          /\ pattern ign = raw /\ is_user_pat ign = false)
             \/ init_regex raw ignore icase ty q = Err EINVAL).
  { intros ty q Hty. unfold init_regex.
    destruct (strlen q <? 3) eqn:H3; [now right|].
    apply Z.ltb_ge in H3.
    assert (Hx : exists hww dest,
               match ty with
               | PT_PCRE => Ok (false, q)
               | PT_SHELL => shell_to_pcre raw q
               | _ => Abort
               end = Ok (hww, dest)).
    { destruct Hty as [->|[-> ->]].
      - eexists _, _. reflexivity.
      - destruct (anchor_of_pattern raw p) as (st & _ & H4 & H5).
        + intros ->. unfold strlen in H3. simpl in H3. lia.
        + unfold strlen in Hlen. lia.
        + destruct (last_char p) as [c|] eqn:Hl.
          * destruct (Ascii.eqb_spec c PATH_SEPARATOR) as [->|Hne].
            -- destruct (H5 eq_refl) as (body & _ & H6).
               eexists _, _. exact H6.
            -- eexists _, _. apply H4. congruence.
          * eexists _, _. apply H4. discriminate. }
    destruct Hx as (hww & dest & Hx). unfold ign__compile_pattern.
    rewrite Hx. cbn [bind].
    destruct (pcre_compile dest icase) as [re|]; [|now right].
    destruct (pcre_study_err re); [now right|].
    left. eexists. split; [reflexivity|]. split; reflexivity. }
  destruct (strip_prefix "DEVICE:" p) as [rest|].
  { unfold init_device.
    destruct (comparators PAT_DEV__UNSPECIFIED rest) as [cmp0 p1].
    destruct (strtoul p1) as [[mj cp]|]; [|now right].
    destruct cp as [|c p2].
    - left. eexists. split; [reflexivity|]. split; reflexivity.
    - destruct (c =? ":")%char; [|now right]. simpl negb. cbv iota.
      destruct (strtoul p2) as [[mn cp']|]; [|now right].
      destruct cp'; [|now right].
      left. eexists. split; [reflexivity|]. split; reflexivity. }
  destruct (strip_prefix "INODE:" p) as [rest|].
  { unfold init_inode.
    destruct (number_colon_result rest) as [[[mj p1] H1]|H1]; rewrite H1;
      [|now right]. cbn [bind].
    destruct (number_colon_result p1) as [[[mn p2] H2]|H2]; rewrite H2;
      [|now right]. cbn [bind].
    destruct (strtoull p2) as [[i cp]|]; [|now right].
    destruct cp; [|now right].
    left. eexists. split; [reflexivity|]. split; reflexivity. }
  destruct (strip_prefix "PCRE:" p) as [rest|].
  { apply Hregex. now left. }
  destruct (strip_prefix "./" p); [|now right].
  apply Hregex. right. split; reflexivity.
Qed.

Lemma init_result :
  forall p ends,
    (exists ign, ign___init_pattern_into p ends = Ok ign
                 /\ is_user_pat ign = false
                 /\ ign___init_pattern_into (pattern ign) None = Ok ign)
    \/ ign___init_pattern_into p ends = Err EINVAL.
Proof.
  intros p ends. unfold ign___init_pattern_into at 1 3.
  set (end_ := match ends with
               | Some e => if strlen p <? e then strlen p else e
               | None => strlen p
               end).
  assert (Hend : end_ <= strlen p).
  { unfold end_. destruct ends as [e|]; [|lia].
    destruct (strlen p <? e) eqn:H; [lia|]. apply Z.ltb_ge in H. lia. }
  destruct (skip_white_result p end_ 0) as [(off & raw & H1)|H1]; rewrite H1;
    [|now right]. cbn [bind].
  destruct (skip_white_spec _ _ _ _ _ H1) as [Hoff Hsp].
  destruct (modifiers_result raw end_ off true false)
    as [(a' & b' & q & H2 & Hq)|H2]; rewrite H2; [|now right]. cbn [bind].
  destruct (init_kind_result raw a' b' q Hq) as [(ign & H3 & H4 & H5)|H3];
    [|now right].
  left. exists ign. split; [exact H3|]. split; [exact H5|].
  unfold ign___init_pattern_into. rewrite H4.
  rewrite (skip_white_nospace raw _ 0 Hsp). cbn [bind].
  rewrite (modifiers_mono raw end_ off (strlen raw) 0 true false (a', b', q));
    [|lia|exact H2].
  cbn [bind]. exact H3.
Qed.

Lemma init_ends_big :
  forall p e,
    strlen p <= e ->
    ign___init_pattern_into p (Some e) = ign___init_pattern_into p None.
Proof.
  intros p e H. unfold ign___init_pattern_into.
  destruct (strlen p <? e) eqn:H1; [reflexivity|].
  apply Z.ltb_ge in H1. replace e with (strlen p) by lia. reflexivity.
Qed.

Lemma init_empty :
  forall ends, ign___init_pattern_into "" ends = Err EINVAL.
Proof.
  intros ends. unfold ign___init_pattern_into. simpl. reflexivity.
Qed.

Lemma skip_white_cons :
  forall c p e o,
    skip_white e o (String c p)
    = if isspace c then
        if e <=? o + 1 then Err EINVAL else skip_white e (o + 1) p
      else Ok (o, String c p).
Proof. reflexivity. Qed.

(** White space before a pattern is passed over. *)
Lemma init_space_shift :
  forall c t e,
    isspace c = true ->
    strlen t + 1 <= e ->
    ign___init_pattern_into (String c t) (Some e)
    = ign___init_pattern_into t None.
Proof.
  intros c t e Hc He.
  rewrite init_ends_big by (rewrite strlen_cons; exact He).
  destruct t as [|c1 t].
  - rewrite init_empty. unfold ign___init_pattern_into. simpl.
    rewrite Hc. reflexivity.
  - assert (Hpos : 0 < strlen (String c1 t)).
    { rewrite strlen_cons. pose proof (strlen_nonneg t). lia. }
    generalize dependent (String c1 t). intros t1 _ Hpos.
    unfold ign___init_pattern_into.
    rewrite strlen_cons. rewrite skip_white_cons. rewrite Hc.
    replace (strlen t1 + 1 <=? 0 + 1) with false
      by (symmetry; apply Z.leb_gt; lia).
    rewrite skip_white_shift.
    destruct (skip_white (strlen t1) 0 t1) as [[off raw]| |]; try reflexivity.
    cbn [bind]. rewrite modifiers_shift. reflexivity.
Qed.

End Parser.

(** ** Loading *)

Section Loading.

Context {E : Pcre}.

Lemma new_pattern_append :
  forall p ends u (ilist : list ignore_t),
    ign__new_pattern 1 (Some [p]) ends u PATTERN_POSITION_END ilist
    = (ign <- ign___init_pattern_into p ends ;;
       Ok (ilist ++ [set_user_pat u ign])%list).
Proof.
  intros p ends u ilist. unfold ign__new_pattern.
  change (negb (PATTERN_POSITION_END =? PATTERN_POSITION_END)) with false.
  cbn [andb bind].
  replace ((Z.of_nat (List.length ilist) <? Z.of_nat (List.length ilist))
           || (Z.of_nat (List.length ilist) <? 0)) with false.
  2:{ symmetry. apply orb_false_iff. split; apply Z.ltb_ge; lia. }
  cbn [init_patterns].
  destruct (ign___init_pattern_into p ends) as [ign|e|]; cbn [bind];
    try reflexivity.
  rewrite Nat2Z.id, firstn_all, skipn_all, app_nil_r. reflexivity.
Qed.

Lemma length_append :
  forall a b, String.length (a ++ b) = (String.length a + String.length b)%nat.
Proof.
  intros a b. induction a as [|c a IH]; simpl; [reflexivity|]. now rewrite IH.
Qed.

Lemma drop_app :
  forall pre x, drop (String.length pre) (pre ++ x) = x.
Proof.
  intros pre x. induction pre as [|c pre IH]; simpl; [reflexivity|exact IH].
Qed.

Lemma cstr_app_nul :
  forall a b, c_string a -> cstr (a ++ String NUL b) = a.
Proof.
  intros a b. unfold c_string. induction a as [|c a IH]; intros H.
  - reflexivity.
  - simpl in *. apply orb_false_iff in H. destruct H as [H1 H2].
    rewrite H1. now rewrite IH.
Qed.

Lemma cstr_c_string : forall a, c_string a -> cstr a = a.
Proof.
  intros a. unfold c_string. induction a as [|c a IH]; intros H.
  - reflexivity.
  - simpl in *. apply orb_false_iff in H. destruct H as [H1 H2].
    rewrite H1. now rewrite IH.
Qed.

Lemma c_string_app :
  forall a b, c_string a -> c_string b -> c_string (a ++ b).
Proof.
  intros a b. unfold c_string. induction a as [|c a IH]; intros Ha Hb.
  - exact Hb.
  - simpl in *. apply orb_false_iff in Ha. destruct Ha as [H1 H2].
    rewrite H1. now apply IH.
Qed.

Lemma load_loop_S :
  forall l memory cp2 cp (ilist : list ignore_t),
    load_loop (S l) memory cp2 cp ilist
    = (ilist' <- ign__new_pattern 1
                   (Some [cstr (drop (Z.to_nat cp) memory)])
                   (Some (cp2 - cp)) true PATTERN_POSITION_END ilist ;;
       if cp2 <=? cp + strlen (cstr (drop (Z.to_nat cp) memory)) + 1
       then Ok ilist'
       else load_loop l memory cp2
                      (cp + strlen (cstr (drop (Z.to_nat cp) memory)) + 1)
                      ilist').
Proof. reflexivity. Qed.

Lemma load_texts_S :
  forall l t texts (ilist : list ignore_t),
    load_texts (S l) (t :: texts) ilist
    = (ign <- ign___init_pattern_into t None ;;
       load_texts l texts (ilist ++ [set_user_pat true ign])%list).
Proof. reflexivity. Qed.

(** The loop of [ign__load_list] over the patterns of a file: [pre] is
    what lies before [cp], [ws] the newline of the pattern before (none
    for the first pattern). *)
Lemma load_loop_texts :
  forall (l : nat) (texts : list string) (pre ws : string)
         (ilist : list ignore_t),
    ws = "" \/ ws = chr LF ->
    Forall c_string texts ->
    load_loop l (pre ++ ws ++ entries texts)
              (strlen (pre ++ ws ++ entries texts)) (strlen pre) ilist
    = load_texts l texts ilist.
Proof.
  intros l. induction l as [|l IH]; intros texts pre ws ilist Hws Hc.
  - reflexivity.
  - assert (Hwsc : c_string ws) by (destruct Hws as [->| ->]; reflexivity).
    assert (Hwsi : forall t e,
               strlen (ws ++ t) <= e ->
               ign___init_pattern_into (ws ++ t) (Some e)
               = ign___init_pattern_into t None).
    { intros t e He. destruct Hws as [->| ->].
      - apply init_ends_big. exact He.
      - apply init_space_shift; [reflexivity|].
        change (chr LF ++ t) with (String LF t) in He.
        rewrite strlen_cons in He. exact He. }
    rewrite load_loop_S.
    replace (Z.to_nat (strlen pre)) with (String.length pre)
      by (unfold strlen; now rewrite Nat2Z.id).
    rewrite drop_app.
    rewrite new_pattern_append.
    destruct texts as [|t texts].
    + change (load_texts (S l) [] ilist) with (@Err (list ignore_t) EINVAL).
      unfold entries. simpl map. simpl concat_str. rewrite append_nil_r.
      rewrite cstr_c_string by exact Hwsc.
      rewrite <- (append_nil_r ws) at 1.
      rewrite Hwsi.
      * rewrite init_empty. reflexivity.
      * rewrite !strlen_app. pose proof (strlen_nonneg pre).
        change (strlen "") with 0. lia.
    + inversion Hc as [|t' texts' Ht Htexts]; subst.
      assert (Hent : entries (t :: texts)
                     = t ++ String NUL (chr LF ++ entries texts)).
      { unfold entries. simpl map. simpl concat_str. unfold file_entry.
        rewrite !append_assoc. reflexivity. }
      rewrite Hent.
      replace (ws ++ t ++ String NUL (chr LF ++ entries texts))
        with ((ws ++ t) ++ String NUL (chr LF ++ entries texts))
        by (now rewrite append_assoc).
      rewrite cstr_app_nul by (apply c_string_app; assumption).
      rewrite Hwsi.
      2:{ rewrite !strlen_app. rewrite strlen_cons.
          pose proof (strlen_nonneg (chr LF ++ entries texts)). lia. }
      rewrite load_texts_S.
      destruct (ign___init_pattern_into t None) as [ign|e|]; cbn [bind];
        try reflexivity.
      replace (strlen (pre ++ (ws ++ t)
                       ++ String NUL (chr LF ++ entries texts))
               <=? strlen pre + strlen (ws ++ t) + 1) with false.
      2:{ symmetry. apply Z.leb_gt. rewrite !strlen_app, strlen_cons.
          rewrite strlen_app. change (strlen (chr LF)) with 1.
          pose proof (strlen_nonneg (entries texts)). lia. }
      replace (pre ++ (ws ++ t) ++ String NUL (chr LF ++ entries texts))
        with ((pre ++ (ws ++ t) ++ chr NUL) ++ chr LF ++ entries texts).
      2:{ rewrite !append_assoc. reflexivity. }
      replace (strlen pre + strlen (ws ++ t) + 1)
        with (strlen (pre ++ (ws ++ t) ++ chr NUL)).
      2:{ rewrite !strlen_app. change (strlen (chr NUL)) with 1. lia. }
      apply IH; [now right|exact Htexts].
Qed.

End Loading.

(** ** The header of the file *)

Lemma is_digit_code : forall c, is_digit c = true -> 48 <= code c <= 57.
Proof.
  intros c H. unfold is_digit, in_range in H.
  apply andb_true_iff in H. destruct H as [H1 H2].
  apply Z.leb_le in H1, H2. exact (conj H1 H2).
Qed.

Lemma digit_val_none :
  forall c, is_digit c = false -> digit_val 10 c = None.
Proof.
  intros c H. unfold digit_val. rewrite H.
  destruct (is_lower c) eqn:Hl.
  - unfold is_lower, in_range in Hl. apply andb_true_iff in Hl.
    destruct Hl as [H1 _]. apply Z.leb_le in H1.
    change (code "a") with 97 in H1.
    replace (code c - 97 + 10 <? 10) with false; [reflexivity|].
    symmetry. apply Z.ltb_ge. lia.
  - destruct (is_upper c) eqn:Hu.
    + unfold is_upper, in_range in Hu. apply andb_true_iff in Hu.
      destruct Hu as [H1 _]. apply Z.leb_le in H1.
      change (code "A") with 65 in H1.
      replace (code c - 65 + 10 <? 10) with false; [reflexivity|].
      symmetry. apply Z.ltb_ge. lia.
    + reflexivity.
Qed.

Lemma digits_stop :
  forall rest acc any,
    starts_digit rest = false -> digits 10 acc any rest = (acc, any, rest).
Proof.
  intros [|c rest] acc any H; [reflexivity|].
  simpl in *. now rewrite (digit_val_none c H).
Qed.

Lemma digits_uint :
  forall d acc any rest,
    starts_digit rest = false ->
    digits 10 (Z.of_nat acc) any (NilEmpty.string_of_uint d ++ rest)
    = (Z.of_nat (Nat.of_uint_acc d acc),
       match d with Nil => any | _ => true end, rest).
Proof.
  intros d. induction d; intros acc any rest Hr;
    try (cbn [NilEmpty.string_of_uint append digits Nat.of_uint_acc];
         match goal with
         | |- context [digit_val 10 ?c] =>
             change (digit_val 10 c) with (Some (code c - 48))
         end;
         cbv beta iota;
         match goal with
         | |- digits 10 ?a true _
              = (Z.of_nat (Nat.of_uint_acc _ ?m), _, _) =>
             replace a with (Z.of_nat m)
               by (rewrite ?Nat2Z.inj_succ, Nat.tail_mul_spec, Nat2Z.inj_mul;
                   change (Z.of_nat 10) with 10;
                   match goal with
                   | |- context [code ?c - 48] =>
                       let v := eval vm_compute in (code c - 48) in
                       change (code c - 48) with v
                   end; lia)
         end;
         rewrite IHd by exact Hr; destruct d; reflexivity).
  simpl. apply digits_stop. exact Hr.
Qed.

Lemma digits_print_u :
  forall n rest,
    starts_digit rest = false ->
    digits 10 0 false (print_u n ++ rest) = (Z.of_nat n, true, rest).
Proof.
  intros n rest Hr. unfold print_u.
  rewrite <- (DecimalNat.Unsigned.of_to n) at 2.
  unfold Nat.of_uint, NilZero.string_of_uint.
  destruct (Nat.to_uint n) eqn:Hd;
    try (rewrite <- Hd; change 0 with (Z.of_nat 0);
         rewrite digits_uint by exact Hr; rewrite Hd; reflexivity).
  simpl. rewrite digits_stop by exact Hr. reflexivity.
Qed.

Lemma uint_all_digits :
  forall d, all_chars is_digit (NilEmpty.string_of_uint d) = true.
Proof. intros d. induction d; simpl; auto. Qed.

Lemma print_u_digits :
  forall n, all_chars is_digit (print_u n) = true /\ print_u n <> "".
Proof.
  intros n. unfold print_u, NilZero.string_of_uint.
  destruct (Nat.to_uint n) eqn:Hd;
    try (split; [rewrite <- Hd; apply uint_all_digits|simpl; discriminate]).
  split; [reflexivity|discriminate].
Qed.

Lemma cstr_digits :
  forall h x, all_chars is_digit h = true -> cstr (h ++ x) = h ++ cstr x.
Proof.
  intros h x. induction h as [|c h IH]; intros H; [reflexivity|].
  simpl in *. apply andb_true_iff in H. destruct H as [H1 H2].
  pose proof (is_digit_code c H1) as Hc.
  replace (c =? NUL)%char with false.
  - now rewrite IH.
  - symmetry. apply Ascii.eqb_neq. intros ->.
    change (code NUL) with 0 in Hc. lia.
Qed.

Lemma strchr_digits :
  forall h x,
    all_chars is_digit h = true ->
    strchr (h ++ String LF x) LF = Some (strlen h).
Proof.
  intros h x. induction h as [|c h IH]; intros H; [reflexivity|].
  simpl in *. apply andb_true_iff in H. destruct H as [H1 H2].
  pose proof (is_digit_code c H1) as Hc.
  replace (c =? LF)%char with false.
  - rewrite IH by exact H2. rewrite strlen_cons. reflexivity.
  - symmetry. apply Ascii.eqb_neq. intros ->.
    change (code LF) with 10 in Hc. lia.
Qed.

(** The header of a file that starts with a count in decimal digits. *)
Lemma sscanf_u_print :
  forall n x,
    Z.of_nat n < 2 ^ 31 ->
    sscanf_u (print_u n ++ String LF x) = Some (Z.of_nat n).
Proof.
  intros n x Hn. unfold sscanf_u.
  destruct (print_u_digits n) as [Hd Hne].
  destruct (print_u n) as [|c h] eqn:Hp; [contradiction|].
  simpl in Hd. apply andb_true_iff in Hd. destruct Hd as [H1 H2].
  pose proof (is_digit_code c H1) as Hc.
  assert (Hsp : isspace c = false).
  { unfold isspace. apply orb_false_iff. split.
    - apply Z.eqb_neq. lia.
    - apply andb_false_iff. right. apply Z.leb_gt. lia. }
  assert (Hm : (c =? "-")%char = false).
  { apply Ascii.eqb_neq. intros ->. change (code "-") with 45 in Hc. lia. }
  assert (Hpl : (c =? "+")%char = false).
  { apply Ascii.eqb_neq. intros ->. change (code "+") with 43 in Hc. lia. }
  change (String c h ++ String LF x) with (String c (h ++ String LF x)).
  cbn [skip_space]. rewrite Hsp. cbn [sign_of]. rewrite Hm, Hpl.
  change (String c (h ++ String LF x)) with (String c h ++ String LF x).
  rewrite <- Hp. rewrite digits_print_u by reflexivity.
  f_equal. unfold to_int. rewrite Z.mod_small; lia.
Qed.

(** ** Saving and loading *)

Section SaveLoad.

Context {E : Pcre}.

(** Loading a file that holds a count and the texts of patterns. *)
Lemma load_file :
  forall (n : nat) (texts : list string) (ilist : list ignore_t),
    Forall c_string texts ->
    Z.of_nat n < 2 ^ 31 ->
    ign__load_list (Some (print_u n ++ chr LF ++ entries texts)) ilist
    = match load_texts n texts ilist with
      | Ok ilist' => Returns 0 ilist'
      | Err e => Returns e []
      | Abort => Aborts
      end.
Proof.
  intros n texts ilist Hc Hn. unfold ign__load_list.
  destruct (print_u_digits n) as [Hd Hne].
  set (h := print_u n) in *.
  replace (strlen (h ++ chr LF ++ entries texts) =? 0) with false.
  2:{ symmetry. apply Z.eqb_neq. rewrite !strlen_app.
      change (strlen (chr LF)) with 1.
      pose proof (strlen_nonneg h). pose proof (strlen_nonneg (entries texts)).
      lia. }
  rewrite (cstr_digits h _ Hd).
  change (cstr (chr LF ++ entries texts))
    with (String LF (cstr (entries texts))).
  rewrite (strchr_digits h _ Hd).
  unfold h at 1. rewrite (sscanf_u_print n _ Hn). fold h.
  rewrite Nat2Z.id.
  replace (h ++ chr LF ++ entries texts)
    with ((h ++ chr LF) ++ "" ++ entries texts)
    by (rewrite append_assoc; reflexivity).
  replace (strlen h + 1) with (strlen (h ++ chr LF))
    by (rewrite strlen_app; reflexivity).
  rewrite load_loop_texts; [reflexivity|now left|exact Hc].
Qed.

Lemma set_user_pat_back :
  forall ign : ignore_t,
    is_user_pat ign = true -> set_user_pat true (set_user_pat false ign) = ign.
Proof.
  intros ign H. destruct ign. simpl in *. subst. reflexivity.
Qed.

Lemma set_user_pat_fresh :
  forall (ign : ignore_t) u,
    is_user_pat ign = false -> set_user_pat false (set_user_pat u ign) = ign.
Proof.
  intros ign u H. destruct ign. simpl in *. subst. reflexivity.
Qed.

Lemma load_texts_parsed :
  forall (users ilist : list ignore_t),
    Forall (fun ign => is_user_pat ign = true /\ parsed ign) users ->
    load_texts (List.length users) (map pattern users) ilist
    = Ok (ilist ++ users)%list.
Proof.
  intros users. induction users as [|ign users IH]; intros ilist H.
  - simpl. now rewrite app_nil_r.
  - inversion H as [|x xs [Hu [_ Hp]] Hrest]; subst.
    simpl List.length. simpl map. rewrite load_texts_S. rewrite Hp.
    cbn [bind]. rewrite set_user_pat_back by exact Hu.
    rewrite IH by exact Hrest. rewrite <- app_assoc. reflexivity.
Qed.

Lemma load_texts_fail :
  forall (l : nat) (texts : list string) (ilist : list ignore_t)
         (i : nat) (t : string) (e : Z),
    nth_error texts i = Some t ->
    (i < l)%nat ->
    ign___init_pattern_into t None = Err e ->
    load_texts l texts ilist = Err EINVAL.
Proof.
  intros l. induction l as [|l IH]; intros texts ilist i t e Hnth Hi Hf.
  - lia.
  - destruct texts as [|t0 texts]; [reflexivity|].
    rewrite load_texts_S.
    destruct (init_result t0 None) as [(ign & H1 & _)|H1]; rewrite H1;
      cbn [bind]; [|reflexivity].
    destruct i as [|i].
    + simpl in Hnth. injection Hnth as ->. congruence.
    + simpl in Hnth. apply (IH texts _ i t e Hnth); [lia|exact Hf].
Qed.

Lemma skip_white_c_string :
  forall p e o off raw,
    c_string p -> skip_white e o p = Ok (off, raw) -> c_string raw.
Proof.
  intros p. induction p as [|c p IH]; intros e o off raw Hc H.
  - simpl in H. injection H as <- <-. exact Hc.
  - simpl in H. unfold c_string in Hc. simpl in Hc.
    apply orb_false_iff in Hc. destruct Hc as [Hc1 Hc2].
    destruct (isspace c).
    + destruct (e <=? o + 1); [discriminate|].
      apply (IH _ _ _ _ Hc2 H).
    + injection H as <- <-. unfold c_string. simpl.
      now rewrite Hc1, Hc2.
Qed.

(** Every pattern that the parser returns is [parsed], whatever mark
    [ign__new_pattern] sets on it. *)
Lemma init_parsed :
  forall p ends ign u,
    c_string p ->
    ign___init_pattern_into p ends = Ok ign ->
    parsed (set_user_pat u ign).
Proof.
  intros p ends ign u Hc H.
  destruct (init_result p ends) as [(ign' & H1 & H2 & H3)|H1];
    [|congruence].
  rewrite H in H1. injection H1 as <-.
  split.
  - (* the text is the end of [p] *)
    change (pattern (set_user_pat u ign)) with (pattern ign).
    unfold ign___init_pattern_into in H.
    set (end_ := match ends with
                 | Some e => if strlen p <? e then strlen p else e
                 | None => strlen p
                 end) in H.
    destruct (skip_white_result p end_ 0) as [(off & raw & H4)|H4];
      rewrite H4 in H; [|discriminate]. cbn [bind] in H.
    pose proof (skip_white_c_string _ _ _ _ _ Hc H4) as Hraw.
    destruct (modifiers_result raw end_ off true false)
      as [(a' & b' & q & H5 & Hq)|H5]; rewrite H5 in H; [|discriminate].
    cbn [bind] in H.
    destruct (init_kind_result raw a' b' q Hq) as [(ign' & H6 & H7 & _)|H6];
      [|congruence].
    rewrite H in H6. injection H6 as <-. rewrite H7. exact Hraw.
  - change (pattern (set_user_pat u ign)) with (pattern ign).
    rewrite set_user_pat_fresh by exact H2. exact H3.
Qed.

Lemma init_patterns_parsed :
  forall count pats ends u (news : list ignore_t),
    Forall c_string pats ->
    init_patterns count pats ends u = Ok news ->
    Forall parsed news.
Proof.
  intros count. induction count as [|count IH];
    intros pats ends u news Hc H.
  - simpl in H. injection H as <-. constructor.
  - destruct pats as [|p pats]; [discriminate|]. simpl in H.
    inversion Hc as [|x xs Hp Hrest]; subst.
    destruct (ign___init_pattern_into p ends) as [ign| |] eqn:Hi;
      try discriminate. cbn [bind] in H.
    destruct (init_patterns count pats ends u) as [rest| |] eqn:Hr;
      try discriminate. cbn [bind] in H. injection H as <-.
    constructor.
    + apply (init_parsed p ends); assumption.
    + apply (IH pats ends u); assumption.
Qed.

(** The list keeps holding patterns as the parser leaves them. *)
Lemma new_pattern_parsed :
  forall count pats ends u position (ilist ilist' : list ignore_t),
    Forall parsed ilist ->
    Forall c_string pats ->
    ign__new_pattern count (Some pats) ends u position ilist = Ok ilist' ->
    Forall parsed ilist'.
Proof.
  intros count pats ends u position ilist ilist' Hl Hc H.
  unfold ign__new_pattern in H.
  destruct (if negb (position =? PATTERN_POSITION_END)
               && (0 <? Z.of_nat (List.length ilist))
            then
              if (Z.of_nat (first_user ilist) + position <? 0)
                 || (Z.of_nat (List.length ilist)
                     <? Z.of_nat (first_user ilist) + position)
              then Abort
              else Ok (Z.of_nat (first_user ilist) + position)
            else Ok (Z.of_nat (List.length ilist))) as [pos| |];
    try discriminate. cbn [bind] in H.
  destruct ((Z.of_nat (List.length ilist) <? pos) || (pos <? 0));
    [discriminate|].
  destruct (init_patterns count pats ends u) as [news| |] eqn:Hn;
    try discriminate. cbn [bind] in H. injection H as <-.
  apply Forall_app. split; [|apply Forall_app; split].
  - rewrite <- (firstn_skipn (Z.to_nat pos) ilist) in Hl.
    apply Forall_app in Hl. apply Hl.
  - apply (init_patterns_parsed count pats ends u); assumption.
  - rewrite <- (firstn_skipn (Z.to_nat pos) ilist) in Hl.
    apply Forall_app in Hl. apply Hl.
Qed.

End SaveLoad.

(** C2: saving a list and loading what was written gives the user
    patterns of the list again, in their order and with their texts, and
    nothing else: the patterns that are no user patterns are not written,
    so that the file is the same without them, and every pattern loaded is
    a user pattern. *)
Theorem save_load_round_trip :
  forall (E : Pcre) (HEADER_LEN : Z) (ilist : list ignore_t)
         (bytes : string),
    (forall ign, In ign ilist -> is_user_pat ign = true -> parsed ign) ->
    Z.of_nat (List.length (user_patterns ilist)) < 2 ^ 31 ->
    ign__save_ignorelist HEADER_LEN ilist = Ok bytes ->
    ign__load_list (Some bytes) [] = Returns 0 (user_patterns ilist)
    /\ bytes = print_u (List.length (user_patterns ilist)) ++ chr LF
               ++ entries (map pattern (user_patterns ilist))
    /\ ign__save_ignorelist HEADER_LEN (user_patterns ilist) = Ok bytes
    /\ Forall (fun ign => is_user_pat ign = true) (user_patterns ilist).
Proof.
  intros E HEADER_LEN ilist bytes Hp Hn Hsave.
  assert (Hu : Forall (fun ign => is_user_pat ign = true /\ parsed ign)
                      (user_patterns ilist)).
  { apply Forall_forall. intros ign Hin. unfold user_patterns in Hin.
    apply filter_In in Hin. destruct Hin as [Hin Hus]. split; [exact Hus|].
    apply Hp; assumption. }
  assert (Hidem : user_patterns (user_patterns ilist) = user_patterns ilist).
  { unfold user_patterns. clear. induction ilist as [|a l IH]; simpl; auto.
    destruct (is_user_pat a) eqn:Ha; simpl; [rewrite Ha, IH|]; auto. }
  assert (Hbytes : bytes = print_u (List.length (user_patterns ilist))
                           ++ chr LF
                           ++ entries (map pattern (user_patterns ilist))).
  { unfold ign__save_ignorelist in Hsave.
    destruct (HEADER_LEN - 1
              <=? strlen (print_u (List.length (user_patterns ilist))));
      [discriminate|].
    injection Hsave as <-. unfold entries. rewrite map_map. reflexivity. }
  split; [|split; [exact Hbytes|split]].
  - rewrite Hbytes. rewrite load_file.
    + rewrite load_texts_parsed by exact Hu. reflexivity.
    + apply Forall_forall. intros t Ht. apply in_map_iff in Ht.
      destruct Ht as (ign & <- & Hin).
      rewrite Forall_forall in Hu. apply (Hu ign Hin).
    + exact Hn.
  - unfold ign__save_ignorelist in *. rewrite Hidem. exact Hsave.
  - eapply Forall_impl; [|exact Hu]. intros a [H _]. exact H.
Qed.

Lemma save_load_round_trip_witness :
  ign__load_list
    (Some ("2" ++ chr LF ++ "t./keep.txt" ++ chr NUL ++ chr LF
               ++ "./**" ++ chr NUL ++ chr LF)) []
  = Returns 0 [rule_of "t./keep.txt"; rule_of "./**"].
Proof.
  apply (save_load_round_trip PcreFragment 64
           [set_user_pat false (rule_of "./proc"); rule_of "t./keep.txt";
            rule_of "./**"]).
  - intros ign [<-|[<-|[<-|[]]]] Hu; try discriminate;
      split; vm_compute; reflexivity.
  - vm_compute. reflexivity.
  - vm_compute. reflexivity.
Defined.

(** C9: loading is all or nothing.  Whenever [ign__load_list] returns a
    status other than 0, no entry is in use afterwards, not even one that
    was in use before; and a file whose count reaches a text that the
    parser refuses makes it return [EINVAL].  With no entry in use, no
    pattern is tested and an entry stays unclassified. *)
Theorem load_all_or_nothing :
  (forall (E : Pcre) (file : option string) (ilist ilist' : list ignore_t)
          (status : Z),
      ign__load_list file ilist = Returns status ilist' ->
      status <> 0 ->
      ilist' = [])
  /\ (forall (E : Pcre) (l : nat) (texts : list string)
             (ilist : list ignore_t) (i : nat) (t : string) (e : Z),
         Forall c_string texts ->
         Z.of_nat l < 2 ^ 31 ->
         nth_error texts i = Some t ->
         (i < l)%nat ->
         ign___init_pattern_into t None = Err e ->
         ign__load_list (Some (print_u l ++ chr LF ++ entries texts)) ilist
         = Returns EINVAL [])
  /\ (forall (E : Pcre) (sts : estat),
         ftype sts = FT_OTHER -> classify [] sts = Ok Unclassified).
Proof.
  split; [|split].
  - intros E file ilist ilist' status H Hs. unfold ign__load_list in H.
    destruct file as [memory|]; [|injection H as <- <-; contradiction].
    destruct (strlen memory =? 0); [discriminate|].
    destruct (strchr (cstr memory) LF);
      [|injection H as <- <-; contradiction].
    destruct (sscanf_u (cstr memory)); [|now injection H as <- <-].
    destruct (load_loop _ _ _ _ _); try discriminate.
    + injection H as <- <-. contradiction.
    + now injection H as <- <-.
  - intros E l texts ilist i t e Hc Hl Hnth Hi Hf.
    rewrite load_file by assumption.
    rewrite (load_texts_fail l texts ilist i t e Hnth Hi Hf). reflexivity.
  - intros E sts Hf. unfold classify, ign__is_ignore. rewrite Hf.
    destruct (parent sts); reflexivity.
Qed.

Lemma load_all_or_nothing_witness :
  ign__load_list
    (Some ("2" ++ chr LF ++ "./a" ++ chr NUL ++ chr LF
               ++ "XYZ:foo" ++ chr NUL ++ chr LF))
    [rule_of "./old"]
  = Returns EINVAL [].
Proof.
  apply (proj1 (proj2 load_all_or_nothing) PcreFragment 2%nat
               ["./a"; "XYZ:foo"] [rule_of "./old"] 1%nat "XYZ:foo" EINVAL).
  - repeat constructor.
  - vm_compute. reflexivity.
  - reflexivity.
  - lia.
  - vm_compute. reflexivity.
Defined.

(** ** Inserting at a position *)

Lemma first_user_app :
  forall (E : Pcre) (sys users : list ignore_t),
    Forall (fun ign => is_user_pat ign = false) sys ->
    match users with
    | ign :: _ => is_user_pat ign = true
    | [] => True
    end ->
    first_user (sys ++ users) = List.length sys.
Proof.
  intros E sys users Hs Hu. induction sys as [|a sys IH].
  - simpl. destruct users as [|ign users]; [reflexivity|].
    simpl. now rewrite Hu.
  - inversion Hs as [|x xs Ha Hrest]; subst. simpl. rewrite Ha.
    now rewrite IH.
Qed.

(** The patterns inserted at [k] stand behind the first [k] user patterns:
    the patterns before the first user pattern stay where they are, the
    user patterns from [k] on move behind the new ones, and no order
    changes. *)
Lemma insert_at_index :
  forall (E : Pcre) (count : nat) (pats : list string)
         (sys users news : list ignore_t) (k : nat),
    Forall (fun ign => is_user_pat ign = false) sys ->
    match users with
    | ign :: _ => is_user_pat ign = true
    | [] => True
    end ->
    (k <= List.length users)%nat ->
    init_patterns count pats None true = Ok news ->
    ign__new_pattern count (Some pats) None true (Z.of_nat k) (sys ++ users)
    = Ok (sys ++ firstn k users ++ news ++ skipn k users)%list.
Proof.
  intros E count pats sys users news k Hs Hu Hk Hnews.
  unfold ign__new_pattern.
  rewrite (first_user_app E sys users Hs Hu).
  rewrite length_app.
  assert (Hpos : (if negb (Z.of_nat k =? PATTERN_POSITION_END)
                     && (0 <? Z.of_nat (List.length sys + List.length users))
                  then
                    if (Z.of_nat (List.length sys) + Z.of_nat k <? 0)
                       || (Z.of_nat (List.length sys + List.length users)
                           <? Z.of_nat (List.length sys) + Z.of_nat k)
                    then Abort
                    else Ok (Z.of_nat (List.length sys) + Z.of_nat k)
                  else Ok (Z.of_nat (List.length sys + List.length users)))
                 = Ok (Z.of_nat (List.length sys + k))).
  { replace (Z.of_nat k =? PATTERN_POSITION_END) with false
      by (symmetry; apply Z.eqb_neq; unfold PATTERN_POSITION_END; lia).
    cbn [negb andb].
    destruct (0 <? Z.of_nat (List.length sys + List.length users)) eqn:H0.
    - replace ((Z.of_nat (List.length sys) + Z.of_nat k <? 0)
               || (Z.of_nat (List.length sys + List.length users)
                   <? Z.of_nat (List.length sys) + Z.of_nat k)) with false.
      + f_equal. lia.
      + symmetry. apply orb_false_iff. split; apply Z.ltb_ge; lia.
    - apply Z.ltb_ge in H0. f_equal. lia. }
  rewrite Hpos. cbn [bind].
  replace ((Z.of_nat (List.length sys + List.length users)
            <? Z.of_nat (List.length sys + k))
           || (Z.of_nat (List.length sys + k) <? 0)) with false
    by (symmetry; apply orb_false_iff; split; apply Z.ltb_ge; lia).
  rewrite Hnews. cbn [bind]. rewrite Nat2Z.id.
  rewrite firstn_app, skipn_app.
  replace (List.length sys + k - List.length sys)%nat with k by lia.
  rewrite firstn_all2 by lia. rewrite skipn_all2 by lia.
  rewrite <- app_assoc. reflexivity.
Qed.

Lemma strip_prefix_some :
  forall p s r, strip_prefix p s = Some r -> s = p ++ r.
Proof.
  intros p. induction p as [|a p IH]; intros s r H.
  - simpl in H. now injection H as ->.
  - destruct s as [|b s]; [discriminate|]. cbn [strip_prefix] in H.
    destruct (Ascii.eqb_spec a b) as [<-|]; [|discriminate].
    simpl. f_equal. now apply IH.
Qed.

(** An index behind all the entries is refused with [EINVAL] by the guard
    of [ign__work]. *)
Lemma insert_beyond_all_entries :
  forall (E : Pcre) (HEADER_LEN : Z) (stdin argv : list string)
         (ilist : list ignore_t) (k : Z) (a0 : string),
    sscanf_at a0 = Some k ->
    Z.of_nat (List.length ilist) < k ->
    ign__work HEADER_LEN None stdin (a0 :: argv) ilist = Err EINVAL.
Proof.
  intros E HEADER_LEN stdin argv ilist k a0 Ha Hk. unfold ign__work.
  assert (Hpre : exists r, a0 = "at=" ++ r).
  { unfold sscanf_at in Ha.
    destruct (strip_prefix "at=" a0) as [r|] eqn:Hr; [|discriminate].
    exists r. now apply strip_prefix_some. }
  destruct Hpre as [r ->].
  change (String.eqb ("at=" ++ r) parm_load) with false.
  change (String.eqb ("at=" ++ r) parm_dump) with false.
  change (String.eqb ("at=" ++ r) "prepend") with false.
  cbn [ign__load_list]. change (negb (0 =? 0)) with false. cbv iota.
  rewrite Ha.
  replace (Z.of_nat (List.length ilist) <? k) with true
    by (symmetry; apply Z.ltb_lt; exact Hk).
  reflexivity.
Qed.

(** C4 (the code at the failing input): with one entry that is no user
    pattern and no user pattern at all, [at=1] is an index behind the user
    patterns.  The guard of [ign__work] lets it pass, because it counts
    all entries, and [ign__new_pattern] then leaves the array: there is no
    return with [EINVAL].  Without the built-in entry the same call is
    refused with [EINVAL]. *)
Theorem insert_behind_user_patterns_aborts :
  ign__work 64 None [] ["at=1"; "./x"]
            [set_user_pat false (rule_of "./sys")]
  = Abort
  /\ ign__work (E := PcreFragment) 64 None [] ["at=1"; "./x"] []
     = Err EINVAL.
Proof. split; vm_compute; reflexivity. Qed.

(** ** The translator and the documented translation *)

Lemma shell_loop_S :
  forall fuel len st,
    shell_loop (S fuel) len st
    = match x_src st with
      | "" => Abort
      | String c src' =>
          st' <- shell_body len st c src' ;;
          if len - strlen (x_dest st') <? 11 then Err ENOSPC
          else shell_cont fuel len st'
      end.
Proof. reflexivity. Qed.

Lemma glob_spec_nil : forall fuel, glob_spec fuel "" = ("", false).
Proof. intros [|fuel]; reflexivity. Qed.

Lemma glob_spec_S :
  forall fuel c s',
    glob_spec (S fuel) (String c s')
    = if (c =? "\")%char then
        match s' with
        | String e s'' => prepend (String c (String e "")) (glob_spec fuel s'')
        | "" => (chr c, false)
        end
      else if (c =? "*")%char then
        if starts_with "*" s' then
          (".*" ++ fst (glob_spec fuel (skip_stars s')), true)
        else prepend "[^/]*" (glob_spec fuel s')
      else if (c =? "?")%char then prepend "." (glob_spec fuel s')
      else if (c =? "[")%char then
        prepend (String c (fst (bracket_spec s')))
                (glob_spec fuel (snd (bracket_spec s')))
      else if is_plain c then prepend (chr c) (glob_spec fuel s')
      else prepend (String "\" (chr c)) (glob_spec fuel s').
Proof. reflexivity. Qed.

Lemma shell_body_backslash :
  forall len hw src dest src',
    shell_body len {| x_backslashed := false; x_wildwild := hw;
                      x_src := src; x_dest := dest |} "\" src'
    = Ok {| x_backslashed := true; x_wildwild := hw;
            x_src := src'; x_dest := dest ++ "\" |}.
Proof. reflexivity. Qed.

Lemma shell_body_escaped :
  forall len hw src dest c src',
    shell_body len {| x_backslashed := true; x_wildwild := hw;
                      x_src := src; x_dest := dest |} c src'
    = Ok {| x_backslashed := false; x_wildwild := hw;
            x_src := src'; x_dest := dest ++ chr c |}.
Proof. reflexivity. Qed.

Lemma shell_body_stars :
  forall len hw src dest src',
    starts_with "*" src' = true ->
    shell_body len {| x_backslashed := false; x_wildwild := hw;
                      x_src := src; x_dest := dest |} "*" src'
    = Ok {| x_backslashed := false; x_wildwild := true;
            x_src := skip_stars src'; x_dest := dest ++ ".*" |}.
Proof.
  intros len hw src dest [|c1 s] H; [discriminate|].
  simpl in H. unfold shell_body. cbn [x_backslashed x_dest x_wildwild].
  change ("*" =? "*")%char with true. cbv iota.
  change (nth_char 1 (String "*" (String c1 s))) with c1. rewrite H.
  reflexivity.
Qed.

Lemma shell_body_star :
  forall len hw src dest src',
    starts_with "*" src' = false ->
    shell_body len {| x_backslashed := false; x_wildwild := hw;
                      x_src := src; x_dest := dest |} "*" src'
    = Ok {| x_backslashed := false; x_wildwild := hw;
            x_src := src'; x_dest := dest ++ "[^/]*" |}.
Proof.
  intros len hw src dest [|c1 s] H; [reflexivity|].
  simpl in H. unfold shell_body. cbn [x_backslashed x_dest x_wildwild].
  change ("*" =? "*")%char with true. cbv iota.
  change (nth_char 1 (String "*" (String c1 s))) with c1. rewrite H.
  reflexivity.
Qed.

Lemma shell_loop_spec :
  forall (n fuel f2 : nat) (len : Z) (st : xlate),
    (String.length (x_src st) <= n)%nat ->
    (String.length (x_src st) <= fuel)%nat ->
    (String.length (x_src st) <= f2)%nat ->
    x_backslashed st = false ->
    strlen (x_dest st) + 5 * strlen (x_src st) + 11 <= len ->
    exists bs',
      shell_cont fuel len st
      = Ok {| x_backslashed := bs';
              x_wildwild := x_wildwild st || snd (glob_spec f2 (x_src st));
              x_src := "";
              x_dest := x_dest st ++ fst (glob_spec f2 (x_src st)) |}.
Proof.
  intros n. induction n as [|n IH]; intros fuel f2 len st Hn Hfuel Hf2 Hbs Hlen;
    destruct st as [bs hw src dest]; cbn [x_src x_dest x_wildwild
                                            x_backslashed] in *; subst bs.
  - destruct src; [|simpl in Hn; lia].
    exists false. rewrite glob_spec_nil. unfold shell_cont. simpl.
    now rewrite orb_false_r, append_nil_r.
  - destruct src as [|c src'].
    { exists false. rewrite glob_spec_nil. unfold shell_cont. simpl.
      now rewrite orb_false_r, append_nil_r. }
    destruct fuel as [|fuel']; [simpl in Hfuel; lia|].
    destruct f2 as [|f2']; [simpl in Hf2; lia|].
    simpl String.length in Hn, Hfuel, Hf2.
    rewrite strlen_cons in Hlen. pose proof (strlen_nonneg src') as Hs'.
    pose proof (strlen_nonneg dest) as Hd0.
    unfold shell_cont. cbn [x_src]. rewrite shell_loop_S. cbn [x_src].
    (* one pass that leaves the loop in plain text *)
    assert (Hstep :
              forall hw1 s1 d1 w,
                (String.length s1 <= n)%nat ->
                (String.length s1 <= fuel')%nat ->
                (String.length s1 <= f2')%nat ->
                strlen d1 + 5 * strlen s1 <= 5 * (strlen src' + 1) ->
                shell_body len {| x_backslashed := false; x_wildwild := hw;
                                  x_src := String c src'; x_dest := dest |}
                           c src'
                = Ok {| x_backslashed := false; x_wildwild := hw1;
                        x_src := s1; x_dest := dest ++ d1 |} ->
                hw1 || snd (glob_spec f2' s1) = hw || w ->
                exists bs',
                  (st' <- shell_body len
                            {| x_backslashed := false; x_wildwild := hw;
                               x_src := String c src'; x_dest := dest |}
                            c src' ;;
                   if len - strlen (x_dest st') <? 11 then Err ENOSPC
                   else shell_cont fuel' len st')
                  = Ok {| x_backslashed := bs';
                          x_wildwild := hw || w;
                          x_src := "";
                          x_dest := dest ++ d1 ++ fst (glob_spec f2' s1) |}).
    { intros hw1 s1 d1 w H1 H2 H3 H4 H5 H6. rewrite H5. cbn [bind x_dest].
      pose proof (strlen_nonneg s1) as Hs1.
      replace (len - strlen (dest ++ d1) <? 11) with false
        by (symmetry; apply Z.ltb_ge; rewrite strlen_app; lia).
      destruct (IH fuel' f2' len
                  {| x_backslashed := false; x_wildwild := hw1;
                     x_src := s1; x_dest := dest ++ d1 |})
        as [bs' Hr]; cbn [x_src x_dest x_wildwild x_backslashed];
        try assumption; try reflexivity.
      { rewrite strlen_app. lia. }
      cbn [x_src x_dest x_wildwild x_backslashed] in Hr.
      exists bs'. rewrite Hr. rewrite H6.
      now rewrite append_assoc. }
    rewrite glob_spec_S.
    destruct (c =? "\")%char eqn:Hbsl.
    { (* a backslash: the next pass copies what follows *)
      apply Ascii.eqb_eq in Hbsl. subst c.
      rewrite shell_body_backslash. cbn [bind x_dest].
      replace (len - strlen (dest ++ "\") <? 11) with false
        by (symmetry; apply Z.ltb_ge; rewrite strlen_app;
            change (strlen "\") with 1; lia).
      destruct src' as [|e s''].
      - exists true. unfold shell_cont. cbn [x_src]. cbn [fst snd].
        now rewrite orb_false_r.
      - destruct fuel' as [|fuel'']; [simpl in Hfuel; lia|].
        simpl String.length in Hn, Hfuel, Hf2.
        rewrite strlen_cons in Hlen, Hs'.
        pose proof (strlen_nonneg s'') as Hs''.
        unfold shell_cont. cbn [x_src]. rewrite shell_loop_S. cbn [x_src].
        rewrite shell_body_escaped. cbn [bind x_dest].
        replace (len - strlen ((dest ++ "\") ++ chr e) <? 11) with false
          by (symmetry; apply Z.ltb_ge; rewrite !strlen_app;
              change (strlen "\") with 1;
              change (strlen (chr e)) with 1; lia).
        destruct (IH fuel'' f2' len
                    {| x_backslashed := false; x_wildwild := hw;
                       x_src := s''; x_dest := (dest ++ "\") ++ chr e |})
          as [bs' Hr]; cbn [x_src x_dest x_wildwild x_backslashed];
          try lia; try reflexivity.
        { rewrite !strlen_app. change (strlen "\") with 1.
          change (strlen (chr e)) with 1. lia. }
        cbn [x_src x_dest x_wildwild x_backslashed] in Hr.
        exists bs'. rewrite Hr. unfold prepend. cbn [fst snd].
        rewrite !append_assoc. reflexivity. }
    destruct (c =? "*")%char eqn:Hstar.
    { apply Ascii.eqb_eq in Hstar. subst c.
      destruct (starts_with "*" src') eqn:Hsw.
      - (* a run of stars *)
        pose proof (skip_stars_length src') as Hsk.
        assert (Hsk' : strlen (skip_stars src') <= strlen src')
          by (unfold strlen; lia).
        apply (Hstep true (skip_stars src') ".*" true); [lia|lia|lia| | | ].
        + change (strlen ".*") with 2.
          pose proof (strlen_nonneg (skip_stars src')). lia.
        + now apply shell_body_stars.
        + now rewrite orb_true_r.
      - apply (Hstep hw src' "[^/]*" (snd (glob_spec f2' src')));
          [lia|lia|lia| | | ].
        + change (strlen "[^/]*") with 5. lia.
        + now apply shell_body_star.
        + reflexivity. }
    destruct (c =? "?")%char eqn:Hq.
    { apply (Hstep hw src' "." (snd (glob_spec f2' src')));
        [lia|lia|lia| | | ].
      - change (strlen ".") with 1. lia.
      - unfold shell_body. cbn [x_backslashed x_dest x_wildwild].
        rewrite Hstar, Hq. reflexivity.
      - reflexivity. }
    destruct (c =? "[")%char eqn:Hbr.
    { assert (Hbody :
                shell_body len {| x_backslashed := false; x_wildwild := hw;
                                  x_src := String c src'; x_dest := dest |}
                           c src'
                = Ok {| x_backslashed := false; x_wildwild := hw;
                        x_src := snd (bracket_spec src');
                        x_dest := dest ++ String "["
                                              (fst (bracket_spec src')) |}).
      { unfold shell_body. cbn [x_backslashed x_dest x_wildwild].
        rewrite Hstar, Hq, Hbr.
        apply Ascii.eqb_eq in Hbr. subst c.
        rewrite (bracket_expr_spec src' len dest) by lia.
        reflexivity. }
      apply Ascii.eqb_eq in Hbr. subst c.
      pose proof (bracket_expr_spec src' len dest) as Hbt.
      destruct (bracket_loop_ok (String "[" src') len (-1) false dest)
        as (s & d & Hb1 & Hb2 & Hb3).
      { rewrite strlen_cons. lia. }
      assert (Hb4 : ign___translate_bracketed_expr len (String "[" src') dest
                    = Ok (s, d)) by exact Hb1.
      rewrite Hbt in Hb4 by lia. injection Hb4 as Hs Hd.
      assert (Hshort : (String.length (snd (bracket_spec src'))
                        <= String.length src')%nat).
      { rewrite bracket_loop_first in Hb1.
        destruct (len - strlen (dest ++ "[") <? 5); [discriminate|].
        destruct (bracket_loop_ok src' len 0 false (dest ++ "["))
          as (s1 & d1 & Hc1 & _ & Hc3).
        { rewrite strlen_app. change (strlen "[") with 1. lia. }
        rewrite Hc1 in Hb1. injection Hb1 as Hs1 _. rewrite Hs, <- Hs1.
        exact Hc3. }
      apply (Hstep hw (snd (bracket_spec src'))
                   (String "[" (fst (bracket_spec src')))
                   (snd (glob_spec f2' (snd (bracket_spec src')))));
        [lia|lia|lia| | | ].
      - rewrite <- Hs, <- Hd in Hb2. rewrite strlen_cons in Hb2.
        rewrite strlen_app in Hb2.
        change ("[" ++ fst (bracket_spec src'))
          with (String "[" (fst (bracket_spec src'))) in Hb2.
        assert (Hsl : strlen (snd (bracket_spec src')) <= strlen src')
          by (unfold strlen; lia).
        pose proof (strlen_nonneg (snd (bracket_spec src'))). lia.
      - exact Hbody.
      - reflexivity. }
    unfold is_plain.
    destruct (is_alnum c || (c =? "/")%char || (c =? "-")%char) eqn:Hpl.
    { apply (Hstep hw src' (chr c) (snd (glob_spec f2' src')));
        [lia|lia|lia| | | ].
      - change (strlen (chr c)) with 1. lia.
      - unfold shell_body. cbn [x_backslashed x_dest x_wildwild].
        rewrite Hstar, Hq, Hbr, Hpl. reflexivity.
      - reflexivity. }
    apply (Hstep hw src' (String "\" (chr c)) (snd (glob_spec f2' src')));
      [lia|lia|lia| | | ].
    + change (strlen (String "\" (chr c))) with 2. lia.
    + unfold shell_body. cbn [x_backslashed x_dest x_wildwild].
      rewrite Hstar, Hq, Hbr, Hpl, Hbsl. reflexivity.
    + reflexivity.
Qed.

Lemma bracket_content_length :
  forall n s first,
    (String.length s <= n)%nat ->
    (String.length (snd (bracket_content first s)) <= String.length s)%nat.
Proof.
  intros n. induction n as [|n IH]; intros s first Hn.
  - destruct s; [simpl; lia|simpl in Hn; lia].
  - destruct s as [|c s]; [simpl; lia|]. simpl in Hn.
    simpl bracket_content.
    destruct (c =? "\")%char.
    + destruct s as [|e s]; [simpl; lia|]. simpl in Hn.
      pose proof (IH s false ltac:(lia)) as H.
      destruct (bracket_content false s) as [o r]. simpl in *. lia.
    + destruct ((c =? "]")%char && negb first); [simpl; lia|].
      pose proof (IH s false ltac:(lia)) as H.
      destruct (bracket_content false s) as [o r]. simpl in *. lia.
Qed.

Lemma bracket_spec_length :
  forall s,
    (String.length (snd (bracket_spec s)) <= String.length s)%nat.
Proof.
  intros s. unfold bracket_spec.
  pose proof (bracket_negations_length s) as H1.
  destruct (bracket_negations s) as [o1 r1]. simpl fst in H1. simpl snd in H1.
  pose proof (bracket_content_length (String.length r1) r1 true (le_n _)) as H2.
  destruct (bracket_content true r1) as [o2 r2]. simpl in *.
  pose proof (strlen_nonneg o1). unfold strlen in *. lia.
Qed.

Lemma glob_spec_fuel :
  forall n s f1 f2,
    (String.length s <= n)%nat ->
    (String.length s <= f1)%nat ->
    (String.length s <= f2)%nat ->
    glob_spec f1 s = glob_spec f2 s.
Proof.
  intros n. induction n as [|n IH]; intros s f1 f2 Hn H1 H2.
  - destruct s; [now rewrite !glob_spec_nil|simpl in Hn; lia].
  - destruct s as [|c s]; [now rewrite !glob_spec_nil|].
    destruct f1 as [|f1]; [simpl in H1; lia|].
    destruct f2 as [|f2]; [simpl in H2; lia|].
    simpl String.length in *. rewrite !glob_spec_S.
    pose proof (skip_stars_length s) as Hsk.
    pose proof (bracket_spec_length s) as Hbr.
    rewrite (IH s f1 f2) by lia.
    rewrite (IH (skip_stars s) f1 f2) by lia.
    rewrite (IH (snd (bracket_spec s)) f1 f2) by lia.
    destruct s as [|e s'']; [reflexivity|].
    simpl String.length in *.
    rewrite (IH s'' f1 f2) by lia. reflexivity.
Qed.

Lemma glob_text_cons :
  forall c s',
    glob_text (String c s')
    = if (c =? "\")%char then
        match s' with
        | String e s'' => prepend (String c (String e "")) (glob_text s'')
        | "" => (chr c, false)
        end
      else if (c =? "*")%char then
        if starts_with "*" s' then
          (".*" ++ fst (glob_text (skip_stars s')), true)
        else prepend "[^/]*" (glob_text s')
      else if (c =? "?")%char then prepend "." (glob_text s')
      else if (c =? "[")%char then
        prepend (String c (fst (bracket_spec s')))
                (glob_text (snd (bracket_spec s')))
      else if is_plain c then prepend (chr c) (glob_text s')
      else prepend (String "\" (chr c)) (glob_text s').
Proof.
  intros c s'. unfold glob_text. simpl String.length. rewrite glob_spec_S.
  pose proof (skip_stars_length s') as Hsk.
  pose proof (bracket_spec_length s') as Hbr.
  rewrite (glob_spec_fuel (String.length s') (skip_stars s')
             (String.length s') (String.length (skip_stars s'))) by lia.
  rewrite (glob_spec_fuel (String.length s') (snd (bracket_spec s'))
             (String.length s')
             (String.length (snd (bracket_spec s')))) by lia.
  destruct s' as [|e s'']; [reflexivity|].
  simpl String.length.
  rewrite (glob_spec_fuel (S (String.length s'')) s''
             (S (String.length s'')) (String.length s'')) by lia.
  reflexivity.
Qed.

(** The translator writes the documented translation, for every pattern
    and in the buffer that the code allocates. *)
Lemma translation_documented :
  forall pat p,
    p <> "" ->
    (String.length p <= String.length pat)%nat ->
    shell_to_pcre pat p
    = Ok (snd (glob_text p), anchor p (fst (glob_text p))).
Proof.
  intros pat p Hne Hlen. unfold shell_to_pcre.
  destruct (shell_loop_spec (String.length p) (String.length p)
              (String.length p) (strlen pat * 5 + 16)
              {| x_backslashed := false; x_wildwild := false;
                 x_src := p; x_dest := "" |}) as [bs' H];
    cbn [x_src x_dest x_wildwild x_backslashed]; try lia; try reflexivity.
  { unfold strlen. simpl String.length. lia. }
  unfold shell_cont in H. cbn [x_src x_dest x_wildwild] in H.
  destruct p as [|c p']; [contradiction|].
  rewrite H. reflexivity.
Qed.

Lemma translate_body_documented :
  forall s, translate_body s = fst (glob_text s).
Proof.
  intros s. unfold translate_body.
  destruct (shell_loop_spec (String.length s) (String.length s)
              (String.length s) (strlen s * 5 + 16)
              {| x_backslashed := false; x_wildwild := false;
                 x_src := s; x_dest := "" |}) as [bs' H];
    cbn [x_src x_dest x_wildwild x_backslashed]; try lia; try reflexivity.
  { unfold strlen. simpl String.length. lia. }
  rewrite H. reflexivity.
Qed.

(** ** Runs of stars in plain text *)

Lemma lex_run_bracket_nil :
  forall first esc, lex_run (LBracket first esc) "" <> LPlain.
Proof. intros first esc. simpl. discriminate. Qed.

Lemma bracket_negations_split :
  forall b rest,
    lex_run (LBracket true false) b = LPlain ->
    bracket_negations (b ++ rest)
    = (fst (bracket_negations b), snd (bracket_negations b) ++ rest)
    /\ lex_run (LBracket true false) (snd (bracket_negations b)) = LPlain.
Proof.
  intros b rest. induction b as [|c b IH]; intros H.
  - exfalso. revert H. apply lex_run_bracket_nil.
  - simpl append. simpl bracket_negations.
    destruct (is_negation c) eqn:Hc.
    + simpl in H. rewrite Hc in H. simpl in H.
      destruct (IH H) as [H1 H2]. rewrite H1.
      destruct (bracket_negations b) as [o r]. simpl in *. auto.
    + simpl. auto.
Qed.

Lemma bracket_content_split :
  forall n b first rest,
    (String.length b <= n)%nat ->
    lex_run (LBracket first false) b = LPlain ->
    (first = true -> match b with
                     | String c _ => is_negation c = false
                     | "" => True
                     end) ->
    bracket_content first (b ++ rest)
    = (fst (bracket_content first b), snd (bracket_content first b) ++ rest)
    /\ lex_run LPlain (snd (bracket_content first b)) = LPlain.
Proof.
  intros n. induction n as [|n IH]; intros b first rest Hn H Hf.
  - destruct b; [|simpl in Hn; lia].
    exfalso. revert H. apply lex_run_bracket_nil.
  - destruct b as [|c b].
    { exfalso. revert H. apply lex_run_bracket_nil. }
    simpl in Hn. simpl append. simpl bracket_content.
    simpl lex_run in H.
    assert (Hneg : first && is_negation c = false).
    { destruct first; [|reflexivity]. simpl. now apply Hf. }
    rewrite Hneg in H.
    destruct (c =? "\")%char eqn:Hbs.
    + assert (Hc : (c =? "]")%char = false).
      { apply Ascii.eqb_eq in Hbs. subst c. reflexivity. }
      rewrite Hc in H. simpl andb in H. cbv iota in H.
      destruct b as [|e b].
      { exfalso. revert H. apply lex_run_bracket_nil. }
      simpl in Hn. simpl lex_run in H. simpl append.
      destruct (IH b false rest ltac:(lia) H ltac:(discriminate)) as [H1 H2].
      rewrite H1.
      destruct (bracket_content false b) as [o r]. simpl in *. auto.
    + destruct ((c =? "]")%char && negb first) eqn:Hcl.
      * simpl. auto.
      * destruct (IH b false rest ltac:(lia) H ltac:(discriminate))
          as [H1 H2].
        rewrite H1.
        destruct (bracket_content false b) as [o r]. simpl in *. auto.
Qed.

Lemma bracket_spec_split :
  forall b rest,
    lex_run (LBracket true false) b = LPlain ->
    bracket_spec (b ++ rest)
    = (fst (bracket_spec b), snd (bracket_spec b) ++ rest)
    /\ lex_run LPlain (snd (bracket_spec b)) = LPlain.
Proof.
  intros b rest H. unfold bracket_spec.
  destruct (bracket_negations_split b rest H) as [H1 H2]. rewrite H1.
  pose proof (bracket_negations_stop b) as Hstop.
  destruct (bracket_negations b) as [o1 r1]. simpl fst in *. simpl snd in *.
  destruct (bracket_content_split (String.length r1) r1 true rest
              (le_n _) H2 (fun _ => Hstop)) as [H3 H4].
  rewrite H3.
  destruct (bracket_content true r1) as [o2 r2]. simpl in *. auto.
Qed.

Lemma lex_run_star :
  forall a,
    starts_with "*" a = false -> a <> "" ->
    lex_run LStar a = lex_run LPlain a.
Proof. intros [|c a] H Hne; [contradiction|reflexivity]. Qed.

(** A run of stars that does not reach the end of the text. *)
Lemma skip_stars_app :
  forall a rest,
    lex_run LStar a = LPlain ->
    skip_stars (a ++ rest) = skip_stars a ++ rest
    /\ lex_run LPlain (skip_stars a) = LPlain.
Proof.
  intros a rest. induction a as [|c a IH]; intros H; [discriminate|].
  simpl. destruct (c =? "*")%char eqn:Hc.
  - apply Ascii.eqb_eq in Hc. subst c. simpl in H. apply IH. exact H.
  - split; [reflexivity|].
    transitivity (lex_run LStar (String c a)); [|exact H].
    symmetry. apply lex_run_star; [|discriminate].
    simpl. exact Hc.
Qed.

Lemma skip_stars_run :
  forall n post,
    starts_with "*" post = false -> skip_stars (stars n ++ post) = post.
Proof.
  intros n post H. induction n as [|n IH].
  - simpl. destruct post as [|c post]; [reflexivity|].
    simpl in *. now rewrite H.
  - simpl. exact IH.
Qed.

Lemma surjective_prepend :
  forall d (r : string * bool) x w,
    prepend d (fst r ++ x, snd r || w) = (fst (prepend d r) ++ x,
                                          snd (prepend d r) || w).
Proof.
  intros d r x w. unfold prepend. simpl. now rewrite append_assoc.
Qed.

(** The translation of a text that ends in plain text, and not with a star
    that is a wildcard, does not depend on what follows. *)
Lemma glob_text_split :
  forall n pre rest,
    (String.length pre <= n)%nat ->
    lex_run LPlain pre = LPlain ->
    glob_text (pre ++ rest)
    = (fst (glob_text pre) ++ fst (glob_text rest),
       snd (glob_text pre) || snd (glob_text rest)).
Proof.
  intros n. induction n as [|n IH]; intros pre rest Hn Hlex.
  - destruct pre; [|simpl in Hn; lia].
    simpl. destruct (glob_text rest). reflexivity.
  - destruct pre as [|c pre'].
    { simpl. destruct (glob_text rest). reflexivity. }
    simpl in Hn. simpl append. rewrite !glob_text_cons.
    simpl lex_run in Hlex.
    destruct (c =? "\")%char eqn:Hbs.
    + destruct pre' as [|e pre'']; [simpl in Hlex; discriminate|].
      simpl in Hn. simpl lex_run in Hlex.
      change (String e pre'' ++ rest) with (String e (pre'' ++ rest)).
      cbv iota.
      rewrite (IH pre'' rest); [|lia|exact Hlex].
      apply surjective_prepend.
    + destruct (c =? "[")%char eqn:Hbr.
      * assert (Hstar : (c =? "*")%char = false).
        { apply Ascii.eqb_eq in Hbr. subst c. reflexivity. }
        assert (Hq : (c =? "?")%char = false).
        { apply Ascii.eqb_eq in Hbr. subst c. reflexivity. }
        rewrite Hstar, Hq.
        destruct (bracket_spec_split pre' rest Hlex) as [H1 H2].
        rewrite H1. cbn [fst snd].
        pose proof (bracket_spec_length pre') as Hlen.
        rewrite (IH (snd (bracket_spec pre')) rest); [|lia|exact H2].
        apply surjective_prepend.
      * destruct (c =? "*")%char eqn:Hstar.
        -- destruct pre' as [|b pre'']; [simpl in Hlex; discriminate|].
           change (starts_with "*" (String b pre'' ++ rest))
             with (starts_with "*" (String b pre'')).
           destruct (starts_with "*" (String b pre'')) eqn:Hsw.
           ++ destruct (skip_stars_app (String b pre'') rest Hlex)
                as [Hsk1 Hsk2].
              rewrite Hsk1.
              pose proof (skip_stars_length (String b pre'')) as Hsk.
              rewrite (IH (skip_stars (String b pre'')) rest);
                [|simpl String.length in *; lia|exact Hsk2].
              cbn [fst snd orb]. now rewrite append_assoc.
           ++ rewrite (IH (String b pre'') rest); [|lia|].
              ** apply surjective_prepend.
              ** transitivity (lex_run LStar (String b pre''));
                   [|exact Hlex].
                 symmetry. apply lex_run_star; [exact Hsw|discriminate].
        -- destruct (c =? "?")%char; [|destruct (is_plain c)];
             (rewrite (IH pre' rest);
              [apply surjective_prepend|lia|exact Hlex]).
Qed.

(** A star behind a backslash and the stars inside a bracket expression
    are literal characters, as the documentation of the patterns says,
    and no wildcards: in [./\**] the first star is copied and the second
    one is a single wildcard star, so [has_wildwildcard] stays 0 and the
    pattern stays within one directory level; [./[**]] is copied as a
    class. *)
Lemma escaped_star_run_is_one_level :
  shell_to_pcre "./\**" "./\**" = Ok (false, "\./\*[^/]*$")
  /\ has_wildwildcard (rule_of "./\**") = false
  /\ rule_matches "./\**" "./*b" = Some true
  /\ rule_matches "./\**" "./*b/c" = Some false
  /\ shell_to_pcre "./[**]" "./[**]" = Ok (false, "\./[**]$").
Proof. repeat split; vm_compute; reflexivity. Qed.

Lemma glob_text_star_run :
  forall n post,
    (2 <= n)%nat ->
    starts_with "*" post = false ->
    glob_text (stars n ++ post) = (".*" ++ fst (glob_text post), true).
Proof.
  intros n post Hn Hpost.
  destruct n as [|[|m]]; try lia.
  change (stars (S (S m)) ++ post)
    with (String "*" (String "*" (stars m ++ post))).
  rewrite glob_text_cons.
  change ("*" =? "\")%char with false. change ("*" =? "*")%char with true.
  cbv iota. change (starts_with "*" (String "*" (stars m ++ post))) with true.
  cbv iota.
  change (String "*" (stars m ++ post)) with (stars (S m) ++ post).
  now rewrite skip_stars_run.
Qed.

(** C7: a run of two or more wildcard stars (stars in plain text: a star
    behind a backslash and a star inside a bracket expression are literal
    characters; the run taken whole, with no wildcard star before and no
    star behind it) is translated, whole, to one [.*] between the
    translations of what stands before and behind it, and the pattern has
    [has_wildwildcard] set.  So [./a/**] matches [./a/b], [./a/b/c] and
    every path below [./a/]. *)
Theorem star_run_any_depth :
  (forall pat pre n post,
      lex_run LPlain pre = LPlain ->
      starts_with "*" post = false ->
      (2 <= n)%nat ->
      (String.length (pre ++ stars n ++ post) <= String.length pat)%nat ->
      shell_to_pcre pat (pre ++ stars n ++ post)
      = Ok (true,
            anchor (pre ++ stars n ++ post)
                   (translate_body pre ++ ".*" ++ translate_body post)))
  /\ shell_to_pcre "./a/**" "./a/**" = Ok (true, "\./a/.*$")
  /\ shell_to_pcre "./a/****" "./a/****" = Ok (true, "\./a/.*$")
  /\ has_wildwildcard (rule_of "./a/**") = true
  /\ rule_matches "./a/**" "./a/b" = Some true
  /\ rule_matches "./a/**" "./a/b/c" = Some true
  /\ (forall rest, rule_matches "./a/**" ("./a/" ++ rest) = Some true).
Proof.
  split.
  { intros pat pre n post Hlex Hpost Hn Hlen.
    rewrite translation_documented; [|destruct pre; [|discriminate]|exact Hlen].
    2:{ destruct n as [|m]; [lia|discriminate]. }
    rewrite (glob_text_split (String.length pre) pre (stars n ++ post)
               (le_n _) Hlex).
    rewrite (glob_text_star_run n post Hn Hpost).
    cbn [fst snd]. rewrite orb_true_r.
    rewrite !translate_body_documented. reflexivity. }
  split; [vm_compute; reflexivity|].
  split; [vm_compute; reflexivity|].
  split; [vm_compute; reflexivity|].
  split; [vm_compute; reflexivity|].
  split; [vm_compute; reflexivity|].
  intros rest. compiled_rule "./a/**".
  cbn -[Regex.star]. rewrite star_any_end. reflexivity.
Qed.

Lemma star_run_any_depth_witness :
  shell_to_pcre "t./[*]\*/x***.bak" ("./[*]\*/x" ++ stars 3 ++ ".bak")
  = Ok (true,
        anchor ("./[*]\*/x" ++ stars 3 ++ ".bak")
               (translate_body "./[*]\*/x" ++ ".*" ++ translate_body ".bak")).
Proof.
  apply (proj1 star_run_any_depth "t./[*]\*/x***.bak" "./[*]\*/x" 3%nat
               ".bak").
  - reflexivity.
  - reflexivity.
  - lia.
  - simpl. lia.
Defined.

Lemma glob_text_single_star :
  forall post,
    starts_with "*" post = false ->
    glob_text (String "*" post) = prepend "[^/]*" (glob_text post).
Proof.
  intros post H. rewrite glob_text_cons.
  change ("*" =? "\")%char with false. change ("*" =? "*")%char with true.
  cbv iota. now rewrite H.
Qed.

(** C6: a single star that the translator reaches in plain text is
    translated to [[^/]*], "any characters but the separator", between
    the translations of what stands before and behind it.  [./a/*] is
    translated to [\./a/[^/]*$]; it matches [./a/b] and [./a/.hidden] and
    not [./a/b/c], and below [./a/] exactly the names without a
    separator. *)
Theorem single_star_stays_in_directory :
  (forall pat pre post,
      lex_run LPlain pre = LPlain ->
      starts_with "*" post = false ->
      (String.length (pre ++ "*" ++ post) <= String.length pat)%nat ->
      exists hww,
        shell_to_pcre pat (pre ++ "*" ++ post)
        = Ok (hww,
              anchor (pre ++ "*" ++ post)
                     (translate_body pre ++ "[^/]*" ++ translate_body post)))
  /\ shell_to_pcre "./a/*" "./a/*" = Ok (false, "\./a/[^/]*$")
  /\ rule_matches "./a/*" "./a/b" = Some true
  /\ rule_matches "./a/*" "./a/.hidden" = Some true
  /\ rule_matches "./a/*" "./a/b/c" = Some false
  /\ (forall name,
         rule_matches "./a/*" ("./a/" ++ name)
         = Some (negb (has_char PATH_SEPARATOR name))).
Proof.
  split.
  { intros pat pre post Hlex Hpost Hlen.
    rewrite translation_documented; [|destruct pre; discriminate|exact Hlen].
    rewrite (glob_text_split (String.length pre) pre ("*" ++ post)
               (le_n _) Hlex).
    change ("*" ++ post) with (String "*" post).
    rewrite (glob_text_single_star post Hpost).
    unfold prepend. cbn [fst snd].
    rewrite !translate_body_documented. eexists. reflexivity. }
  split; [vm_compute; reflexivity|].
  split; [vm_compute; reflexivity|].
  split; [vm_compute; reflexivity|].
  split; [vm_compute; reflexivity|].
  intros name. compiled_rule "./a/*".
  cbn -[Regex.star]. rewrite star_no_separator_end.
  unfold PATH_SEPARATOR. destruct (has_char "/" name); reflexivity.
Qed.

Lemma single_star_stays_in_directory_witness :
  exists hww,
    shell_to_pcre "./[ab]/*.txt" ("./[ab]/" ++ "*" ++ ".txt")
    = Ok (hww,
          anchor ("./[ab]/" ++ "*" ++ ".txt")
                 (translate_body "./[ab]/" ++ "[^/]*"
                  ++ translate_body ".txt")).
Proof.
  apply (proj1 single_star_stays_in_directory "./[ab]/*.txt" "./[ab]/"
               ".txt").
  - reflexivity.
  - reflexivity.
  - simpl. lia.
Defined.

(** ** What a verdict rests on *)

Lemma ign_scan_decided :
  forall (E : Pcre) (ilist more : list ignore_t) (sts dir : estat)
         (status st v : Z),
    ign_scan status ilist sts dir = (st, v) ->
    st <> 0 \/ v <> 0 ->
    ign_scan status (ilist ++ more) sts dir = (st, v).
Proof.
  intros E ilist more sts dir.
  induction ilist as [|ign ilist IH]; intros status st v H Hd.
  - simpl in H. injection H as <- <-. destruct Hd; contradiction.
  - change ((ign :: ilist) ++ more)%list with (ign :: (ilist ++ more))%list.
    cbn [ign_scan] in *.
    set (s' := ign_test status ign sts dir) in *.
    destruct (type ign);
      repeat match goal with
             | |- context [if ?b then _ else _] => destruct b
             end;
      try exact H; apply IH; assumption.
Qed.

(** X1: the verdict on an entry that a list decides, and the status of a match
    that fails, stay what they are when patterns are put behind the list. *)
Theorem verdict_survives_append :
  forall (E : Pcre) (ilist more : list ignore_t) (sts : estat) (st v : Z),
    ign__is_ignore ilist sts = (st, v) ->
    st <> 0 \/ v <> 0 ->
    ign__is_ignore (ilist ++ more) sts = (st, v).
Proof.
  intros E ilist more sts st v H Hd. unfold ign__is_ignore in *.
  destruct (parent sts) as [dir|]; [|exact H].
  destruct (ftype sts); [exact H|].
  apply ign_scan_decided; assumption.
Qed.

Lemma verdict_survives_append_witness :
  ign__is_ignore ([rule_of "./tmp/**"] ++ [rule_of "t./tmp/keep"])
                 (file_entry_at "./tmp/keep" (MKDEV 8 1))
  = (0, 1).
Proof.
  apply (verdict_survives_append PcreFragment [rule_of "./tmp/**"]
           [rule_of "t./tmp/keep"] (file_entry_at "./tmp/keep" (MKDEV 8 1))
           0 1).
  - vm_compute. reflexivity.
  - right. discriminate.
Defined.

Lemma ign_scan_cause :
  forall (E : Pcre) (ilist : list ignore_t) (sts dir : estat)
         (status st v : Z),
    ign_scan status ilist sts dir = (st, v) ->
    v <> 0 ->
    st = 0
    /\ exists pre r post s,
        ilist = (pre ++ r :: post)%list
        /\ scan_miss status pre sts dir = Some s
        /\ ign_test s r sts dir = 0
        /\ v = (if is_ignore r then 1 else -1).
Proof.
  intros E ilist sts dir.
  induction ilist as [|ign ilist IH]; intros status st v H Hv.
  - simpl in H. injection H as <- <-. contradiction.
  - cbn [ign_scan] in H.
    assert (Hhit : ign_test status ign sts dir = 0 ->
                   (st, v) = (0, if is_ignore ign then 1 else -1) ->
                   st = 0
                   /\ exists pre r post s,
                       (ign :: ilist) = (pre ++ r :: post)%list
                       /\ scan_miss status pre sts dir = Some s
                       /\ ign_test s r sts dir = 0
                       /\ v = (if is_ignore r then 1 else -1)).
    { intros Ht Heq. injection Heq as -> ->. split; [reflexivity|].
      exists [], ign, ilist, status. repeat split. exact Ht. }
    assert (Hnext : forall s1,
               s1 = ign_test status ign sts dir ->
               (s1 =? 0) = false ->
               match type ign with
               | PT_SHELL | PT_PCRE => (s1 =? PCRE_ERROR_NOMATCH) = true
               | _ => True
               end ->
               ign_scan s1 ilist sts dir = (st, v) ->
               st = 0
               /\ exists pre r post s,
                   (ign :: ilist) = (pre ++ r :: post)%list
                   /\ scan_miss status pre sts dir = Some s
                   /\ ign_test s r sts dir = 0
                   /\ v = (if is_ignore r then 1 else -1)).
    { intros s1 Hs1 Hz Hty Hscan.
      destruct (IH s1 st v Hscan Hv) as (Hst & pre & r & post & s & H1 & H2 & H3 & H4).
      split; [exact Hst|].
      exists (ign :: pre), r, post, s. split; [now rewrite H1|].
      split; [|split; assumption].
      cbn [scan_miss]. rewrite <- Hs1. rewrite Hz.
      destruct (type ign); try exact H2; rewrite Hty; exact H2. }
    set (s' := ign_test status ign sts dir) in *.
    destruct (s' =? 0) eqn:Hz.
    + apply Z.eqb_eq in Hz. apply (Hhit Hz).
      destruct (type ign); cbn [negb andb] in H; symmetry; exact H.
    + destruct (type ign) eqn:Hty; cbn [negb andb] in H.
      * destruct (s' =? PCRE_ERROR_NOMATCH) eqn:Hn; cbn [negb] in H.
        -- apply (Hnext s' eq_refl Hz Hn H).
        -- injection H as <- <-. contradiction.
      * destruct (s' =? PCRE_ERROR_NOMATCH) eqn:Hn; cbn [negb] in H.
        -- apply (Hnext s' eq_refl Hz Hn H).
        -- injection H as <- <-. contradiction.
      * apply (Hnext s' eq_refl Hz I H).
      * apply (Hnext s' eq_refl Hz I H).
Qed.

(** X2: an entry is ignored or taken only for a reason: with status 0, and
    because of the first pattern of the list that matches it, an ignore
    pattern for an ignored entry and a take pattern for a taken one --
    unless its file type alone has it ignored. *)
Theorem verdict_has_a_cause :
  forall (E : Pcre) (ilist : list ignore_t) (sts : estat) (st v : Z),
    ign__is_ignore ilist sts = (st, v) ->
    v <> 0 ->
    st = 0
    /\ exists dir,
        parent sts = Some dir
        /\ ((ftype sts = FT_IGNORE /\ v = 1)
            \/ (ftype sts = FT_OTHER
                /\ exists pre r post s,
                    ilist = (pre ++ r :: post)%list
                    /\ scan_miss 0 pre sts dir = Some s
                    /\ ign_test s r sts dir = 0
                    /\ v = (if is_ignore r then 1 else -1))).
Proof.
  intros E ilist sts st v H Hv. unfold ign__is_ignore in H.
  destruct (parent sts) as [dir|].
  - destruct (ftype sts) eqn:Hf.
    + injection H as <- <-. split; [reflexivity|].
      exists dir. split; [reflexivity|]. left. split; reflexivity.
    + destruct (ign_scan_cause E ilist sts dir 0 st v H Hv) as [Hst Hc].
      split; [exact Hst|]. exists dir. split; [reflexivity|].
      right. split; [reflexivity|exact Hc].
  - injection H as <- <-. contradiction.
Qed.

Lemma verdict_has_a_cause_witness :
  0 = 0
  /\ exists dir,
      parent (file_entry_at "./tmp/keep" (MKDEV 8 1)) = Some dir
      /\ ((ftype (file_entry_at "./tmp/keep" (MKDEV 8 1)) = FT_IGNORE
           /\ -1 = 1)
          \/ (ftype (file_entry_at "./tmp/keep" (MKDEV 8 1)) = FT_OTHER
              /\ exists pre r post s,
                  [rule_of "./x"; rule_of "t./tmp/keep"]
                  = (pre ++ r :: post)%list
                  /\ scan_miss 0 pre (file_entry_at "./tmp/keep" (MKDEV 8 1))
                               dir = Some s
                  /\ ign_test s r (file_entry_at "./tmp/keep" (MKDEV 8 1))
                              dir = 0
                  /\ -1 = (if is_ignore r then 1 else -1))).
Proof.
  apply (verdict_has_a_cause PcreFragment
           [rule_of "./x"; rule_of "t./tmp/keep"]
           (file_entry_at "./tmp/keep" (MKDEV 8 1)) 0 (-1)).
  - vm_compute. reflexivity.
  - discriminate.
Defined.

(** ** What the parser accepts *)

Section Texts.

Context {E : Pcre}.

Lemma init_white_space :
  forall ws p,
    all_chars isspace ws = true ->
    ign___init_pattern_into (ws ++ p) None = ign___init_pattern_into p None.
Proof.
  intros ws p. induction ws as [|c ws IH]; intros H; [reflexivity|].
  simpl in H. apply andb_true_iff in H. destruct H as [Hc Hws].
  change (String c ws ++ p) with (String c (ws ++ p)).
  rewrite <- (init_ends_big (String c (ws ++ p)) (strlen (ws ++ p) + 1))
    by (rewrite strlen_cons; lia).
  rewrite (init_space_shift c (ws ++ p) _ Hc) by lia.
  apply IH. exact Hws.
Qed.

(** X3: white space before a pattern is passed over: the text with it and the
    text without it give the same pattern, or are refused alike; a text of
    white space only is refused.  ([end], when given, lies behind the
    text.) *)
Theorem leading_white_space_is_skipped :
  forall (ws p : string) (ends : option Z),
    all_chars isspace ws = true ->
    match ends with
    | Some e => strlen (ws ++ p) <= e
    | None => True
    end ->
    ign___init_pattern_into (ws ++ p) ends = ign___init_pattern_into p None
    /\ ign___init_pattern_into ws ends = Err EINVAL.
Proof.
  intros ws p ends Hws He.
  assert (H1 : ign___init_pattern_into (ws ++ p) ends
               = ign___init_pattern_into (ws ++ p) None).
  { destruct ends as [e|]; [|reflexivity]. apply init_ends_big. exact He. }
  assert (H2 : ign___init_pattern_into ws ends
               = ign___init_pattern_into ws None).
  { destruct ends as [e|]; [|reflexivity]. apply init_ends_big.
    rewrite strlen_app in He. pose proof (strlen_nonneg p). lia. }
  split.
  - rewrite H1. apply init_white_space. exact Hws.
  - rewrite H2. rewrite <- (append_nil_r ws).
    rewrite (init_white_space ws "" Hws). apply init_empty.
Qed.

Lemma modifiers_sense :
  forall s e o a b,
    modifiers e o a b s
    = match modifiers e o true b s with
      | Ok (a', b', q) => Ok (a && a', b', q)
      | Err x => Err x
      | Abort => Abort
      end.
Proof.
  intros s. induction s as [|c s IH]; intros e o a b.
  - simpl. now rewrite andb_true_r.
  - simpl. destruct (c =? "t")%char.
    + destruct (e <=? o + 1); [reflexivity|].
      rewrite (IH e (o + 1) false b).
      destruct (modifiers e (o + 1) true b s) as [[[a' b'] q]| |];
        try reflexivity.
      cbn [andb]. now rewrite andb_false_r.
    + destruct (c =? "i")%char.
      * destruct (e <=? o + 1); [reflexivity|]. apply IH.
      * now rewrite andb_true_r.
Qed.

Lemma init_kind_text_sense :
  forall raw1 raw2 ig1 ig2 icase q,
    strlen q <= strlen raw1 ->
    strlen q <= strlen raw2 ->
    init_kind raw2 ig2 icase q
    = match init_kind raw1 ig1 icase q with
      | Ok ign => Ok (with_text_sense raw2 ig2 ign)
      | Err e => Err e
      | Abort => Abort
      end.
Proof.
  intros raw1 raw2 ig1 ig2 icase q H1 H2. unfold init_kind.
  assert (Hregex : forall ty p,
             (ty = PT_PCRE \/ (ty = PT_SHELL /\ p = q)) ->
             init_regex raw2 ig2 icase ty p
             = match init_regex raw1 ig1 icase ty p with
               | Ok ign => Ok (with_text_sense raw2 ig2 ign)
               | Err e => Err e
               | Abort => Abort
               end).
  { intros ty p Hty. unfold init_regex.
    destruct (strlen p <? 3) eqn:H3; [reflexivity|].
    apply Z.ltb_ge in H3.
    assert (Hc : ign__compile_pattern ty icase raw2 p
                 = ign__compile_pattern ty icase raw1 p).
    { unfold ign__compile_pattern. destruct Hty as [->|[-> ->]].
      - reflexivity.
      - assert (Hne : q <> "").
        { intros ->. unfold strlen in H3. simpl in H3. lia. }
        rewrite (translation_documented raw1 q Hne)
          by (unfold strlen in H1; lia).
        rewrite (translation_documented raw2 q Hne)
          by (unfold strlen in H2; lia).
        reflexivity. }
    rewrite Hc.
    destruct (ign__compile_pattern ty icase raw1 p) as [[[cmp hww] re]| |];
      reflexivity. }
  destruct (strip_prefix "DEVICE:" q) as [rest|].
  { unfold init_device.
    destruct (comparators PAT_DEV__UNSPECIFIED rest) as [cmp0 p1].
    destruct (strtoul p1) as [[mj cp]|]; [|reflexivity].
    destruct cp as [|c p2]; [reflexivity|].
    destruct (c =? ":")%char; [|reflexivity]. simpl negb. cbv iota.
    destruct (strtoul p2) as [[mn cp']|]; [|reflexivity].
    destruct cp'; reflexivity. }
  destruct (strip_prefix "INODE:" q) as [rest|].
  { unfold init_inode.
    destruct (number_colon rest) as [[mj p1]| |]; try reflexivity.
    cbn [bind].
    destruct (number_colon p1) as [[mn p2]| |]; try reflexivity.
    cbn [bind].
    destruct (strtoull p2) as [[i cp]|]; [|reflexivity].
    destruct cp; reflexivity. }
  destruct (strip_prefix "PCRE:" q) as [rest|].
  { apply Hregex. now left. }
  destruct (strip_prefix "./" q); [|reflexivity].
  apply Hregex. right. split; reflexivity.
Qed.

(** A character of white space is none of the characters that a pattern
    can start with behind its modifiers. *)
Lemma space_starts_no_pattern :
  forall (c : ascii) (rest : string),
    isspace c = true ->
    (c =? "t")%char = false
    /\ (c =? "i")%char = false
    /\ strip_prefix "DEVICE:" (String c rest) = None
    /\ strip_prefix "INODE:" (String c rest) = None
    /\ strip_prefix "PCRE:" (String c rest) = None
    /\ strip_prefix "./" (String c rest) = None.
Proof.
  intros c rest Hc.
  assert (Hne : forall d, isspace d = false -> (d =? c)%char = false).
  { intros d Hd. apply Ascii.eqb_neq. intros ->. congruence. }
  split; [rewrite Ascii.eqb_sym; now apply Hne|].
  split; [rewrite Ascii.eqb_sym; now apply Hne|].
  cbn [strip_prefix].
  rewrite (Hne "D"%char eq_refl), (Hne "I"%char eq_refl),
    (Hne "P"%char eq_refl), (Hne "."%char eq_refl).
  repeat split.
Qed.

(** X4: for a text that does not start with white space, the modifier [t]
    changes the sense of the pattern and nothing else: the text with a [t]
    before it is accepted exactly when the text itself is, and gives the
    same pattern as a take pattern (the same kind, the same compiled
    expression, the same numbers).  White space is passed over before the
    modifiers only: a [t] before a text that starts with white space is
    refused with [EINVAL], also when the text itself is accepted. *)
Theorem take_modifier_changes_only_the_sense :
  (forall p : string,
      starts_space p = false ->
      ign___init_pattern_into (String "t" p) None
      = match ign___init_pattern_into p None with
        | Ok ign => Ok (with_text_sense (String "t" p) false ign)
        | Err e => Err e
        | Abort => Abort
        end)
  /\ (forall p : string,
         starts_space p = true ->
         ign___init_pattern_into (String "t" p) None = Err EINVAL).
Proof.
  split.
  - intros p Hsp. destruct p as [|c p'].
    { reflexivity. }
    set (p := String c p') in *.
    assert (Hpos : 0 < strlen p).
    { unfold p. rewrite strlen_cons. pose proof (strlen_nonneg p'). lia. }
    unfold ign___init_pattern_into.
    rewrite (skip_white_nospace p _ 0 Hsp). cbn [bind].
    rewrite strlen_cons.
    change (skip_white (strlen p + 1) 0 (String "t" p))
      with (@Ok (Z * string) (0, String "t" p)).
    cbn [bind].
    change (modifiers (strlen p + 1) 0 true false (String "t" p))
      with (if strlen p + 1 <=? 0 + 1 then Err EINVAL
            else modifiers (strlen p + 1) (0 + 1) false false p).
    replace (strlen p + 1 <=? 0 + 1) with false
      by (symmetry; apply Z.leb_gt; lia).
    rewrite modifiers_shift. rewrite modifiers_sense.
    destruct (modifiers_result p (strlen p) 0 true false)
      as [(a' & b' & q & Hm & Hq)|Hm]; rewrite Hm; [|reflexivity].
    cbn [bind andb].
    apply init_kind_text_sense; [exact Hq|rewrite strlen_cons; lia].
  - intros p Hsp. destruct p as [|c rest]; [discriminate|].
    cbn [starts_space] in Hsp.
    destruct (space_starts_no_pattern c rest Hsp)
      as (Ht & Hi & HD & HI & HP & HS).
    unfold ign___init_pattern_into.
    rewrite !strlen_cons.
    change (skip_white (strlen rest + 1 + 1) 0 (String "t" (String c rest)))
      with (@Ok (Z * string) (0, String "t" (String c rest))).
    cbn [bind].
    change (modifiers (strlen rest + 1 + 1) 0 true false
                      (String "t" (String c rest)))
      with (if strlen rest + 1 + 1 <=? 0 + 1 then Err EINVAL
            else modifiers (strlen rest + 1 + 1) (0 + 1) false false
                           (String c rest)).
    replace (strlen rest + 1 + 1 <=? 0 + 1) with false
      by (symmetry; apply Z.leb_gt; pose proof (strlen_nonneg rest); lia).
    cbn [modifiers]. rewrite Ht, Hi. cbn [bind].
    unfold init_kind. rewrite HD, HI, HP, HS. reflexivity.
Qed.

Lemma skip_white_split :
  forall p e o off raw,
    skip_white e o p = Ok (off, raw) ->
    exists ws, p = ws ++ raw /\ all_chars isspace ws = true.
Proof.
  intros p. induction p as [|c p IH]; intros e o off raw H.
  - simpl in H. injection H as <- <-. exists "". split; reflexivity.
  - simpl in H. destruct (isspace c) eqn:Hc.
    + destruct (e <=? o + 1); [discriminate|].
      destruct (IH _ _ _ _ H) as (ws & -> & Hws).
      exists (String c ws). split; [reflexivity|]. simpl. now rewrite Hc.
    + injection H as <- <-. exists "". split; reflexivity.
Qed.

Lemma modifiers_split :
  forall s e o a b a' b' q,
    modifiers e o a b s = Ok (a', b', q) ->
    exists mods,
      s = mods ++ q
      /\ all_chars is_modifier mods = true
      /\ starts_modifier q = false
      /\ a' = a && negb (has_char "t" mods)
      /\ b' = b || has_char "i" mods.
Proof.
  intros s. induction s as [|c s IH]; intros e o a b a' b' q H.
  - simpl in H. injection H as <- <- <-. exists "".
    repeat split; simpl; [now rewrite andb_true_r|now rewrite orb_false_r].
  - simpl in H. destruct (c =? "t")%char eqn:Ht.
    + destruct (e <=? o + 1); [discriminate|].
      destruct (IH _ _ _ _ _ _ _ H) as (mods & -> & H1 & H2 & H3 & H4).
      apply Ascii.eqb_eq in Ht. subst c.
      exists (String "t" mods). split; [reflexivity|].
      split; [simpl; exact H1|]. split; [exact H2|].
      split; [simpl; now rewrite andb_false_r|].
      simpl. exact H4.
    + destruct (c =? "i")%char eqn:Hi.
      * destruct (e <=? o + 1); [discriminate|].
        destruct (IH _ _ _ _ _ _ _ H) as (mods & -> & H1 & H2 & H3 & H4).
        apply Ascii.eqb_eq in Hi. subst c.
        exists (String "i" mods). split; [reflexivity|].
        split; [simpl; exact H1|]. split; [exact H2|].
        split; [simpl; exact H3|].
        simpl. rewrite H4. now rewrite orb_true_r.
      * injection H as <- <- <-. exists "".
        split; [reflexivity|]. split; [reflexivity|].
        split; [unfold starts_modifier, is_modifier; now rewrite Ht, Hi|].
        split; simpl; [now rewrite andb_true_r|now rewrite orb_false_r].
Qed.

Lemma init_kind_shape :
  forall raw ignore icase q ign,
    init_kind raw ignore icase q = Ok ign ->
    pattern ign = raw /\ is_ignore ign = ignore /\ is_icase ign = icase
    /\ is_user_pat ign = false
    /\ match type ign with
       | PT_DEVICE =>
           (exists r, q = "DEVICE:" ++ r) /\ compare_string ign = q
       | PT_INODE =>
           (exists r, q = "INODE:" ++ r) /\ compare_string ign = q
       | PT_PCRE =>
           exists r, q = "PCRE:" ++ r /\ 3 <= strlen r
       | PT_SHELL =>
           (exists r, q = "./" ++ r) /\ 3 <= strlen q
       end.
Proof.
  intros raw ignore icase q ign H. unfold init_kind in H.
  destruct (strip_prefix "DEVICE:" q) as [rest|] eqn:Hd.
  { apply strip_prefix_some in Hd. unfold init_device in H.
    destruct (comparators PAT_DEV__UNSPECIFIED rest) as [cmp0 p1].
    destruct (strtoul p1) as [[mj cp]|]; [|discriminate].
    destruct cp as [|c p2].
    - injection H as <-. cbn. repeat split. now exists rest.
    - destruct (c =? ":")%char; [|discriminate]. simpl negb in H.
      cbv iota in H.
      destruct (strtoul p2) as [[mn cp']|]; [|discriminate].
      destruct cp'; [|discriminate].
      injection H as <-. cbn. repeat split. now exists rest. }
  destruct (strip_prefix "INODE:" q) as [rest|] eqn:Hi.
  { apply strip_prefix_some in Hi. unfold init_inode in H.
    destruct (number_colon rest) as [[mj p1]| |]; try discriminate.
    cbn [bind] in H.
    destruct (number_colon p1) as [[mn p2]| |]; try discriminate.
    cbn [bind] in H.
    destruct (strtoull p2) as [[i cp]|]; [|discriminate].
    destruct cp; [|discriminate].
    injection H as <-. cbn. repeat split. now exists rest. }
  assert (Hregex : forall ty p,
             init_regex raw ignore icase ty p = Ok ign ->
             pattern ign = raw /\ is_ignore ign = ignore
             /\ is_icase ign = icase /\ is_user_pat ign = false
             /\ type ign = ty /\ 3 <= strlen p).
  { intros ty p Hr. unfold init_regex in Hr.
    destruct (strlen p <? 3) eqn:H3; [discriminate|].
    apply Z.ltb_ge in H3.
    destruct (ign__compile_pattern ty icase raw p) as [[[cmp hww] re]| |];
      try discriminate.
    cbn [bind] in Hr. injection Hr as <-. cbn. repeat split. exact H3. }
  destruct (strip_prefix "PCRE:" q) as [rest|] eqn:Hp.
  { apply strip_prefix_some in Hp.
    destruct (Hregex _ _ H) as (H1 & H2 & H3 & H4 & H5 & H6).
    repeat (split; [assumption|]). rewrite H5.
    exists rest. split; assumption. }
  destruct (strip_prefix "./" q) as [rest|] eqn:Hs; [|discriminate].
  apply strip_prefix_some in Hs.
  destruct (Hregex _ _ H) as (H1 & H2 & H3 & H4 & H5 & H6).
  repeat (split; [assumption|]). rewrite H5.
  split; [now exists rest|assumption].
Qed.

(** X5: what an accepted text looks like: white space, then modifiers, then
    one of the four kinds of patterns, told by its first characters
    ([DEVICE:], [INODE:], [PCRE:] or [./]); white space is not kept in the
    text of the pattern; the pattern is a take pattern exactly when [t] is
    among the modifiers, and case is ignored exactly when [i] is; a regular
    expression has three characters or more, and so has a shell
    pattern. *)
Theorem accepted_pattern_shape :
  forall (text : string) (ends : option Z) (ign : ignore_t),
    ign___init_pattern_into text ends = Ok ign ->
    exists ws mods q,
      text = ws ++ mods ++ q
      /\ all_chars isspace ws = true
      /\ all_chars is_modifier mods = true
      /\ starts_modifier q = false
      /\ pattern ign = mods ++ q
      /\ is_ignore ign = negb (has_char "t" mods)
      /\ is_icase ign = has_char "i" mods
      /\ is_user_pat ign = false
      /\ match type ign with
         | PT_DEVICE =>
             (exists r, q = "DEVICE:" ++ r) /\ compare_string ign = q
         | PT_INODE =>
             (exists r, q = "INODE:" ++ r) /\ compare_string ign = q
         | PT_PCRE =>
             exists r, q = "PCRE:" ++ r /\ 3 <= strlen r
         | PT_SHELL =>
             (exists r, q = "./" ++ r) /\ 3 <= strlen q
         end.
Proof.
  intros text ends ign H. unfold ign___init_pattern_into in H.
  set (end_ := match ends with
               | Some e => if strlen text <? e then strlen text else e
               | None => strlen text
               end) in H.
  destruct (skip_white end_ 0 text) as [[off raw]| |] eqn:Hw;
    try discriminate.
  cbn [bind] in H.
  destruct (modifiers end_ off true false raw) as [[[a' b'] q]| |] eqn:Hm;
    try discriminate.
  cbn [bind] in H.
  destruct (skip_white_split _ _ _ _ _ Hw) as (ws & Htext & Hws).
  destruct (modifiers_split _ _ _ _ _ _ _ _ Hm)
    as (mods & Hraw & Hmods & Hq & Ha & Hb).
  destruct (init_kind_shape _ _ _ _ _ H) as (H1 & H2 & H3 & H4 & H5).
  exists ws, mods, q.
  split; [now rewrite Htext, Hraw|].
  split; [exact Hws|]. split; [exact Hmods|]. split; [exact Hq|].
  split; [now rewrite H1|].
  split; [now rewrite H2, Ha|].
  split; [now rewrite H3, Hb|].
  split; [exact H4|exact H5].
Qed.

End Texts.

Lemma leading_white_space_is_skipped_witness :
  ign___init_pattern_into (E := PcreFragment) (String LF " " ++ "t./tmp/*")
                          (Some 20)
  = ign___init_pattern_into "t./tmp/*" None
  /\ ign___init_pattern_into (E := PcreFragment) (String LF " ") (Some 20)
     = Err EINVAL.
Proof.
  apply (leading_white_space_is_skipped (E := PcreFragment)
           (String LF " ") "t./tmp/*" (Some 20)).
  - reflexivity.
  - vm_compute. discriminate.
Defined.

Lemma take_modifier_changes_only_the_sense_witness :
  ign___init_pattern_into (E := PcreFragment) (String "t" "./proc/stat") None
  = match ign___init_pattern_into "./proc/stat" None with
    | Ok ign => Ok (with_text_sense (String "t" "./proc/stat") false ign)
    | Err e => Err e
    | Abort => Abort
    end.
Proof.
  apply (proj1 (take_modifier_changes_only_the_sense (E := PcreFragment))
               "./proc/stat").
  reflexivity.
Defined.

Lemma accepted_pattern_shape_witness :
  exists ws mods q,
    " it./Proc/*" = ws ++ mods ++ q
    /\ all_chars isspace ws = true
    /\ all_chars is_modifier mods = true
    /\ starts_modifier q = false
    /\ pattern (set_user_pat false (rule_of " it./Proc/*")) = mods ++ q
    /\ is_ignore (set_user_pat false (rule_of " it./Proc/*"))
       = negb (has_char "t" mods)
    /\ is_icase (set_user_pat false (rule_of " it./Proc/*"))
       = has_char "i" mods
    /\ is_user_pat (set_user_pat false (rule_of " it./Proc/*")) = false
    /\ match type (set_user_pat false (rule_of " it./Proc/*")) with
       | PT_DEVICE =>
           (exists r, q = "DEVICE:" ++ r)
           /\ compare_string (set_user_pat false (rule_of " it./Proc/*")) = q
       | PT_INODE =>
           (exists r, q = "INODE:" ++ r)
           /\ compare_string (set_user_pat false (rule_of " it./Proc/*")) = q
       | PT_PCRE =>
           exists r, q = "PCRE:" ++ r /\ 3 <= strlen r
       | PT_SHELL =>
           (exists r, q = "./" ++ r) /\ 3 <= strlen q
       end.
Proof.
  apply (accepted_pattern_shape (E := PcreFragment) " it./Proc/*" None
           (set_user_pat false (rule_of " it./Proc/*"))).
  vm_compute. reflexivity.
Defined.

(** ** Device patterns, for every number and every comparator *)

Lemma print_u_first :
  forall n : nat,
    (0 < n)%nat ->
    exists c s, print_u n = String c s
                /\ is_digit c = true /\ (c =? "0")%char = false.
Proof.
  intros n Hn. unfold print_u.
  assert (Hnorm : unorm (Nat.to_uint n) = Nat.to_uint n).
  { rewrite <- (Unsigned.to_of (Nat.to_uint n)).
    now rewrite Unsigned.of_to. }
  destruct (Nat.to_uint n) as [|d|d|d|d|d|d|d|d|d|d] eqn:Hd;
    try (simpl; eexists _, _; split; [reflexivity|split; reflexivity]).
  - exfalso. apply (DecimalFacts.unorm_nonnil Nil). exact Hnorm.
  - exfalso. rewrite DecimalFacts.unorm_D0 in Hnorm.
    destruct d as [|u|u|u|u|u|u|u|u|u|u].
    2-11: (match type of Hnorm with
           | unorm ?x = _ =>
               pose proof (DecimalFacts.nb_digits_unorm x ltac:(discriminate))
                 as Hle
           end; rewrite Hnorm in Hle; simpl in Hle; lia).
    assert (H0 : Nat.of_uint (Nat.to_uint n) = 0%nat)
      by (rewrite Hd; reflexivity).
    rewrite Unsigned.of_to in H0. lia.
Qed.

Lemma digit_no_space : forall c, is_digit c = true -> isspace c = false.
Proof.
  intros c H. apply is_digit_code in H. unfold isspace.
  apply orb_false_iff. split.
  - apply Z.eqb_neq. lia.
  - apply andb_false_iff. right. apply Z.leb_gt. lia.
Qed.

Lemma digit_no_sign :
  forall c, is_digit c = true ->
            (c =? "-")%char = false /\ (c =? "+")%char = false.
Proof.
  intros c H. apply is_digit_code in H.
  split; apply Ascii.eqb_neq; intros ->; vm_compute in H; destruct H as [H _];
    apply H; reflexivity.
Qed.

Lemma base_of_nonzero :
  forall c t, (c =? "0")%char = false -> base_of (String c t) = (10, String c t).
Proof.
  intros c t H. destruct t as [|x [|h r]]; simpl; rewrite H; reflexivity.
Qed.

(** [strtoul] reads back a number that is written in decimal digits, up to
    the end of the text or to a colon. *)
Lemma strtoul_print_u :
  forall (n : nat) (rest : string),
    rest = "" \/ starts_with ":" rest = true ->
    Z.of_nat n < 2 ^ 64 ->
    strtoul (print_u n ++ rest) = Some (Z.of_nat n, rest).
Proof.
  intros n rest Hrest Hn.
  assert (Hnd : starts_digit rest = false).
  { destruct Hrest as [->|H]; [reflexivity|].
    destruct rest as [|c r]; [discriminate|]. simpl in H.
    apply Ascii.eqb_eq in H. subst c. reflexivity. }
  destruct n as [|n'].
  - destruct Hrest as [->|H]; [reflexivity|].
    destruct rest as [|c r]; [discriminate|]. simpl in H.
    apply Ascii.eqb_eq in H. subst c.
    destruct r as [|h r]; reflexivity.
  - destruct (print_u_first (S n') ltac:(lia)) as (c & s & Hp & Hc & H0).
    unfold strtoul, strtoul_w.
    assert (Hs : skip_space (print_u (S n') ++ rest) = print_u (S n') ++ rest).
    { rewrite Hp. simpl. now rewrite (digit_no_space c Hc). }
    rewrite Hs.
    assert (Hg : sign_of (print_u (S n') ++ rest)
                 = (false, print_u (S n') ++ rest)).
    { rewrite Hp. simpl. destruct (digit_no_sign c Hc) as [-> ->].
      reflexivity. }
    rewrite Hg.
    assert (Hb : base_of (print_u (S n') ++ rest)
                 = (10, print_u (S n') ++ rest)).
    { rewrite Hp. apply base_of_nonzero. exact H0. }
    rewrite Hb. rewrite (digits_print_u (S n') rest Hnd).
    replace (2 ^ 64 <=? Z.of_nat (S n')) with false
      by (symmetry; apply Z.leb_gt; exact Hn).
    reflexivity.
Qed.

Lemma to_int_small : forall v, 0 <= v < 2 ^ 31 -> to_int v = v.
Proof.
  intros v H. unfold to_int. rewrite Z.mod_small; lia.
Qed.

Lemma comparators_bits :
  forall cs l e g rest,
    all_chars is_comparator cs = true ->
    starts_comparator rest = false ->
    comparators (bits3 l e g) (cs ++ rest)
    = (bits3 (l || has_char "<" cs) (e || has_char "=" cs)
             (g || has_char ">" cs), rest).
Proof.
  intros cs. induction cs as [|c cs IH]; intros l e g rest Hcs Hrest.
  - simpl. rewrite !orb_false_r.
    destruct rest as [|c r]; [reflexivity|].
    simpl in Hrest. unfold is_comparator in Hrest.
    apply orb_false_iff in Hrest. destruct Hrest as [Hrest H3].
    apply orb_false_iff in Hrest. destruct Hrest as [H1 H2].
    simpl. now rewrite H1, H2, H3.
  - simpl in Hcs. apply andb_true_iff in Hcs. destruct Hcs as [Hc Hcs].
    change (String c cs ++ rest) with (String c (cs ++ rest)).
    cbn [comparators].
    destruct (c =? "<")%char eqn:H1.
    { apply Ascii.eqb_eq in H1. subst c.
      replace (Z.lor (bits3 l e g) PAT_DEV__LESS) with (bits3 true e g)
        by (destruct l, e, g; reflexivity).
      rewrite (IH true e g rest Hcs Hrest). simpl. now rewrite orb_true_r. }
    destruct (c =? "=")%char eqn:H2.
    { apply Ascii.eqb_eq in H2. subst c.
      replace (Z.lor (bits3 l e g) PAT_DEV__EQUAL) with (bits3 l true g)
        by (destruct l, e, g; reflexivity).
      rewrite (IH l true g rest Hcs Hrest). simpl. now rewrite orb_true_r. }
    destruct (c =? ">")%char eqn:H3.
    { apply Ascii.eqb_eq in H3. subst c.
      replace (Z.lor (bits3 l e g) PAT_DEV__GREATER) with (bits3 l e true)
        by (destruct l, e, g; reflexivity).
      rewrite (IH l e true rest Hcs Hrest). simpl. now rewrite orb_true_r. }
    unfold is_comparator in Hc. rewrite H1, H2, H3 in Hc. discriminate.
Qed.

Lemma modifiers_none :
  forall s e o a b,
    starts_modifier s = false -> modifiers e o a b s = Ok (a, b, s).
Proof.
  intros [|c s] e o a b H; [reflexivity|].
  simpl in H. unfold is_modifier in H. apply orb_false_iff in H.
  destruct H as [H1 H2]. simpl. now rewrite H1, H2.
Qed.

Section DeviceTexts.

Context {E : Pcre}.

(** The pattern that a device text gives: [minor] is the text of the minor
    number, if there is one. *)
Lemma device_text_parsed :
  forall (cs : string) (n : nat) (minor_ : option nat),
    all_chars is_comparator cs = true ->
    Z.of_nat n < 2 ^ 31 ->
    match minor_ with
    | Some m => Z.of_nat m < 2 ^ 31
    | None => True
    end ->
    exists ign : ignore_t,
      ign___init_pattern_into
        ("DEVICE:" ++ cs ++ print_u n
                   ++ match minor_ with
                      | Some m => ":" ++ print_u m
                      | None => ""
                      end) None = Ok ign
      /\ type ign = PT_DEVICE
      /\ is_ignore ign = true
      /\ compare ign = (if comparator_bits cs =? 0 then PAT_DEV__EQUAL
                        else comparator_bits cs)
      /\ major ign = Z.of_nat n
      /\ match minor_ with
         | Some m => has_minor ign = true /\ minor ign = Z.of_nat m
         | None => has_minor ign = false
         end.
Proof.
  intros cs n minor_ Hcs Hn Hm.
  set (tail := match minor_ with
               | Some m => ":" ++ print_u m
               | None => ""
               end).
  set (text := "DEVICE:" ++ cs ++ print_u n ++ tail).
  unfold ign___init_pattern_into.
  rewrite (skip_white_nospace text _ 0) by reflexivity. cbn [bind].
  rewrite (modifiers_none text) by reflexivity. cbn [bind].
  unfold init_kind.
  change (strip_prefix "DEVICE:" text) with (Some (cs ++ print_u n ++ tail)).
  cbv iota. unfold init_device.
  assert (Hsc : starts_comparator (print_u n ++ tail) = false).
  { destruct n as [|n'].
    - reflexivity.
    - destruct (print_u_first (S n') ltac:(lia)) as (c & s & Hp & Hc & _).
      rewrite Hp. simpl. apply is_digit_code in Hc.
      unfold is_comparator.
      repeat (apply orb_false_iff; split);
        apply Ascii.eqb_neq; intros ->; vm_compute in Hc;
          destruct Hc as [H1 H2];
          first [apply H1; reflexivity | apply H2; reflexivity]. }
  change PAT_DEV__UNSPECIFIED with (bits3 false false false).
  rewrite (comparators_bits cs false false false _ Hcs Hsc).
  cbn [orb].
  change (bits3 (has_char "<" cs) (has_char "=" cs) (has_char ">" cs))
    with (comparator_bits cs).
  change (bits3 false false false) with 0.
  assert (Htail : tail = "" \/ starts_with ":" tail = true).
  { unfold tail. destruct minor_; [now right|now left]. }
  rewrite (strtoul_print_u n tail Htail) by lia.
  rewrite (to_int_small (Z.of_nat n)) by lia.
  unfold tail. destruct minor_ as [m|].
  - change (":" ++ print_u m) with (String ":" (print_u m)). cbv iota.
    change (negb (":" =? ":")%char) with false. cbv iota.
    assert (Hm2 : strtoul (print_u m) = Some (Z.of_nat m, "")).
    { rewrite <- (append_nil_r (print_u m)) at 1.
      apply strtoul_print_u; [now left|lia]. }
    rewrite Hm2. rewrite (to_int_small (Z.of_nat m)) by lia.
    eexists. split; [reflexivity|]. cbn. repeat split.
  - eexists. split; [reflexivity|]. cbn. repeat split.
Qed.

End DeviceTexts.

(** The [switch] over [compare], for the sign [c] of the comparison. *)
Lemma device_switch_asks :
  forall (cs : string) (c status : Z) (P1 P2 P3 : Prop),
    (c < 0 <-> P1) -> (c = 0 <-> P2) -> (0 < c <-> P3) ->
    b2z ((if (if comparator_bits cs =? 0 then PAT_DEV__EQUAL
              else comparator_bits cs) =? PAT_DEV__LESS
          then b2z (c <? 0)
          else if (if comparator_bits cs =? 0 then PAT_DEV__EQUAL
                   else comparator_bits cs)
                  =? Z.lor PAT_DEV__LESS PAT_DEV__EQUAL
          then b2z (c <=? 0)
          else if (if comparator_bits cs =? 0 then PAT_DEV__EQUAL
                   else comparator_bits cs) =? PAT_DEV__EQUAL
          then b2z (c =? 0)
          else if (if comparator_bits cs =? 0 then PAT_DEV__EQUAL
                   else comparator_bits cs)
                  =? Z.lor PAT_DEV__EQUAL PAT_DEV__GREATER
          then b2z (0 <=? c)
          else if (if comparator_bits cs =? 0 then PAT_DEV__EQUAL
                   else comparator_bits cs) =? PAT_DEV__GREATER
          then b2z (0 <? c)
          else status) =? 0) = 0
    <-> asks cs P1 P2 P3 (status <> 0).
Proof.
  intros cs c status P1 P2 P3 H1 H2 H3.
  unfold asks, comparator_bits.
  destruct (has_char "<" cs), (has_char "=" cs), (has_char ">" cs);
    cbn [andb];
    first
      [ change (b2z (status =? 0) = 0 <-> status <> 0);
        destruct (Z.eqb_spec status 0); cbn; split; intros;
        congruence
      | destruct (Z.ltb_spec c 0), (Z.leb_spec c 0), (Z.eqb_spec c 0),
          (Z.leb_spec 0 c), (Z.ltb_spec 0 c);
        try lia; cbn; intuition (try lia; try discriminate) ].
Qed.

(** X7: a device pattern with a major number, [DEVICE:] with comparators and
    the number in decimal digits, is accepted for every number below 2^31
    and every run of comparators, in any order and repeated.  It matches
    exactly the entries whose relevant device has a major number that
    stands to the number of the pattern as the comparators ask, whatever
    the minor number.  With [<] and [>] together the pattern looks at no
    device at all: it matches exactly when the pattern tested before it
    left a status other than 0, and never as the first pattern of a
    list. *)
Theorem device_major_rule :
  forall (E : Pcre) (cs : string) (n : nat),
    all_chars is_comparator cs = true ->
    Z.of_nat n < 2 ^ 31 ->
    exists ign : ignore_t,
      ign___init_pattern_into ("DEVICE:" ++ cs ++ print_u n) None = Ok ign
      /\ forall status sts dir,
          ign_test status ign sts dir = 0
          <-> asks cs (MAJOR (relevant_device sts dir) < Z.of_nat n)
                      (MAJOR (relevant_device sts dir) = Z.of_nat n)
                      (Z.of_nat n < MAJOR (relevant_device sts dir))
                      (status <> 0).
Proof.
  intros E cs n Hcs Hn.
  destruct (device_text_parsed cs n None Hcs Hn I)
    as (ign & Hi & Hty & _ & Hcmp & Hmj & Hhm).
  rewrite append_nil_r in Hi.
  exists ign. split; [exact Hi|].
  intros status sts dir.
  assert (Hd : st_dev (if S_ISDIR (st_mode (st sts)) then st dir else st sts)
               = relevant_device sts dir).
  { unfold relevant_device.
    destruct (S_ISDIR (st_mode (st sts))); reflexivity. }
  unfold ign_test. rewrite Hty. unfold ign___compare_dev.
  rewrite Hd, Hmj, Hhm, Hcmp.
  set (mj := MAJOR (relevant_device sts dir)).
  apply device_switch_asks;
    destruct (Z.ltb_spec (Z.of_nat n) mj), (Z.ltb_spec mj (Z.of_nat n));
    split; intros; try discriminate; try reflexivity; lia.
Qed.

Lemma device_major_rule_witness :
  exists ign : ignore_t,
    ign___init_pattern_into (E := PcreFragment)
                            ("DEVICE:" ++ "=<" ++ print_u 8) None = Ok ign
    /\ forall status sts dir,
        ign_test status ign sts dir = 0
        <-> asks "=<" (MAJOR (relevant_device sts dir) < Z.of_nat 8)
                 (MAJOR (relevant_device sts dir) = Z.of_nat 8)
                 (Z.of_nat 8 < MAJOR (relevant_device sts dir))
                 (status <> 0).
Proof.
  apply (device_major_rule PcreFragment "=<" 8).
  - reflexivity.
  - vm_compute. reflexivity.
Defined.

(** X8: a device pattern with a major and a minor number compares the pair:
    the major numbers first, the minor numbers when the major numbers are
    the same. *)
Theorem device_major_minor_rule :
  forall (E : Pcre) (cs : string) (n m : nat),
    all_chars is_comparator cs = true ->
    Z.of_nat n < 2 ^ 31 ->
    Z.of_nat m < 2 ^ 31 ->
    exists ign : ignore_t,
      ign___init_pattern_into
        ("DEVICE:" ++ cs ++ print_u n ++ ":" ++ print_u m) None = Ok ign
      /\ forall status sts dir,
          ign_test status ign sts dir = 0
          <-> asks cs
                (MAJOR (relevant_device sts dir) < Z.of_nat n
                 \/ (MAJOR (relevant_device sts dir) = Z.of_nat n
                     /\ MINOR (relevant_device sts dir) < Z.of_nat m))
                (MAJOR (relevant_device sts dir) = Z.of_nat n
                 /\ MINOR (relevant_device sts dir) = Z.of_nat m)
                (Z.of_nat n < MAJOR (relevant_device sts dir)
                 \/ (MAJOR (relevant_device sts dir) = Z.of_nat n
                     /\ Z.of_nat m < MINOR (relevant_device sts dir)))
                (status <> 0).
Proof.
  intros E cs n m Hcs Hn Hm.
  destruct (device_text_parsed cs n (Some m) Hcs Hn Hm)
    as (ign & Hi & Hty & _ & Hcmp & Hmj & Hhm & Hmn).
  exists ign. split; [exact Hi|].
  intros status sts dir.
  assert (Hd : st_dev (if S_ISDIR (st_mode (st sts)) then st dir else st sts)
               = relevant_device sts dir).
  { unfold relevant_device.
    destruct (S_ISDIR (st_mode (st sts))); reflexivity. }
  unfold ign_test. rewrite Hty. unfold ign___compare_dev.
  rewrite Hd, Hmj, Hhm, Hmn, Hcmp.
  set (mj := MAJOR (relevant_device sts dir)).
  set (mn := MINOR (relevant_device sts dir)).
  cbn [negb].
  apply device_switch_asks;
    destruct (Z.ltb_spec (Z.of_nat n) mj), (Z.ltb_spec mj (Z.of_nat n)),
      (Z.ltb_spec (Z.of_nat m) mn), (Z.ltb_spec mn (Z.of_nat m));
    split; intros; try discriminate; try reflexivity; lia.
Qed.

Lemma device_major_minor_rule_witness :
  exists ign : ignore_t,
    ign___init_pattern_into (E := PcreFragment)
      ("DEVICE:" ++ ">" ++ print_u 8 ++ ":" ++ print_u 16) None = Ok ign
    /\ forall status sts dir,
        ign_test status ign sts dir = 0
        <-> asks ">"
              (MAJOR (relevant_device sts dir) < Z.of_nat 8
               \/ (MAJOR (relevant_device sts dir) = Z.of_nat 8
                   /\ MINOR (relevant_device sts dir) < Z.of_nat 16))
              (MAJOR (relevant_device sts dir) = Z.of_nat 8
               /\ MINOR (relevant_device sts dir) = Z.of_nat 16)
              (Z.of_nat 8 < MAJOR (relevant_device sts dir)
               \/ (MAJOR (relevant_device sts dir) = Z.of_nat 8
                   /\ Z.of_nat 16 < MINOR (relevant_device sts dir)))
              (status <> 0).
Proof.
  apply (device_major_minor_rule PcreFragment ">" 8 16).
  - reflexivity.
  - vm_compute. reflexivity.
  - vm_compute. reflexivity.
Defined.

(** ** Patterns without stars and brackets *)

Lemma plain_not_meta :
  forall c,
    is_plain c = true ->
    (c =? ")")%char = false /\ (c =? "|")%char = false
    /\ (c =? "(")%char = false /\ (c =? "$")%char = false
    /\ (c =? "*")%char = false /\ (c =? "?")%char = false
    /\ (c =? "+")%char = false /\ (c =? "{")%char = false
    /\ (c =? "^")%char = false /\ (c =? ".")%char = false
    /\ (c =? "[")%char = false /\ (c =? "\")%char = false.
Proof.
  intros c H.
  repeat split;
    match goal with
    | |- (c =? ?x)%char = false =>
        destruct (Ascii.eqb_spec c x) as [Heq|];
        [subst c; vm_compute in H; discriminate|reflexivity]
    end.
Qed.

Lemma quantified_none :
  forall cs t,
    starts_quantifier t = false ->
    Regex.quantified cs t = Some (Regex.RSet cs, t).
Proof.
  intros cs [|c t] H; [reflexivity|].
  simpl in H.
  apply orb_false_iff in H. destruct H as [H H4].
  apply orb_false_iff in H. destruct H as [H H3].
  apply orb_false_iff in H. destruct H as [H1 H2].
  unfold Regex.quantified. rewrite H1, H2, H3, H4. reflexivity.
Qed.

Lemma spell_no_quantifier :
  forall w p rest,
    starts_quantifier rest = false ->
    starts_quantifier (spell w p ++ rest) = false.
Proof.
  intros w [|c p] rest H; [exact H|].
  simpl. unfold item. destruct (c =? w)%char; [reflexivity|].
  simpl. destruct (is_plain c) eqn:Hp; [|reflexivity].
  simpl. destruct (plain_not_meta c Hp)
    as (_ & _ & _ & _ & H5 & H6 & H7 & H8 & _).
  now rewrite H5, H6, H7, H8.
Qed.

(** The parser of regular expressions reads the items of [p] one after the
    other. *)
Lemma parse_spell :
  forall w p n alts seq rest,
    starts_quantifier rest = false ->
    Regex.parse (String.length p + n) alts seq (spell w p ++ rest)
    = Regex.parse n alts (lits w seq p) rest.
Proof.
  intros w p. induction p as [|c p IH]; intros n alts seq rest Hrest.
  - reflexivity.
  - change (String.length (String c p) + n)%nat
      with (S (String.length p + n)).
    change (spell w (String c p)) with (spell_item (item w c) ++ spell w p).
    rewrite append_assoc.
    pose proof (spell_no_quantifier w p rest Hrest) as Hq.
    cbn [lits]. rewrite <- (IH n alts _ rest Hrest).
    generalize dependent (spell w p ++ rest). intros t Ht.
    generalize (String.length p + n)%nat. intros f.
    unfold item. destruct (c =? w)%char.
    + cbn -[Regex.quantified]. rewrite (quantified_none _ t Ht). reflexivity.
    + unfold spell_item. destruct (is_plain c) eqn:Hp.
      * destruct (plain_not_meta c Hp)
          as (H1 & H2 & H3 & H4 & H5 & H6 & H7 & H8 & H9 & H10 & H11 & H12).
        cbn -[Regex.quantified Regex.parse_class].
        rewrite H1, H2, H3, H4, H5, H6, H7, H8, H9, H10, H11, H12.
        cbn -[Regex.quantified]. rewrite (quantified_none _ t Ht).
        reflexivity.
      * assert (Ha : is_alnum c = false).
        { unfold is_plain in Hp. apply orb_false_iff in Hp.
          destruct Hp as [Hp _]. apply orb_false_iff in Hp. tauto. }
        cbn -[Regex.quantified]. rewrite Ha.
        rewrite (quantified_none _ t Ht). reflexivity.
Qed.

Lemma run_lits :
  forall caseless w p seq k s,
    Regex.run caseless (lits w seq p) k s
    = Regex.run caseless seq (lit_run caseless w p k) s.
Proof.
  intros caseless w p. induction p as [|c p IH]; intros seq k s.
  - reflexivity.
  - cbn [lits]. rewrite IH. reflexivity.
Qed.

Lemma lit_run_wstrip :
  forall caseless w p k s,
    lit_run caseless w p k s
    = match wstrip caseless w p s with
      | Some rest => k rest
      | None => false
      end.
Proof.
  intros caseless w p. induction p as [|c p IH]; intros k s.
  - reflexivity.
  - cbn [lit_run wstrip Regex.run]. destruct s as [|d s]; [reflexivity|].
    rewrite IH.
    assert (Hc : Regex.cset_match caseless (item w c) d
                 = char_matches caseless w c d).
    { unfold item, char_matches. destruct (c =? w)%char; reflexivity. }
    rewrite Hc. destruct (char_matches caseless w c d); reflexivity.
Qed.

Lemma length_spell :
  forall w p, (String.length p <= String.length (spell w p))%nat.
Proof.
  intros w p. induction p as [|c p IH]; [simpl; lia|].
  simpl. rewrite length_append. unfold item, spell_item.
  destruct (c =? w)%char; [simpl; lia|].
  destruct (is_plain c); simpl; lia.
Qed.

(** The text that the translator writes for a pattern without stars,
    brackets and backslashes. *)
Lemma glob_text_simple :
  forall p, simple_glob p = true -> glob_text p = (spell "?" p, false).
Proof.
  intros p. induction p as [|c p IH]; intros H; [reflexivity|].
  unfold simple_glob in H. simpl in H. apply andb_true_iff in H.
  destruct H as [Hc Hp]. apply negb_true_iff in Hc.
  unfold is_special in Hc.
  apply orb_false_iff in Hc. destruct Hc as [Hc H3].
  apply orb_false_iff in Hc. destruct Hc as [H1 H2].
  rewrite glob_text_cons. rewrite H3, H1, H2.
  rewrite (IH Hp). cbn [spell]. unfold item, prepend. cbn [fst snd].
  destruct (c =? "?")%char; [reflexivity|].
  unfold spell_item. destruct (is_plain c); reflexivity.
Qed.

Lemma modifiers_app :
  forall mods e o a b p,
    all_chars is_modifier mods = true ->
    starts_modifier p = false ->
    o + strlen mods < e ->
    modifiers e o a b (mods ++ p)
    = Ok (a && negb (has_char "t" mods), b || has_char "i" mods, p).
Proof.
  intros mods. induction mods as [|c mods IH]; intros e o a b p Hm Hp He.
  - simpl. rewrite (modifiers_none p e o a b Hp).
    now rewrite andb_true_r, orb_false_r.
  - simpl in Hm. apply andb_true_iff in Hm. destruct Hm as [Hc Hm].
    rewrite strlen_cons in He. pose proof (strlen_nonneg mods) as Hn.
    change (String c mods ++ p) with (String c (mods ++ p)).
    cbn [modifiers].
    replace (e <=? o + 1) with false by (symmetry; apply Z.leb_gt; lia).
    unfold is_modifier in Hc.
    destruct (c =? "t")%char eqn:Ht.
    + rewrite (IH e (o + 1) false b p Hm Hp) by lia.
      apply Ascii.eqb_eq in Ht. subst c. simpl.
      now rewrite andb_false_r.
    + simpl in Hc. rewrite Hc.
      rewrite (IH e (o + 1) a true p Hm Hp) by lia.
      apply Ascii.eqb_eq in Hc. subst c. simpl.
      now rewrite orb_true_r.
Qed.

Lemma modifiers_no_space :
  forall mods p,
    all_chars is_modifier mods = true ->
    starts_space p = false ->
    starts_space (mods ++ p) = false.
Proof.
  intros [|c mods] p Hm Hp; [exact Hp|].
  simpl in Hm. apply andb_true_iff in Hm. destruct Hm as [Hc _].
  unfold is_modifier in Hc. apply orb_true_iff in Hc.
  destruct Hc as [Hc|Hc]; apply Ascii.eqb_eq in Hc; subst c; reflexivity.
Qed.

(** The pattern that a shell text without stars, brackets and backslashes
    gives, behind modifiers: it is compiled from the spelled text and the
    anchor. *)
Lemma simple_shell_text :
  forall (mods r : string) (re : Regex.re * bool),
    all_chars is_modifier mods = true ->
    simple_glob r = true ->
    r <> "" ->
    Regex.compile (anchor ("./" ++ r) (spell "?" ("./" ++ r)))
                  (has_char "i" mods) = Some re ->
    exists ign : @ignore_t PcreFragment,
      ign___init_pattern_into (mods ++ "./" ++ r) None = Ok ign
      /\ compiled ign = Some re
      /\ is_ignore ign = negb (has_char "t" mods).
Proof.
  intros mods r re Hm Hr Hne Hre.
  set (p := "./" ++ r) in *.
  assert (Hlen : 3 <= strlen p).
  { unfold p. destruct r as [|c r]; [contradiction|].
    change ("./" ++ String c r) with (String "." (String "/" (String c r))).
    rewrite !strlen_cons. pose proof (strlen_nonneg r). lia. }
  assert (Hsimple : simple_glob p = true) by exact Hr.
  unfold ign___init_pattern_into.
  rewrite (skip_white_nospace (mods ++ p) _ 0)
    by (apply modifiers_no_space; [exact Hm|reflexivity]).
  cbn [bind].
  rewrite (modifiers_app mods _ 0 true false p Hm eq_refl)
    by (rewrite strlen_app; lia).
  cbn [bind andb orb].
  change (init_kind (mods ++ p) (negb (has_char "t" mods))
                    (has_char "i" mods) p)
    with (init_regex (mods ++ p) (negb (has_char "t" mods))
                     (has_char "i" mods) PT_SHELL p).
  unfold init_regex.
  replace (strlen p <? 3) with false by (symmetry; apply Z.ltb_ge; lia).
  unfold ign__compile_pattern.
  rewrite (translation_documented (mods ++ p) p)
    by (try (intros Hp; rewrite Hp in Hlen; unfold strlen in Hlen;
             simpl in Hlen; lia);
        rewrite length_append; lia).
  rewrite (glob_text_simple p Hsimple). cbn [bind fst snd].
  change (pcre_compile (anchor p (spell "?" p)) (has_char "i" mods))
    with (Regex.compile (anchor p (spell "?" p)) (has_char "i" mods)).
  rewrite Hre. cbn [pcre_study_err PcreFragment bind].
  eexists. split; [reflexivity|]. split; reflexivity.
Qed.

Lemma last_char_cons :
  forall c s, s <> "" -> last_char (String c s) = last_char s.
Proof. intros c [|d s] H; [contradiction|reflexivity]. Qed.

Lemma spell_app :
  forall w a b, spell w (a ++ b) = spell w a ++ spell w b.
Proof.
  intros w a b. induction a as [|c a IH]; [reflexivity|].
  simpl. rewrite IH. now rewrite append_assoc.
Qed.

Lemma drop_last_snoc :
  forall s c, drop_last (s ++ chr c) = s.
Proof.
  intros s c. induction s as [|d s IH]; [reflexivity|].
  change (String d s ++ chr c) with (String d (s ++ chr c)).
  destruct (s ++ chr c) as [|a t] eqn:Hs.
  - destruct s; discriminate.
  - change (drop_last (String d (String a t)))
      with (String d (drop_last (String a t))).
    now rewrite IH.
Qed.

(** The expression compiled for a text that does not end with the
    separator: the items of the text, then the end. *)
Lemma compile_simple_end :
  forall (p : string) (caseless : bool),
    last_char p <> Some PATH_SEPARATOR ->
    Regex.compile (anchor p (spell "?" p)) caseless
    = Some (Regex.RSeq (lits "?" Regex.REmpty p) Regex.REnd, caseless).
Proof.
  intros p caseless Hl.
  assert (Ha : anchor p (spell "?" p) = spell "?" p ++ "$").
  { unfold anchor. destruct (last_char p) as [c|]; [|reflexivity].
    destruct (Ascii.eqb_spec c PATH_SEPARATOR) as [->|]; [|reflexivity].
    contradiction. }
  rewrite Ha. unfold Regex.compile.
  pose proof (length_spell "?" p) as Hs.
  replace (S (String.length (spell "?" p ++ "$")))
    with (String.length p
          + S (S (String.length (spell "?" p) - String.length p)))%nat
    by (rewrite length_append; simpl; lia).
  rewrite parse_spell by reflexivity.
  reflexivity.
Qed.

(** The expression compiled for a text that ends with the separator: the
    items of the text before it, then the end or a separator. *)
Lemma compile_simple_dir :
  forall (q : string) (caseless : bool),
    Regex.compile (anchor (q ++ "/") (spell "?" (q ++ "/"))) caseless
    = Some (Regex.RSeq
              (lits "?" Regex.REmpty q)
              (Regex.RAlt
                 (Regex.RSeq Regex.REmpty Regex.REnd)
                 (Regex.RSeq Regex.REmpty
                             (Regex.RSet (Regex.CLit "/")))),
            caseless).
Proof.
  intros q caseless.
  assert (Ha : anchor (q ++ "/") (spell "?" (q ++ "/"))
               = spell "?" q ++ "($|/)").
  { unfold anchor. change "/" with (chr PATH_SEPARATOR) at 1.
    rewrite last_char_snoc. rewrite Ascii.eqb_refl.
    rewrite spell_app.
    change (spell "?" "/") with (chr "/").
    now rewrite drop_last_snoc. }
  rewrite Ha. unfold Regex.compile.
  pose proof (length_spell "?" q) as Hs.
  replace (S (String.length (spell "?" q ++ "($|/)")))
    with (String.length q
          + (6 + (String.length (spell "?" q) - String.length q)))%nat
    by (rewrite length_append; simpl; lia).
  rewrite parse_spell by reflexivity.
  reflexivity.
Qed.

Lemma exec_matches :
  forall (re : Regex.re * bool) (s : string),
    (Regex.exec re s =? 0)
    = Regex.run (snd re) (fst re) (fun _ => true) s.
Proof.
  intros re s. unfold Regex.exec.
  destruct (Regex.run (snd re) (fst re) (fun _ : string => true) s);
    reflexivity.
Qed.

Lemma all_chars_app :
  forall f a b, all_chars f (a ++ b) = all_chars f a && all_chars f b.
Proof.
  intros f a b. induction a as [|c a IH]; [reflexivity|].
  simpl. rewrite IH. now rewrite andb_assoc.
Qed.

(** A shell pattern without stars, brackets and backslashes that does not
    end with the separator, against a path. *)
Lemma simple_rule_end :
  forall mods r s,
    all_chars is_modifier mods = true ->
    simple_glob r = true ->
    r <> "" ->
    last_char r <> Some PATH_SEPARATOR ->
    rule_matches (mods ++ "./" ++ r) s
    = Some (match wstrip (has_char "i" mods) "?" ("./" ++ r) s with
            | Some rest => Regex.at_end rest
            | None => false
            end).
Proof.
  intros mods r s Hm Hr Hne Hl.
  assert (Hl2 : last_char ("./" ++ r) <> Some PATH_SEPARATOR).
  { change ("./" ++ r) with (String "." (String "/" r)).
    rewrite last_char_cons by discriminate.
    rewrite last_char_cons by exact Hne. exact Hl. }
  destruct (simple_shell_text mods r _ Hm Hr Hne
              (compile_simple_end ("./" ++ r) (has_char "i" mods) Hl2))
    as (ign & Hi & Hc & _).
  rewrite (rule_matches_compiled _ _ _ s Hi Hc).
  rewrite exec_matches. cbn [fst snd Regex.run].
  rewrite run_lits. cbn [Regex.run]. rewrite lit_run_wstrip.
  destruct (wstrip (has_char "i" mods) "?" ("./" ++ r) s) as [rest|];
    [|reflexivity].
  now rewrite andb_true_r.
Qed.

Lemma separator_has_no_case :
  forall c, ("/" =? Regex.swap_case c)%char = ("/" =? c)%char.
Proof.
  intros c. destruct c as [[] [] [] [] [] [] [] []]; reflexivity.
Qed.

(** A shell pattern without stars, brackets and backslashes that ends with
    the separator, against a path. *)
Lemma simple_rule_dir :
  forall mods r s,
    all_chars is_modifier mods = true ->
    simple_glob r = true ->
    rule_matches (mods ++ "./" ++ r ++ "/") s
    = Some (match wstrip (has_char "i" mods) "?" ("./" ++ r) s with
            | Some rest => Regex.at_end rest || starts_with "/" rest
            | None => false
            end).
Proof.
  intros mods r s Hm Hr.
  assert (Hr2 : simple_glob (r ++ "/") = true).
  { unfold simple_glob in *. rewrite all_chars_app, Hr. reflexivity. }
  assert (Hne : r ++ "/" <> "") by (destruct r; discriminate).
  pose proof (compile_simple_dir ("./" ++ r) (has_char "i" mods)) as Hcomp.
  change (("./" ++ r) ++ "/") with ("./" ++ r ++ "/") in Hcomp.
  destruct (simple_shell_text mods (r ++ "/") _ Hm Hr2 Hne Hcomp)
    as (ign & Hi & Hc & _).
  rewrite (rule_matches_compiled _ _ _ s Hi Hc).
  rewrite exec_matches. cbn [fst snd Regex.run].
  rewrite run_lits. cbn [Regex.run]. rewrite lit_run_wstrip.
  destruct (wstrip (has_char "i" mods) "?" ("./" ++ r) s) as [rest|];
    [|reflexivity].
  rewrite andb_true_r. destruct rest as [|c rest]; [reflexivity|].
  cbn [starts_with Regex.cset_match]. rewrite andb_true_r.
  rewrite separator_has_no_case.
  rewrite (Ascii.eqb_sym c "/").
  destruct ("/" =? c)%char; destruct (has_char "i" mods); reflexivity.
Qed.

Lemma wstrip_literal :
  forall w p s rest,
    has_char w p = false ->
    (wstrip false w p s = Some rest <-> s = p ++ rest).
Proof.
  intros w p. induction p as [|c p IH]; intros s rest Hw.
  - simpl. split; [intros H; now injection H|intros ->; reflexivity].
  - simpl in Hw. apply orb_false_iff in Hw. destruct Hw as [Hc Hw].
    cbn [wstrip]. destruct s as [|d s].
    + split; discriminate.
    + unfold char_matches. rewrite Hc. cbn [orb andb]. rewrite orb_false_r.
      change (String c p ++ rest) with (String c (p ++ rest)).
      destruct (Ascii.eqb_spec c d) as [->|Hne].
      * rewrite (IH s rest Hw). split; [intros ->; reflexivity|].
        intros H. now injection H.
      * split; [discriminate|]. intros H. injection H as H1 _.
        symmetry in H1. contradiction.
Qed.

Lemma wstrip_app :
  forall caseless w a b s,
    wstrip caseless w (a ++ b) s
    = match wstrip caseless w a s with
      | Some t => wstrip caseless w b t
      | None => None
      end.
Proof.
  intros caseless w a b. induction a as [|c a IH]; intros s; [reflexivity|].
  change (String c a ++ b) with (String c (a ++ b)). cbn [wstrip].
  destruct s as [|d s]; [reflexivity|].
  destruct (char_matches caseless w c d); [apply IH|reflexivity].
Qed.

Lemma at_end_spec :
  forall rest, Regex.at_end rest = true <-> rest = "" \/ rest = chr LF.
Proof.
  intros [|c [|d rest]]; simpl.
  - split; [now left|reflexivity].
  - split.
    + intros H. apply Ascii.eqb_eq in H. subst c. now right.
    + intros [H|H]; [discriminate|]. injection H as ->. reflexivity.
  - split; [discriminate|]. intros [H|H]; discriminate.
Qed.

(** X10: a shell pattern that is a plain name (no star, no question mark, no
    bracket, no backslash, not ending with the separator) is accepted, and
    matches the path that is this name and no other -- but for the path
    with one newline behind the name, which the end anchor lets pass.  No
    path below the name matches. *)
Theorem plain_name_matches_only_itself :
  forall (mods r s : string),
    all_chars is_modifier mods = true ->
    has_char "i" mods = false ->
    c_string r ->
    simple_glob r = true ->
    has_char "?" r = false ->
    r <> "" ->
    last_char r <> Some PATH_SEPARATOR ->
    rule_matches (mods ++ "./" ++ r) s
    = Some (String.eqb s ("./" ++ r) || String.eqb s ("./" ++ r ++ chr LF)).
Proof.
  intros mods r s Hm Hi _ Hr Hq Hne Hl.
  rewrite (simple_rule_end mods r s Hm Hr Hne Hl). rewrite Hi. f_equal.
  assert (Hq2 : has_char "?" ("./" ++ r) = false) by exact Hq.
  destruct (wstrip false "?" ("./" ++ r) s) as [rest|] eqn:Hw.
  - apply (wstrip_literal "?" _ s rest Hq2) in Hw. subst s.
    destruct (Regex.at_end rest) eqn:He.
    + apply at_end_spec in He. symmetry. apply orb_true_iff.
      destruct He as [->| ->].
      * left. rewrite append_nil_r. apply String.eqb_refl.
      * right. change ("./" ++ r ++ chr LF) with (("./" ++ r) ++ chr LF).
        apply String.eqb_refl.
    + symmetry. apply orb_false_iff. split; apply String.eqb_neq; intros H.
      * assert (rest = "").
        { clear -H. induction ("./" ++ r) as [|c t IH]; [exact H|].
          injection H as H. exact (IH H). }
        subst rest. discriminate.
      * change ("./" ++ r ++ chr LF) with (("./" ++ r) ++ chr LF) in H.
        assert (rest = chr LF).
        { clear -H. induction ("./" ++ r) as [|c t IH]; [exact H|].
          injection H as H. exact (IH H). }
        subst rest. discriminate.
  - symmetry. apply orb_false_iff. split; apply String.eqb_neq; intros H.
    + assert (Hx : wstrip false "?" ("./" ++ r) s = Some "").
      { apply (wstrip_literal "?" _ s "" Hq2). now rewrite append_nil_r. }
      congruence.
    + assert (Hx : wstrip false "?" ("./" ++ r) s = Some (chr LF)).
      { apply (wstrip_literal "?" _ s (chr LF) Hq2). exact H. }
      congruence.
Qed.

Lemma plain_name_matches_only_itself_witness :
  rule_matches ("t" ++ "./" ++ "etc/ssh.d") "./etc/ssh.d"
  = Some (String.eqb "./etc/ssh.d" ("./" ++ "etc/ssh.d")
          || String.eqb "./etc/ssh.d" ("./" ++ "etc/ssh.d" ++ chr LF)).
Proof.
  apply (plain_name_matches_only_itself "t" "etc/ssh.d" "./etc/ssh.d");
    try reflexivity; discriminate.
Defined.

Lemma wstrip_question :
  forall a b s rest,
    has_char "?" a = false ->
    has_char "?" b = false ->
    (wstrip false "?" (a ++ "?" ++ b) s = Some rest
     <-> exists c, s = a ++ chr c ++ b ++ rest).
Proof.
  intros a b s rest Ha Hb. rewrite wstrip_app. split.
  - intros H. destruct (wstrip false "?" a s) as [t|] eqn:Hw; [|discriminate].
    apply (wstrip_literal "?" a s t Ha) in Hw. subst s.
    change ("?" ++ b) with (String "?" b) in H. cbn [wstrip] in H.
    destruct t as [|d t]; [discriminate|].
    change (char_matches false "?" "?" d) with true in H. cbv iota in H.
    apply (wstrip_literal "?" b t rest Hb) in H. subst t.
    exists d. reflexivity.
  - intros [c ->].
    assert (Hw : wstrip false "?" a (a ++ chr c ++ b ++ rest)
                 = Some (chr c ++ b ++ rest))
      by (now apply wstrip_literal).
    rewrite Hw. change ("?" ++ b) with (String "?" b).
    change (chr c ++ b ++ rest) with (String c (b ++ rest)).
    cbn [wstrip]. change (char_matches false "?" "?" c) with true. cbv iota.
    now apply wstrip_literal.
Qed.

(** X11: a question mark in a shell pattern stands for exactly one character,
    and for every character, the separator among them: the pattern
    [./pre?post] matches the paths [./pre], one character, [post] (and
    these with one newline at the end), whatever the character is. *)
Theorem question_mark_is_any_one_character :
  forall (pre post s : string),
    c_string pre -> c_string post ->
    simple_glob pre = true ->
    simple_glob post = true ->
    has_char "?" pre = false ->
    has_char "?" post = false ->
    last_char ("?" ++ post) <> Some PATH_SEPARATOR ->
    (rule_matches ("./" ++ pre ++ "?" ++ post) s = Some true
     <-> exists c, s = "./" ++ pre ++ chr c ++ post
                   \/ s = "./" ++ pre ++ chr c ++ post ++ chr LF)
    /\ rule_matches ("./" ++ pre ++ "?" ++ post) s <> None.
Proof.
  intros pre post s _ _ Hpre Hpost Hq1 Hq2 Hl.
  assert (Hr : simple_glob (pre ++ "?" ++ post) = true).
  { unfold simple_glob in *. rewrite !all_chars_app, Hpre, Hpost.
    reflexivity. }
  assert (Hne : pre ++ "?" ++ post <> "") by (destruct pre; discriminate).
  assert (Hl2 : last_char (pre ++ "?" ++ post) <> Some PATH_SEPARATOR).
  { rewrite last_char_app by discriminate. exact Hl. }
  pose proof (simple_rule_end "" (pre ++ "?" ++ post) s eq_refl Hr Hne Hl2)
    as H.
  change ("" ++ "./" ++ pre ++ "?" ++ post)
    with ("./" ++ pre ++ "?" ++ post) in H.
  change (has_char "i" "") with false in H.
  rewrite H. split; [|discriminate].
  change ("./" ++ pre ++ "?" ++ post) with (("./" ++ pre) ++ "?" ++ post).
  split.
  - intros Hm.
    assert (Hs : forall b, Some b = Some true -> b = true)
      by (intros b Hb; congruence).
    apply Hs in Hm. clear Hs.
    destruct (wstrip false "?" (("./" ++ pre) ++ "?" ++ post) s)
      as [rest|] eqn:Hw; [|discriminate].
    apply (wstrip_question ("./" ++ pre) post s rest Hq1 Hq2) in Hw.
    destruct Hw as [c ->]. apply at_end_spec in Hm. exists c.
    destruct Hm as [->| ->].
    + left. change (("./" ++ pre) ++ chr c ++ post ++ "")
        with ("./" ++ pre ++ chr c ++ post ++ "").
      now rewrite append_nil_r.
    + right. reflexivity.
  - intros [c [Hs|Hs]].
    + assert (Hw : wstrip false "?" (("./" ++ pre) ++ "?" ++ post) s
                   = Some "").
      { apply (wstrip_question ("./" ++ pre) post s "" Hq1 Hq2).
        exists c. rewrite append_nil_r. exact Hs. }
      rewrite Hw. reflexivity.
    + assert (Hw : wstrip false "?" (("./" ++ pre) ++ "?" ++ post) s
                   = Some (chr LF)).
      { apply (wstrip_question ("./" ++ pre) post s (chr LF) Hq1 Hq2).
        exists c. exact Hs. }
      rewrite Hw. reflexivity.
Qed.

Lemma question_mark_is_any_one_character_witness :
  (rule_matches ("./" ++ "a" ++ "?" ++ "c") "./a/c" = Some true
   <-> exists c, "./a/c" = "./" ++ "a" ++ chr c ++ "c"
                 \/ "./a/c" = "./" ++ "a" ++ chr c ++ "c" ++ chr LF)
  /\ rule_matches ("./" ++ "a" ++ "?" ++ "c") "./a/c" <> None.
Proof.
  apply (question_mark_is_any_one_character "a" "c" "./a/c");
    try reflexivity; discriminate.
Defined.

(** X12: a shell pattern that is a plain name with the separator behind it
    matches the path that is this name (the directory itself), and every
    path below it; it matches no other path, but for the name with one
    newline behind it. *)
Theorem directory_pattern_matches_the_directory_and_below :
  forall (mods r s : string),
    all_chars is_modifier mods = true ->
    has_char "i" mods = false ->
    c_string r ->
    simple_glob r = true ->
    has_char "?" r = false ->
    (rule_matches (mods ++ "./" ++ r ++ "/") s = Some true
     <-> s = "./" ++ r
         \/ s = "./" ++ r ++ chr LF
         \/ exists rest, s = "./" ++ r ++ "/" ++ rest)
    /\ rule_matches (mods ++ "./" ++ r ++ "/") s <> None.
Proof.
  intros mods r s Hm Hi _ Hr Hq.
  rewrite (simple_rule_dir mods r s Hm Hr). rewrite Hi.
  split; [|discriminate].
  assert (Hq2 : has_char "?" ("./" ++ r) = false) by exact Hq.
  split.
  - intros H.
    assert (Hs : forall b, Some b = Some true -> b = true)
      by (intros b Hb; congruence).
    apply Hs in H. clear Hs.
    destruct (wstrip false "?" ("./" ++ r) s) as [rest|] eqn:Hw;
      [|discriminate].
    apply (wstrip_literal "?" _ s rest Hq2) in Hw. subst s.
    apply orb_true_iff in H. destruct H as [H|H].
    + apply at_end_spec in H. destruct H as [->| ->].
      * left. now rewrite append_nil_r.
      * right. left. reflexivity.
    + right. right. destruct rest as [|c rest]; [discriminate|].
      simpl in H. apply Ascii.eqb_eq in H. subst c.
      exists rest. reflexivity.
  - intros [Hs|[Hs|[rest Hs]]].
    + assert (Hw : wstrip false "?" ("./" ++ r) s = Some "").
      { apply (wstrip_literal "?" _ s "" Hq2). now rewrite append_nil_r. }
      rewrite Hw. reflexivity.
    + assert (Hw : wstrip false "?" ("./" ++ r) s = Some (chr LF)).
      { apply (wstrip_literal "?" _ s (chr LF) Hq2). exact Hs. }
      rewrite Hw. reflexivity.
    + assert (Hw : wstrip false "?" ("./" ++ r) s = Some ("/" ++ rest)).
      { apply (wstrip_literal "?" _ s ("/" ++ rest) Hq2). exact Hs. }
      rewrite Hw. destruct rest; reflexivity.
Qed.

Lemma directory_pattern_matches_the_directory_and_below_witness :
  (rule_matches ("" ++ "./" ++ "proc" ++ "/") "./proc/1/stat" = Some true
   <-> "./proc/1/stat" = "./" ++ "proc"
       \/ "./proc/1/stat" = "./" ++ "proc" ++ chr LF
       \/ exists rest, "./proc/1/stat" = "./" ++ "proc" ++ "/" ++ rest)
  /\ rule_matches ("" ++ "./" ++ "proc" ++ "/") "./proc/1/stat" <> None.
Proof.
  apply (directory_pattern_matches_the_directory_and_below
           "" "proc" "./proc/1/stat");
    reflexivity.
Defined.

Lemma swap_case_twice :
  forall c, Regex.swap_case (Regex.swap_case c) = c.
Proof.
  intros c. destruct c as [[] [] [] [] [] [] [] []]; reflexivity.
Qed.

Lemma wstrip_self :
  forall caseless w p, wstrip caseless w p p = Some "".
Proof.
  intros caseless w p. induction p as [|c p IH]; [reflexivity|].
  cbn [wstrip]. unfold char_matches. rewrite Ascii.eqb_refl.
  rewrite orb_true_r. exact IH.
Qed.

Lemma wstrip_swapped :
  forall w p, wstrip true w p (swap_all p) = Some "".
Proof.
  intros w p. induction p as [|c p IH]; [reflexivity|].
  cbn [wstrip swap_all]. unfold char_matches.
  rewrite swap_case_twice, Ascii.eqb_refl. cbn [andb].
  rewrite orb_true_r. exact IH.
Qed.

(** X13: with the modifier [i], a shell pattern without stars, brackets and
    backslashes is compared with a path character by character, and a
    character of the pattern also stands for the same letter in the other
    case: the pattern matches its own text, and its text with every letter
    in the other case. *)
Theorem case_is_ignored_with_i :
  forall (mods r : string),
    all_chars is_modifier mods = true ->
    has_char "i" mods = true ->
    c_string r ->
    simple_glob r = true ->
    r <> "" ->
    last_char r <> Some PATH_SEPARATOR ->
    (forall s,
        rule_matches (mods ++ "./" ++ r) s
        = Some (match wstrip true "?" ("./" ++ r) s with
                | Some rest => String.eqb rest "" || String.eqb rest (chr LF)
                | None => false
                end))
    /\ rule_matches (mods ++ "./" ++ r) ("./" ++ r) = Some true
    /\ rule_matches (mods ++ "./" ++ r) ("./" ++ swap_all r) = Some true.
Proof.
  intros mods r Hm Hi _ Hr Hne Hl.
  assert (Hall : forall s,
             rule_matches (mods ++ "./" ++ r) s
             = Some (match wstrip true "?" ("./" ++ r) s with
                     | Some rest =>
                         String.eqb rest "" || String.eqb rest (chr LF)
                     | None => false
                     end)).
  { intros s. rewrite (simple_rule_end mods r s Hm Hr Hne Hl). rewrite Hi.
    destruct (wstrip true "?" ("./" ++ r) s) as [[|c [|d rest]]|];
      try reflexivity.
    - simpl. destruct (c =? LF)%char; reflexivity.
    - simpl. destruct (c =? LF)%char; reflexivity. }
  split; [exact Hall|]. split.
  - rewrite Hall. now rewrite wstrip_self.
  - rewrite Hall. change ("./" ++ swap_all r) with (swap_all ("./" ++ r)).
    now rewrite wstrip_swapped.
Qed.

Lemma case_is_ignored_with_i_witness :
  (forall s,
      rule_matches ("i" ++ "./" ++ "ReadMe") s
      = Some (match wstrip true "?" ("./" ++ "ReadMe") s with
              | Some rest => String.eqb rest "" || String.eqb rest (chr LF)
              | None => false
              end))
  /\ rule_matches ("i" ++ "./" ++ "ReadMe") ("./" ++ "ReadMe") = Some true
  /\ rule_matches ("i" ++ "./" ++ "ReadMe") ("./" ++ swap_all "ReadMe")
     = Some true.
Proof.
  apply (case_is_ignored_with_i "i" "ReadMe"); try reflexivity; discriminate.
Defined.

Lemma spell_simple_regex :
  forall t, simple_regex t = true -> spell "." t = t.
Proof.
  intros t. induction t as [|c t IH]; intros H; [reflexivity|].
  unfold simple_regex in H. simpl in H. apply andb_true_iff in H.
  destruct H as [Hc Ht]. cbn [spell]. rewrite (IH Ht).
  unfold item. destruct (c =? ".")%char eqn:Hd.
  - apply Ascii.eqb_eq in Hd. subst c. reflexivity.
  - rewrite orb_false_r in Hc. unfold spell_item. rewrite Hc. reflexivity.
Qed.

(** X14: a regular expression is handed to the library as it is written, with
    no end anchor: [PCRE:] with a text of letters, digits, slashes, minus
    signs and dots (three characters or more) matches every path that
    starts as the text says, a dot standing for any character, whatever
    follows in the path. *)
Theorem regular_expression_is_open_at_the_end :
  forall (t s : string),
    c_string t ->
    simple_regex t = true ->
    3 <= strlen t ->
    rule_matches ("PCRE:" ++ t) s
    = Some (match wstrip false "." t s with
            | Some _ => true
            | None => false
            end).
Proof.
  intros t s _ Ht Hlen.
  assert (Hc : Regex.compile t false
               = Some (lits "." Regex.REmpty t, false)).
  { unfold Regex.compile.
    replace (S (String.length t)) with (String.length t + 1)%nat by lia.
    rewrite <- (spell_simple_regex t Ht) at 2.
    rewrite <- (append_nil_r (spell "." t)).
    rewrite parse_spell by reflexivity. reflexivity. }
  assert (Hi : exists ign : @ignore_t PcreFragment,
             ign___init_pattern_into ("PCRE:" ++ t) None = Ok ign
             /\ compiled ign = Some (lits "." Regex.REmpty t, false)).
  { unfold ign___init_pattern_into.
    rewrite (skip_white_nospace ("PCRE:" ++ t) _ 0) by reflexivity.
    cbn [bind].
    rewrite (modifiers_none ("PCRE:" ++ t)) by reflexivity. cbn [bind].
    change (init_kind ("PCRE:" ++ t) true false ("PCRE:" ++ t))
      with (init_regex ("PCRE:" ++ t) true false PT_PCRE t).
    unfold init_regex.
    replace (strlen t <? 3) with false by (symmetry; apply Z.ltb_ge; lia).
    unfold ign__compile_pattern. cbn [bind].
    change (pcre_compile t false) with (Regex.compile t false).
    rewrite Hc. cbn [pcre_study_err PcreFragment bind].
    eexists. split; reflexivity. }
  destruct Hi as (ign & Hi & Hcomp).
  rewrite (rule_matches_compiled _ _ _ s Hi Hcomp).
  rewrite exec_matches. cbn [fst snd].
  rewrite run_lits. cbn [Regex.run]. rewrite lit_run_wstrip.
  destruct (wstrip false "." t s); reflexivity.
Qed.

Lemma regular_expression_is_open_at_the_end_witness :
  rule_matches ("PCRE:" ++ "./home/a") "./home/anthony"
  = Some (match wstrip false "." "./home/a" "./home/anthony" with
          | Some _ => true
          | None => false
          end).
Proof.
  apply (regular_expression_is_open_at_the_end "./home/a" "./home/anthony").
  - reflexivity.
  - reflexivity.
  - vm_compute. discriminate.
Defined.

(** ** The order of the list *)

Section Order.

Context {E : Pcre}.

Lemma first_user_prefix :
  forall ilist : list ignore_t,
    Forall (fun ign => is_user_pat ign = false)
           (firstn (first_user ilist) ilist)
    /\ (first_user ilist <= List.length ilist)%nat.
Proof.
  intros ilist. induction ilist as [|ign ilist [IH1 IH2]].
  - split; [constructor|simpl; lia].
  - simpl. destruct (is_user_pat ign) eqn:Hu.
    + split; [constructor|lia].
    + split; [|lia]. simpl. constructor; assumption.
Qed.

Lemma system_first_split :
  forall ilist : list ignore_t,
    system_first ilist = true ->
    exists sys users,
      ilist = (sys ++ users)%list
      /\ Forall (fun ign => is_user_pat ign = false) sys
      /\ Forall (fun ign => is_user_pat ign = true) users
      /\ List.length sys = first_user ilist.
Proof.
  intros ilist H. unfold system_first in H.
  destruct (first_user_prefix ilist) as [H1 H2].
  exists (firstn (first_user ilist) ilist), (skipn (first_user ilist) ilist).
  split; [now rewrite firstn_skipn|]. split; [exact H1|].
  split; [|rewrite length_firstn; lia].
  apply Forall_forall. rewrite forallb_forall in H. exact H.
Qed.

Lemma system_first_app :
  forall sys users : list ignore_t,
    Forall (fun ign => is_user_pat ign = false) sys ->
    Forall (fun ign => is_user_pat ign = true) users ->
    system_first (sys ++ users) = true
    /\ first_user (sys ++ users) = List.length sys.
Proof.
  intros sys users Hs Hu.
  assert (Hf : first_user (sys ++ users) = List.length sys).
  { apply first_user_app; [exact Hs|].
    destruct users as [|u users]; [exact I|].
    inversion Hu; assumption. }
  split; [|exact Hf].
  unfold system_first. rewrite Hf.
  rewrite skipn_app, skipn_all, Nat.sub_diag. simpl.
  apply forallb_forall. rewrite Forall_forall in Hu. exact Hu.
Qed.

Lemma init_patterns_marks :
  forall count pats ends u (news : list ignore_t),
    init_patterns count pats ends u = Ok news ->
    List.length news = count
    /\ Forall (fun ign => is_user_pat ign = u) news.
Proof.
  intros count. induction count as [|count IH]; intros pats ends u news H.
  - simpl in H. injection H as <-. split; [reflexivity|constructor].
  - destruct pats as [|p pats]; [discriminate|]. simpl in H.
    destruct (ign___init_pattern_into p ends) as [ign| |];
      try discriminate. cbn [bind] in H.
    destruct (init_patterns count pats ends u) as [rest| |] eqn:Hr;
      try discriminate. cbn [bind] in H. injection H as <-.
    destruct (IH pats ends u rest Hr) as [H1 H2].
    split; [simpl; now rewrite H1|]. constructor; [reflexivity|exact H2].
Qed.

(** Where [ign__new_pattern] puts the new patterns, when it returns. *)
Lemma new_pattern_result :
  forall count pats ends u position (ilist ilist' : list ignore_t),
    ign__new_pattern count (Some pats) ends u position ilist = Ok ilist' ->
    exists (pos : nat) (news : list ignore_t),
      ilist' = (firstn pos ilist ++ news ++ skipn pos ilist)%list
      /\ init_patterns count pats ends u = Ok news
      /\ (pos <= List.length ilist)%nat
      /\ (position = PATTERN_POSITION_END \/ ilist = [] ->
          pos = List.length ilist)
      /\ (position <> PATTERN_POSITION_END -> ilist <> [] ->
          Z.of_nat pos = Z.of_nat (first_user ilist) + position).
Proof.
  intros count pats ends u position ilist ilist' H.
  unfold ign__new_pattern in H.
  destruct (position =? PATTERN_POSITION_END) eqn:Hp.
  - apply Z.eqb_eq in Hp. cbn [negb andb bind] in H.
    replace ((Z.of_nat (List.length ilist) <? Z.of_nat (List.length ilist))
             || (Z.of_nat (List.length ilist) <? 0)) with false in H
      by (symmetry; apply orb_false_iff; split; apply Z.ltb_ge; lia).
    destruct (init_patterns count pats ends u) as [news| |] eqn:Hn;
      try discriminate. cbn [bind] in H. injection H as <-.
    rewrite Nat2Z.id. exists (List.length ilist), news.
    repeat split; try lia; try (intros Hc; contradiction).
  - apply Z.eqb_neq in Hp. cbn [negb andb] in H.
    destruct (0 <? Z.of_nat (List.length ilist)) eqn:Hl.
    + apply Z.ltb_lt in Hl.
      destruct ((Z.of_nat (first_user ilist) + position <? 0)
                || (Z.of_nat (List.length ilist)
                    <? Z.of_nat (first_user ilist) + position)) eqn:Hb;
        [discriminate|].
      apply orb_false_iff in Hb. destruct Hb as [Hb1 Hb2].
      cbn [bind] in H. rewrite Hb2, Hb1 in H.
      apply Z.ltb_ge in Hb1. apply Z.ltb_ge in Hb2.
      cbn [orb] in H.
      destruct (init_patterns count pats ends u) as [news| |] eqn:Hn;
        try discriminate. cbn [bind] in H. injection H as <-.
      exists (Z.to_nat (Z.of_nat (first_user ilist) + position)), news.
      split; [reflexivity|]. split; [reflexivity|].
      split; [lia|]. split.
      * intros [Hc|Hc]; [contradiction|]. subst ilist. simpl in Hl. lia.
      * intros _ _. lia.
    + apply Z.ltb_ge in Hl. cbn [bind] in H.
      replace ((Z.of_nat (List.length ilist) <? Z.of_nat (List.length ilist))
               || (Z.of_nat (List.length ilist) <? 0)) with false in H
        by (symmetry; apply orb_false_iff; split; apply Z.ltb_ge; lia).
      destruct (init_patterns count pats ends u) as [news| |] eqn:Hn;
        try discriminate. cbn [bind] in H. injection H as <-.
      rewrite Nat2Z.id. exists (List.length ilist), news.
      repeat split; try lia;
        try (intros _ Hne; destruct ilist; [contradiction|simpl in Hl; lia]).
Qed.

(** X15: new patterns never push out the patterns of the list, and user
    patterns never get before the system patterns: when
    [ign__new_pattern] puts [count] user patterns at the end or at a
    position that is not negative, and returns, the list is longer by
    [count], the system patterns are the same as before and still before
    every user pattern, and leaving out the new patterns gives the list as
    it was. *)
Theorem system_patterns_stay_in_front :
  forall (count : nat) (pats : list string) (ends : option Z) (position : Z)
         (ilist ilist' : list ignore_t),
    system_first ilist = true ->
    position = PATTERN_POSITION_END \/ 0 <= position ->
    ign__new_pattern count (Some pats) ends true position ilist = Ok ilist' ->
    system_first ilist' = true
    /\ first_user ilist' = first_user ilist
    /\ firstn (first_user ilist) ilist' = firstn (first_user ilist) ilist
    /\ List.length ilist' = (List.length ilist + count)%nat
    /\ exists pos, (first_user ilist <= pos <= List.length ilist)%nat
                   /\ (firstn pos ilist' ++ skipn (pos + count) ilist')%list
                      = ilist.
Proof.
  intros count pats ends position ilist ilist' Hsf Hpos H.
  destruct (new_pattern_result _ _ _ _ _ _ _ H)
    as (pos & news & Hl & Hn & Hle & Hend & Hat).
  destruct (init_patterns_marks _ _ _ _ _ Hn) as [Hcount Hmarks].
  destruct (system_first_split ilist Hsf) as (sys & users & Hi & Hs & Hu & Hf).
  assert (Hge : (List.length sys <= pos)%nat).
  { destruct Hpos as [Hp|Hp].
    - rewrite (Hend (or_introl Hp)). rewrite Hi, length_app. lia.
    - destruct (Z.eq_dec position PATTERN_POSITION_END) as [He|He].
      + rewrite (Hend (or_introl He)). rewrite Hi, length_app. lia.
      + destruct ilist as [|a l] eqn:Hil.
        * rewrite (Hend (or_intror eq_refl)). simpl in *. lia.
        * assert (Hx : Z.of_nat pos = Z.of_nat (first_user (a :: l)) + position)
            by (apply Hat; [exact He|discriminate]).
          lia. }
  set (k := (pos - List.length sys)%nat).
  assert (H1 : firstn pos ilist = (sys ++ firstn k users)%list).
  { rewrite Hi, firstn_app. rewrite firstn_all2 by lia. reflexivity. }
  assert (H2 : skipn pos ilist = skipn k users).
  { rewrite Hi, skipn_app. rewrite skipn_all2 by lia. reflexivity. }
  assert (Hl2 : ilist' = (sys ++ (firstn k users ++ news ++ skipn k users))%list).
  { rewrite Hl, H1, H2. now rewrite <- app_assoc. }
  assert (Hu2 : Forall (fun ign : ignore_t => is_user_pat ign = true)
                       (firstn k users ++ news ++ skipn k users)).
  { rewrite <- (firstn_skipn k users) in Hu. apply Forall_app in Hu.
    apply Forall_app. split; [apply Hu|].
    apply Forall_app. split; [exact Hmarks|apply Hu]. }
  destruct (system_first_app sys _ Hs Hu2) as [Ha Hb].
  assert (Hlen : List.length ilist' = (List.length ilist + count)%nat).
  { rewrite Hl. rewrite !length_app, Hcount.
    rewrite length_firstn, length_skipn. lia. }
  split; [rewrite Hl2; exact Ha|].
  split; [rewrite Hl2, Hb; exact Hf|].
  split.
  { rewrite <- Hf. rewrite Hl2, Hi.
    rewrite !firstn_app, !Nat.sub_diag, !firstn_all. reflexivity. }
  split; [exact Hlen|].
  exists pos. split; [lia|].
  rewrite Hl.
  assert (Hfl : List.length (firstn pos ilist) = pos)
    by (rewrite length_firstn; lia).
  rewrite firstn_app, Hfl, Nat.sub_diag. simpl firstn at 2.
  rewrite app_nil_r. rewrite firstn_all2 by lia.
  rewrite skipn_app, Hfl.
  rewrite (skipn_all2 (firstn pos ilist)) by lia.
  replace (pos + count - pos)%nat with count by lia.
  rewrite skipn_app, Hcount, Nat.sub_diag.
  rewrite skipn_all2 by lia. simpl.
  apply firstn_skipn.
Qed.

End Order.

Lemma system_patterns_stay_in_front_witness :
  system_first
    [set_user_pat false (rule_of "./sys"); rule_of "./a"; rule_of "./new";
     rule_of "./b"] = true
  /\ first_user
       [set_user_pat false (rule_of "./sys"); rule_of "./a"; rule_of "./new";
        rule_of "./b"]
     = first_user [set_user_pat false (rule_of "./sys"); rule_of "./a";
                   rule_of "./b"]
  /\ firstn (first_user [set_user_pat false (rule_of "./sys"); rule_of "./a";
                         rule_of "./b"])
            [set_user_pat false (rule_of "./sys"); rule_of "./a";
             rule_of "./new"; rule_of "./b"]
     = firstn (first_user [set_user_pat false (rule_of "./sys");
                           rule_of "./a"; rule_of "./b"])
              [set_user_pat false (rule_of "./sys"); rule_of "./a";
               rule_of "./b"]
  /\ List.length
       [set_user_pat false (rule_of "./sys"); rule_of "./a"; rule_of "./new";
        rule_of "./b"]
     = (List.length [set_user_pat false (rule_of "./sys"); rule_of "./a";
                     rule_of "./b"] + 1)%nat
  /\ exists pos,
      (first_user [set_user_pat false (rule_of "./sys"); rule_of "./a";
                   rule_of "./b"] <= pos
       <= List.length [set_user_pat false (rule_of "./sys"); rule_of "./a";
                       rule_of "./b"])%nat
      /\ (firstn pos [set_user_pat false (rule_of "./sys"); rule_of "./a";
                      rule_of "./new"; rule_of "./b"]
          ++ skipn (pos + 1)
                   [set_user_pat false (rule_of "./sys"); rule_of "./a";
                    rule_of "./new"; rule_of "./b"])%list
         = [set_user_pat false (rule_of "./sys"); rule_of "./a";
            rule_of "./b"].
Proof.
  apply (system_patterns_stay_in_front (E := PcreFragment) 1 ["./new"] None 1
           [set_user_pat false (rule_of "./sys"); rule_of "./a";
            rule_of "./b"]).
  - vm_compute. reflexivity.
  - right. lia.
  - vm_compute. reflexivity.
Defined.

(** ** Files and commands *)

Section Files.

Context {E : Pcre}.






Lemma cstr_is_c_string : forall m, c_string (cstr m).
Proof.
  intros m. unfold c_string. induction m as [|c m IH]; [reflexivity|].
  simpl. destruct (c =? NUL)%char eqn:Hc; [reflexivity|].
  simpl. now rewrite Hc, IH.
Qed.

Lemma load_loop_parsed :
  forall l memory cp2 cp (ilist ilist' : list ignore_t),
    Forall parsed ilist ->
    load_loop l memory cp2 cp ilist = Ok ilist' ->
    Forall parsed ilist'.
Proof.
  intros l. induction l as [|l IH]; intros memory cp2 cp ilist ilist' Hp H.
  - simpl in H. injection H as <-. exact Hp.
  - rewrite load_loop_S in H.
    destruct (ign__new_pattern 1 (Some [cstr (drop (Z.to_nat cp) memory)])
                (Some (cp2 - cp)) true PATTERN_POSITION_END ilist)
      as [il| |] eqn:Hn; try discriminate.
    cbn [bind] in H.
    assert (Hil : Forall parsed il).
    { apply (new_pattern_parsed _ _ _ _ _ _ _ Hp) in Hn; [exact Hn|].
      constructor; [apply cstr_is_c_string|constructor]. }
    destruct (cp2 <=? cp + strlen (cstr (drop (Z.to_nat cp) memory)) + 1).
    + injection H as <-. exact Hil.
    + apply (IH _ _ _ _ _ Hil H).
Qed.

Lemma load_list_parsed :
  forall file (ilist ilist' : list ignore_t) status,
    Forall parsed ilist ->
    ign__load_list file ilist = Returns status ilist' ->
    Forall parsed ilist'.
Proof.
  intros file ilist ilist' status Hp H. unfold ign__load_list in H.
  destruct file as [memory|]; [|injection H as <- <-; exact Hp].
  destruct (strlen memory =? 0); [discriminate|].
  destruct (strchr (cstr memory) LF);
    [|injection H as <- <-; exact Hp].
  destruct (sscanf_u (cstr memory)); [|injection H as <- <-; constructor].
  destruct (load_loop _ _ _ _ _) as [il| |] eqn:Hl; try discriminate.
  - injection H as <- <-. apply (load_loop_parsed _ _ _ _ _ _ Hp Hl).
  - injection H as <- <-. constructor.
Qed.

Lemma load_stdin_parsed :
  forall lines (ilist ilist' : list ignore_t),
    Forall parsed ilist ->
    Forall c_string lines ->
    load_stdin lines ilist = Ok ilist' ->
    Forall parsed ilist'.
Proof.
  intros lines. induction lines as [|cp lines IH];
    intros ilist ilist' Hp Hc H.
  - simpl in H. injection H as <-. exact Hp.
  - cbn [load_stdin] in H. inversion Hc as [|x xs Hx Hxs]; subst.
    destruct (ign__new_pattern 1 (Some [cp]) None true PATTERN_POSITION_END
                               ilist) as [il| |] eqn:Hn; try discriminate.
    cbn [bind] in H.
    apply (IH il ilist'); [|exact Hxs|exact H].
    apply (new_pattern_parsed _ _ _ _ _ _ _ Hp) in Hn; [exact Hn|].
    constructor; [exact Hx|constructor].
Qed.

Lemma saved_list_loads :
  forall (HEADER_LEN : Z) (ilist : list ignore_t) (bytes : string),
    Forall parsed ilist ->
    Z.of_nat (List.length (user_patterns ilist)) < 2 ^ 31 ->
    ign__save_ignorelist HEADER_LEN ilist = Ok bytes ->
    ign__load_list (Some bytes) [] = Returns 0 (user_patterns ilist).
Proof.
  intros HEADER_LEN ilist bytes Hp Hn Hsave.
  assert (Hu : Forall (fun ign => is_user_pat ign = true /\ parsed ign)
                      (user_patterns ilist)).
  { apply Forall_forall. intros ign Hin. unfold user_patterns in Hin.
    apply filter_In in Hin. destruct Hin as [Hin Hus]. split; [exact Hus|].
    rewrite Forall_forall in Hp. apply Hp. exact Hin. }
  assert (Hbytes : bytes = print_u (List.length (user_patterns ilist))
                           ++ chr LF
                           ++ entries (map pattern (user_patterns ilist))).
  { unfold ign__save_ignorelist in Hsave.
    destruct (HEADER_LEN - 1
              <=? strlen (print_u (List.length (user_patterns ilist))));
      [discriminate|].
    injection Hsave as <-. unfold entries. rewrite map_map. reflexivity. }
  rewrite Hbytes. rewrite load_file.
  - rewrite load_texts_parsed by exact Hu. reflexivity.
  - apply Forall_forall. intros t Ht. apply in_map_iff in Ht.
    destruct Ht as (ign & <- & Hin).
    rewrite Forall_forall in Hu. apply (Hu ign Hin).
  - exact Hn.
Qed.

(** X17: what [ign__work] writes to the ignore file can be loaded again, and
    gives the user patterns of the list that the command leaves, in their
    order: this holds for every command that writes the file (patterns
    put at the end, at the start or at a position, and [load]), whatever
    the file held before. *)
Theorem what_work_writes_loads_again :
  forall (HEADER_LEN : Z) (file : option string) (stdin argv : list string)
         (list0 ilist' : list ignore_t) (bytes : string),
    Forall parsed list0 ->
    Forall c_string argv ->
    Forall c_string stdin ->
    ign__work HEADER_LEN file stdin argv list0 = Ok (ilist', Some bytes) ->
    Z.of_nat (List.length (user_patterns ilist')) < 2 ^ 31 ->
    ign__load_list (Some bytes) [] = Returns 0 (user_patterns ilist').
Proof.
  intros HEADER_LEN file stdin argv list0 ilist' bytes Hp Hargv Hstdin H Hn.
  unfold ign__work in H.
  destruct argv as [|a0 argv']; [discriminate|].
  inversion Hargv as [|x xs Ha0 Hargv']; subst.
  destruct (String.eqb a0 parm_load).
  - destruct (load_stdin stdin list0) as [il| |] eqn:Hl; try discriminate.
    cbn [bind] in H.
    destruct (ign__save_ignorelist HEADER_LEN il) as [b| |] eqn:Hs;
      try discriminate.
    cbn [bind] in H. injection H as <- <-.
    apply (saved_list_loads HEADER_LEN il b); [|exact Hn|exact Hs].
    apply (load_stdin_parsed stdin list0 il Hp Hstdin Hl).
  - destruct (ign__load_list file list0) as [status il|] eqn:Hl;
      [|discriminate].
    destruct (negb (status =? 0)); [discriminate|].
    destruct (String.eqb a0 parm_dump); [discriminate|].
    pose proof (load_list_parsed _ _ _ _ Hp Hl) as Hil.
    assert (Hfin : forall args position,
               Forall c_string args ->
               (il1 <- ign__new_pattern (List.length args) (Some args) None
                         true position il ;;
                b <- ign__save_ignorelist HEADER_LEN il1 ;;
                Ok (il1, Some b)) = Ok (ilist', Some bytes) ->
               ign__load_list (Some bytes) []
               = Returns 0 (user_patterns ilist')).
    { intros args position Hargs Hw.
      destruct (ign__new_pattern (List.length args) (Some args) None true
                                 position il) as [il1| |] eqn:Hnp;
        try discriminate.
      cbn [bind] in Hw.
      destruct (ign__save_ignorelist HEADER_LEN il1) as [b| |] eqn:Hs;
        try discriminate.
      cbn [bind] in Hw. injection Hw as <- <-.
      apply (saved_list_loads HEADER_LEN il1 b); [|exact Hn|exact Hs].
      apply (new_pattern_parsed _ _ _ _ _ _ _ Hil Hargs Hnp). }
    destruct (String.eqb a0 "prepend").
    + cbn [bind] in H. apply (Hfin argv' _ Hargv' H).
    + destruct (sscanf_at a0) as [i|].
      * destruct (Z.of_nat (List.length il) <? i); [discriminate|].
        cbn [bind] in H. apply (Hfin argv' _ Hargv' H).
      * destruct (String.eqb a0 "append").
        -- cbn [bind] in H. apply (Hfin argv' _ Hargv' H).
        -- cbn [bind] in H. apply (Hfin (a0 :: argv') _ Hargv H).
Qed.

End Files.


Lemma what_work_writes_loads_again_witness :
  ign__load_list
    (Some ("2" ++ chr LF ++ "./new" ++ chr NUL ++ chr LF
               ++ "./old" ++ chr NUL ++ chr LF)) []
  = Returns 0 (user_patterns
                 [set_user_pat false (rule_of "./sys"); rule_of "./new";
                  rule_of "./old"]).
Proof.
  apply (what_work_writes_loads_again (E := PcreFragment) 64
           (Some ("1" ++ chr LF ++ "./old" ++ chr NUL ++ chr LF))
           [] ["prepend"; "./new"] [set_user_pat false (rule_of "./sys")]
           [set_user_pat false (rule_of "./sys"); rule_of "./new";
            rule_of "./old"]).
  - repeat constructor; vm_compute; reflexivity.
  - repeat constructor.
  - constructor.
  - vm_compute. reflexivity.
  - vm_compute. reflexivity.
Defined.

Section Commands.

Context {E : Pcre}.

Lemma new_pattern_at_end :
  forall count pats ends u (ilist news : list ignore_t),
    init_patterns count pats ends u = Ok news ->
    ign__new_pattern count (Some pats) ends u PATTERN_POSITION_END ilist
    = Ok (ilist ++ news)%list.
Proof.
  intros count pats ends u ilist news Hn. unfold ign__new_pattern.
  change (negb (PATTERN_POSITION_END =? PATTERN_POSITION_END)) with false.
  cbn [andb bind].
  replace ((Z.of_nat (List.length ilist) <? Z.of_nat (List.length ilist))
           || (Z.of_nat (List.length ilist) <? 0)) with false
    by (symmetry; apply orb_false_iff; split; apply Z.ltb_ge; lia).
  rewrite Hn. cbn [bind].
  rewrite Nat2Z.id, firstn_all, skipn_all, app_nil_r. reflexivity.
Qed.

Lemma sscanf_at_print :
  forall k : nat,
    Z.of_nat k < 2 ^ 31 ->
    sscanf_at ("at=" ++ print_u k) = Some (Z.of_nat k).
Proof.
  intros k Hk. unfold sscanf_at.
  change (strip_prefix "at=" ("at=" ++ print_u k)) with (Some (print_u k)).
  cbv iota.
  destruct (print_u_digits k) as [Hd Hne].
  destruct (print_u k) as [|c s] eqn:Hp; [contradiction|].
  simpl in Hd. apply andb_true_iff in Hd. destruct Hd as [Hc _].
  assert (Hs : skip_space (String c s) = String c s)
    by (simpl; now rewrite (digit_no_space c Hc)).
  rewrite Hs.
  assert (Hg : sign_of (String c s) = (false, String c s)).
  { simpl. destruct (digit_no_sign c Hc) as [-> ->]. reflexivity. }
  rewrite Hg. rewrite <- Hp.
  rewrite <- (append_nil_r (print_u k)).
  rewrite (digits_print_u k "" eq_refl).
  rewrite to_int_small by lia. reflexivity.
Qed.

(** X18: where the command puts new patterns.  With the list that loading the
    ignore file leaves being the system patterns [sys] and the user
    patterns [users], and with patterns that the parser accepts,
    [prepend] puts them between the system patterns and the user
    patterns, [at=k] (for [k] up to the number of user patterns) before
    the user pattern with the number [k], counted from 0, and [append]
    behind all patterns; the list is then written to the file. *)
Theorem where_work_puts_new_patterns :
  forall (HEADER_LEN : Z) (file : option string) (stdin pats : list string)
         (list0 sys users news : list ignore_t),
    ign__load_list file list0 = Returns 0 (sys ++ users)%list ->
    Forall (fun ign => is_user_pat ign = false) sys ->
    Forall (fun ign => is_user_pat ign = true) users ->
    init_patterns (List.length pats) pats None true = Ok news ->
    ign__work HEADER_LEN file stdin ("prepend" :: pats) list0
    = (b <- ign__save_ignorelist HEADER_LEN (sys ++ news ++ users)%list ;;
       Ok ((sys ++ news ++ users)%list, Some b))
    /\ (forall k : nat,
           (k <= List.length users)%nat ->
           Z.of_nat k < 2 ^ 31 ->
           ign__work HEADER_LEN file stdin (("at=" ++ print_u k) :: pats)
                     list0
           = (b <- ign__save_ignorelist HEADER_LEN
                     (sys ++ firstn k users ++ news ++ skipn k users)%list ;;
              Ok ((sys ++ firstn k users ++ news ++ skipn k users)%list,
                  Some b)))
    /\ ign__work HEADER_LEN file stdin ("append" :: pats) list0
       = (b <- ign__save_ignorelist HEADER_LEN (sys ++ users ++ news)%list ;;
          Ok ((sys ++ users ++ news)%list, Some b)).
Proof.
  intros HEADER_LEN file stdin pats list0 sys users news Hl Hs Hu Hn.
  assert (Hhead : match users with
                  | ign :: _ => is_user_pat ign = true
                  | [] => True
                  end).
  { destruct users as [|u users]; [exact I|]. inversion Hu; assumption. }
  split; [|split].
  - unfold ign__work.
    change (String.eqb "prepend" parm_load) with false. cbv iota.
    rewrite Hl. cbn [negb Z.eqb]. cbv iota.
    change (String.eqb "prepend" parm_dump) with false. cbv iota.
    change (String.eqb "prepend" "prepend") with true. cbv iota.
    cbn [bind].
    change PATTERN_POSITION_START with (Z.of_nat 0).
    rewrite (insert_at_index E (List.length pats) pats sys users news 0
               Hs Hhead (Nat.le_0_l _) Hn).
    reflexivity.
  - intros k Hk Hk2. unfold ign__work.
    change (String.eqb ("at=" ++ print_u k) parm_load) with false. cbv iota.
    rewrite Hl. cbn [negb Z.eqb]. cbv iota.
    change (String.eqb ("at=" ++ print_u k) parm_dump) with false. cbv iota.
    change (String.eqb ("at=" ++ print_u k) "prepend") with false. cbv iota.
    rewrite (sscanf_at_print k Hk2).
    replace (Z.of_nat (List.length (sys ++ users)) <? Z.of_nat k) with false
      by (symmetry; apply Z.ltb_ge; rewrite length_app; lia).
    cbn [bind].
    rewrite (insert_at_index E (List.length pats) pats sys users news k
               Hs Hhead Hk Hn).
    reflexivity.
  - unfold ign__work.
    change (String.eqb "append" parm_load) with false. cbv iota.
    rewrite Hl. cbn [negb Z.eqb]. cbv iota.
    change (String.eqb "append" parm_dump) with false. cbv iota.
    change (String.eqb "append" "prepend") with false. cbv iota.
    change (sscanf_at "append") with (@None Z). cbv iota.
    change (String.eqb "append" "append") with true. cbv iota.
    cbn [bind].
    rewrite (new_pattern_at_end _ _ _ _ (sys ++ users)%list news Hn).
    rewrite <- app_assoc. reflexivity.
Qed.

End Commands.

Lemma where_work_puts_new_patterns_witness :
  ign__work 64 None [] ["prepend"; "./new"]
            [set_user_pat false (rule_of "./sys"); rule_of "./a"]
  = (b <- ign__save_ignorelist 64
            ([set_user_pat false (rule_of "./sys")] ++ [rule_of "./new"]
             ++ [rule_of "./a"])%list ;;
     Ok (([set_user_pat false (rule_of "./sys")] ++ [rule_of "./new"]
          ++ [rule_of "./a"])%list, Some b))
  /\ (forall k : nat,
         (k <= List.length [rule_of "./a"])%nat ->
         Z.of_nat k < 2 ^ 31 ->
         ign__work 64 None [] (("at=" ++ print_u k) :: ["./new"])
                   [set_user_pat false (rule_of "./sys"); rule_of "./a"]
         = (b <- ign__save_ignorelist 64
                   ([set_user_pat false (rule_of "./sys")]
                    ++ firstn k [rule_of "./a"] ++ [rule_of "./new"]
                    ++ skipn k [rule_of "./a"])%list ;;
            Ok (([set_user_pat false (rule_of "./sys")]
                 ++ firstn k [rule_of "./a"] ++ [rule_of "./new"]
                 ++ skipn k [rule_of "./a"])%list, Some b)))
  /\ ign__work 64 None [] ["append"; "./new"]
               [set_user_pat false (rule_of "./sys"); rule_of "./a"]
     = (b <- ign__save_ignorelist 64
               ([set_user_pat false (rule_of "./sys")] ++ [rule_of "./a"]
                ++ [rule_of "./new"])%list ;;
        Ok (([set_user_pat false (rule_of "./sys")] ++ [rule_of "./a"]
             ++ [rule_of "./new"])%list, Some b)).
Proof.
  apply (where_work_puts_new_patterns (E := PcreFragment) 64 None []
           ["./new"] [set_user_pat false (rule_of "./sys"); rule_of "./a"]
           [set_user_pat false (rule_of "./sys")] [rule_of "./a"]
           [rule_of "./new"]).
  - reflexivity.
  - repeat constructor.
  - repeat constructor.
  - vm_compute. reflexivity.
Defined.

(** ** The lists of a directory *)

Section ParentListFacts.

Context {E : Pcre}.

Lemma set_nth_ok :
  forall (A : Type) (l : list A) (i : nat) (v : A),
    (i < List.length l)%nat ->
    set_nth i v l = Some (firstn i l ++ v :: skipn (S i) l)%list.
Proof.
  intros A l. induction l as [|x l IH]; intros i v H; [simpl in H; lia|].
  destruct i as [|i]; [reflexivity|].
  simpl in H. cbn [set_nth]. rewrite (IH i v) by lia. reflexivity.
Qed.

Lemma firstn_written :
  forall (A : Type) (l : list A) (i : nat) (v : A),
    (i < List.length l)%nat ->
    firstn (S i) (firstn i l ++ v :: skipn (S i) l) = (firstn i l ++ [v])%list.
Proof.
  intros A l i v H.
  assert (Hl : List.length (firstn i l) = i) by (rewrite length_firstn; lia).
  rewrite firstn_app, Hl.
  replace (S i - i)%nat with 1%nat by lia.
  rewrite firstn_all2 by lia. reflexivity.
Qed.

Lemma skipn_written :
  forall (A : Type) (l : list A) (i k : nat) (v : A),
    (i < List.length l)%nat ->
    skipn (S i + k) (firstn i l ++ v :: skipn (S i) l) = skipn (S i + k) l.
Proof.
  intros A l i k v H.
  assert (Hl : List.length (firstn i l) = i) by (rewrite length_firstn; lia).
  rewrite skipn_app, Hl.
  rewrite skipn_all2 by lia.
  replace (S i + k - i)%nat with (S k) by lia.
  change (skipn (S k) (v :: skipn (S i) l)) with (skipn k (skipn (S i) l)).
  rewrite skipn_skipn. rewrite app_nil_l. f_equal. lia.
Qed.

(** The loop over the patterns of [source] that are still to be read. *)
Lemma parent_loop_spec :
  forall (pats done : list ignore_t) (rest cur : list (option ignore_t))
         (h : heap) (t src : nat) (idx fuel : nat) (level : Z) (all : bool),
    t <> src ->
    h src = Some (map Some done ++ map Some pats ++ None :: rest)%list ->
    h t = Some cur ->
    (idx + List.length (filter (take level) pats) <= List.length cur)%nat ->
    (List.length pats < fuel)%nat ->
    exists h' : heap,
      parent_loop fuel h (Some t) (Z.of_nat idx) src (List.length done)
                  level all
      = Ok (h', Z.of_nat (idx + List.length (filter (take level) pats)),
            all && forallb (take level) pats)
      /\ h' src = h src
      /\ (forall a, a <> t -> h' a = h a)
      /\ h' t = Some (firstn idx cur
                        ++ map Some (filter (take level) pats)
                        ++ skipn (idx + List.length
                                          (filter (take level) pats)) cur)%list.
Proof.
  assert (Hget : forall (pats done : list ignore_t)
                        (rest : list (option ignore_t)) (h : heap) src,
             h src = Some (map Some done ++ map Some pats ++ None :: rest)%list ->
             heap_get h src (List.length done)
             = nth_error (map Some pats ++ None :: rest) 0).
  { intros pats done rest h src Hsrc. unfold heap_get. rewrite Hsrc.
    rewrite nth_error_app2 by (rewrite length_map; lia).
    now rewrite length_map, Nat.sub_diag. }
  intros pats. induction pats as [|p pats IH];
    intros done rest cur h t src idx fuel level all Hts Hsrc Ht Hroom Hfuel.
  - destruct fuel as [|fuel]; [simpl in Hfuel; lia|].
    cbn [parent_loop]. rewrite (Hget [] done rest h src Hsrc). cbn [map List.app nth_error].
    exists h. simpl filter. simpl List.length.
    rewrite Nat.add_0_r, andb_true_r.
    split; [reflexivity|]. split; [reflexivity|].
    split; [reflexivity|].
    rewrite Ht. simpl. now rewrite firstn_skipn.
  - destruct fuel as [|fuel]; [simpl in Hfuel; lia|]. simpl in Hfuel.
    cbn [parent_loop]. rewrite (Hget (p :: pats) done rest h src Hsrc).
    cbn [map List.app nth_error].
    assert (Hsrc2 : forall h1 : heap,
               h1 src = h src ->
               h1 src = Some (map Some (done ++ [p]) ++ map Some pats
                                  ++ None :: rest)%list).
    { intros h1 H1. rewrite H1, Hsrc. rewrite map_app.
      rewrite <- app_assoc. reflexivity. }
    assert (Hdone : S (List.length done) = List.length (done ++ [p]))
      by (rewrite length_app; simpl; lia).
    cbn [filter forallb] in *.
    destruct (take level p) eqn:Htake.
    + cbn [List.length] in Hroom.
      unfold heap_set.
      replace (Z.of_nat idx <? 0) with false
        by (symmetry; apply Z.ltb_ge; lia).
      rewrite Ht. rewrite Nat2Z.id.
      rewrite (set_nth_ok _ cur idx (Some p)) by lia.
      set (cur' := (firstn idx cur ++ Some p :: skipn (S idx) cur)%list).
      set (h1 := fun b : nat => if Nat.eqb b t then Some cur' else h b).
      assert (H1s : h1 src = h src).
      { unfold h1. destruct (Nat.eqb_spec src t); [congruence|reflexivity]. }
      assert (H1t : h1 t = Some cur')
        by (unfold h1; now rewrite Nat.eqb_refl).
      assert (Hlen : List.length cur' = List.length cur).
      { unfold cur'. rewrite length_app. cbn [List.length].
        rewrite length_firstn, length_skipn. lia. }
      rewrite Hdone.
      replace (Z.of_nat idx + 1) with (Z.of_nat (S idx)) by lia.
      destruct (IH (done ++ [p])%list rest cur' h1 t src (S idx) fuel level
                   all Hts (Hsrc2 h1 H1s) H1t ltac:(lia) ltac:(lia))
        as (h' & Hr & Hs' & Ho & Ht').
      exists h'. split.
      { rewrite Hr. cbn [List.length]. rewrite andb_true_l.
        replace (idx + S (List.length (filter (take level) pats)))%nat
          with (S idx + List.length (filter (take level) pats))%nat by lia.
        reflexivity. }
      split; [now rewrite Hs', H1s|]. split.
      { intros a Ha. rewrite (Ho a Ha). unfold h1.
        destruct (Nat.eqb_spec a t); [contradiction|reflexivity]. }
      rewrite Ht'. unfold cur'.
      rewrite (firstn_written _ cur idx (Some p)) by lia.
      rewrite (skipn_written _ cur idx _ (Some p)) by lia.
      cbn [map List.length]. rewrite <- app_assoc.
      replace (idx + S (List.length (filter (take level) pats)))%nat
        with (S idx + List.length (filter (take level) pats))%nat by lia.
      reflexivity.
    + rewrite Hdone.
      destruct (IH (done ++ [p])%list rest cur h t src idx fuel level false
                   Hts (Hsrc2 h eq_refl) Ht Hroom ltac:(lia))
        as (h' & Hr & Hs' & Ho & Ht').
      exists h'. split.
      { rewrite Hr. cbn [andb]. now rewrite andb_false_r. }
      split; [exact Hs'|]. split; [exact Ho|exact Ht'].
Qed.

(** X19: the list of a directory is the list of its parent, filtered or
    shared.  From a source that ends with a NULL pointer, the patterns
    that are taken at the level of the directory are written to the
    target from [next_index] on, in their order, and the index behind the
    last of them is returned; the source and every other array stay as
    they are.  When every pattern of the source is taken -- also when the
    source holds none -- the target is freed and replaced by the source
    itself: the two directories then share one array, and what stood in
    the target before [next_index] is gone. *)
Theorem parent_list_is_filtered_or_shared :
  forall (h : heap) (t src : nat) (old rest : list (option ignore_t))
         (pats : list ignore_t) (next_index : nat) (level : Z),
    t <> src ->
    h src = Some (map Some pats ++ None :: rest)%list ->
    h t = Some old ->
    (next_index + List.length (filter (take level) pats)
     <= List.length old)%nat ->
    exists h' : heap,
      ign___do_parent_list h (Some t) (Z.of_nat next_index) (Some src) level
      = Ok (h',
            (if forallb (take level) pats then Some src else Some t),
            Z.of_nat (next_index
                      + List.length (filter (take level) pats)))
      /\ h' src = h src
      /\ (forall a, a <> t -> h' a = h a)
      /\ h' t = (if forallb (take level) pats then None
                 else Some (firstn next_index old
                              ++ map Some (filter (take level) pats)
                              ++ skipn (next_index
                                        + List.length
                                            (filter (take level) pats))
                                       old)%list).
Proof.
  intros h t src old rest pats next_index level Hts Hsrc Ht Hroom.
  unfold ign___do_parent_list. rewrite Hsrc.
  destruct (parent_loop_spec pats [] rest old h t src next_index
              (List.length (map Some pats ++ None :: rest)) level true
              Hts Hsrc Ht Hroom
              ltac:(rewrite length_app, length_map; simpl; lia))
    as (h' & Hr & Hs' & Ho & Ht').
  cbn [List.length] in Hr. rewrite Hr. cbn [bind andb].
  destruct (forallb (take level) pats).
  - unfold IF_FREE. rewrite Ht'.
    eexists. split; [reflexivity|]. cbn beta.
    split.
    { destruct (Nat.eqb_spec src t); congruence. }
    split.
    { intros a Ha. destruct (Nat.eqb_spec a t); [contradiction|].
      apply Ho. exact Ha. }
    now rewrite Nat.eqb_refl.
  - exists h'. split; [reflexivity|].
    split; [congruence|]. split; [exact Ho|exact Ht'].
Qed.

End ParentListFacts.

Lemma parent_list_is_filtered_or_shared_witness :
  exists h' : heap,
    ign___do_parent_list
      (fun a => match a with
                | O => Some [Some (rule_of "./a/**"); Some (rule_of "./b");
                             None]
                | S O => Some [None; None; None]
                | _ => None
                end)
      (Some 1%nat) (Z.of_nat 0) (Some 0%nat) 3
    = Ok (h',
          (if forallb (take 3) [rule_of "./a/**"; rule_of "./b"]
           then Some 0%nat else Some 1%nat),
          Z.of_nat (0 + List.length
                          (filter (take 3)
                                  [rule_of "./a/**"; rule_of "./b"])))
    /\ h' 0%nat
       = (fun a => match a with
                   | O => Some [Some (rule_of "./a/**"); Some (rule_of "./b");
                                None]
                   | S O => Some [None; None; None]
                   | _ => None
                   end) 0%nat
    /\ (forall a, a <> 1%nat ->
                  h' a
                  = (fun a => match a with
                              | O => Some [Some (rule_of "./a/**");
                                           Some (rule_of "./b"); None]
                              | S O => Some [None; None; None]
                              | _ => None
                              end) a)
    /\ h' 1%nat
       = (if forallb (take 3) [rule_of "./a/**"; rule_of "./b"] then None
          else Some (firstn 0 [None; None; None]
                       ++ map Some (filter (take 3)
                                           [rule_of "./a/**"; rule_of "./b"])
                       ++ skipn (0 + List.length
                                       (filter (take 3)
                                               [rule_of "./a/**";
                                                rule_of "./b"]))
                                [None; None; None])%list).
Proof.
  apply (parent_list_is_filtered_or_shared (E := PcreFragment)
           (fun a => match a with
                     | O => Some [Some (rule_of "./a/**");
                                  Some (rule_of "./b"); None]
                     | S O => Some [None; None; None]
                     | _ => None
                     end)
           1%nat 0%nat [None; None; None] [] [rule_of "./a/**"; rule_of "./b"]
           0%nat 3).
  - discriminate.
  - reflexivity.
  - reflexivity.
  - vm_compute. lia.
Defined.

(** ** The parser always returns *)

(** X6: the parser returns for every text, and with nothing but a pattern or
    [EINVAL] (memory being there): the buffer that the translator of shell
    patterns works in (five characters for each character of the pattern,
    and sixteen more) is never too small, and no text is read behind its
    end.  The pattern that is returned holds its text in such a way that
    parsing this text gives the same pattern again. *)
Theorem parser_returns_a_pattern_or_einval :
  forall (E : Pcre) (text : string) (ends : option Z),
    (exists ign : ignore_t,
        ign___init_pattern_into text ends = Ok ign
        /\ is_user_pat ign = false
        /\ ign___init_pattern_into (pattern ign) None = Ok ign)
    \/ ign___init_pattern_into text ends = Err EINVAL.
Proof.
  intros E text ends. apply init_result.
Qed.

(** ** Patterns with a wildcard for directory levels *)

(** What is left behind a bracket expression is the end of the text. *)
Lemma bracket_content_suffix :
  forall n s first,
    (String.length s <= n)%nat ->
    exists pre, s = pre ++ snd (bracket_content first s).
Proof.
  intros n. induction n as [|n IH]; intros s first Hn.
  - destruct s; [exists ""; reflexivity|simpl in Hn; lia].
  - destruct s as [|c s]; [exists ""; reflexivity|]. simpl in Hn.
    simpl bracket_content.
    destruct (c =? "\")%char.
    + destruct s as [|e s]; [exists (chr c); reflexivity|]. simpl in Hn.
      destruct (IH s false ltac:(lia)) as [pre Hpre].
      destruct (bracket_content false s) as [o r]. simpl in *.
      exists (String c (String e pre)). simpl. now rewrite <- Hpre.
    + destruct ((c =? "]")%char && negb first).
      * exists (chr c). reflexivity.
      * destruct (IH s false ltac:(lia)) as [pre Hpre].
        destruct (bracket_content false s) as [o r]. simpl in *.
        exists (String c pre). simpl. now rewrite <- Hpre.
Qed.

Lemma bracket_negations_suffix :
  forall s, exists pre, s = pre ++ snd (bracket_negations s).
Proof.
  intros s. induction s as [|c s [pre IH]]; [exists ""; reflexivity|].
  simpl. destruct (is_negation c).
  - destruct (bracket_negations s) as [o r]. simpl in *.
    exists (String c pre). simpl. now rewrite <- IH.
  - exists "". reflexivity.
Qed.

Lemma bracket_spec_suffix :
  forall s, exists pre, s = pre ++ snd (bracket_spec s).
Proof.
  intros s. unfold bracket_spec.
  destruct (bracket_negations_suffix s) as [p1 H1].
  destruct (bracket_negations s) as [o1 r1]. simpl snd in H1.
  destruct (bracket_content_suffix (String.length r1) r1 true (le_n _))
    as [p2 H2].
  destruct (bracket_content true r1) as [o2 r2]. simpl in *.
  exists (p1 ++ p2). rewrite append_assoc. now rewrite <- H2.
Qed.

Lemma has_star_run_cons :
  forall c s, has_star_run s = true -> has_star_run (String c s) = true.
Proof. intros c s H. simpl. rewrite H. apply orb_true_r. Qed.

Lemma has_star_run_app :
  forall pre s, has_star_run s = true -> has_star_run (pre ++ s) = true.
Proof.
  intros pre s H. induction pre as [|c pre IH]; [exact H|].
  change (String c pre ++ s) with (String c (pre ++ s)).
  apply has_star_run_cons. exact IH.
Qed.

(** The translation marks a pattern as one with a wild wildcard only when
    it reads two stars in a row. *)
Lemma glob_spec_star_run :
  forall n s,
    (String.length s <= n)%nat ->
    snd (glob_text s) = true ->
    has_star_run s = true.
Proof.
  intros n. induction n as [|n IH]; intros s Hn H.
  - destruct s; [discriminate|simpl in Hn; lia].
  - destruct s as [|c s']; [discriminate|]. simpl in Hn.
    rewrite glob_text_cons in H.
    destruct (c =? "\")%char.
    { destruct s' as [|e s'']; [discriminate|]. simpl in Hn.
      unfold prepend in H. cbn [snd] in H.
      apply has_star_run_cons, has_star_run_cons.
      apply IH; [lia|exact H]. }
    destruct (c =? "*")%char eqn:Hstar.
    { destruct (starts_with "*" s') eqn:Hs.
      - simpl. rewrite Hstar, Hs. reflexivity.
      - unfold prepend in H. cbn [snd] in H.
        apply has_star_run_cons. apply IH; [lia|exact H]. }
    destruct (c =? "?")%char.
    { unfold prepend in H. cbn [snd] in H.
      apply has_star_run_cons. apply IH; [lia|exact H]. }
    destruct (c =? "[")%char.
    { unfold prepend in H. cbn [snd] in H.
      apply has_star_run_cons.
      destruct (bracket_spec_suffix s') as [pre Hpre].
      rewrite Hpre. apply has_star_run_app.
      apply IH; [|exact H].
      pose proof (bracket_spec_length s'). lia. }
    destruct (is_plain c).
    { unfold prepend in H. cbn [snd] in H.
      apply has_star_run_cons. apply IH; [lia|exact H]. }
    unfold prepend in H. cbn [snd] in H.
    apply has_star_run_cons. apply IH; [lia|exact H].
Qed.

(** X9: a shell pattern is only marked as one with a wildcard for directory
    levels ([has_wildwildcard]) when its text has two stars in a row. *)
Theorem wild_wildcard_needs_two_stars :
  forall (E : Pcre) (text : string) (ends : option Z) (ign : ignore_t),
    ign___init_pattern_into text ends = Ok ign ->
    type ign = PT_SHELL ->
    has_wildwildcard ign = true ->
    has_star_run (pattern ign) = true.
Proof.
  intros E text ends ign H Hty Hww.
  unfold ign___init_pattern_into in H.
  set (end_ := match ends with
               | Some e => if strlen text <? e then strlen text else e
               | None => strlen text
               end) in H.
  destruct (skip_white end_ 0 text) as [[off raw]| |] eqn:Hw;
    try discriminate.
  cbn [bind] in H.
  destruct (modifiers end_ off true false raw) as [[[a' b'] q]| |] eqn:Hm;
    try discriminate.
  cbn [bind] in H.
  destruct (modifiers_split _ _ _ _ _ _ _ _ Hm) as (mods & Hraw & _).
  destruct (modifiers_result raw end_ off true false)
    as [(a2 & b2 & q2 & Hm2 & Hq)|Hm2]; [|congruence].
  rewrite Hm in Hm2. injection Hm2 as <- <- <-.
  unfold init_kind in H.
  destruct (strip_prefix "DEVICE:" q) as [rest|].
  { unfold init_device in H.
    destruct (comparators PAT_DEV__UNSPECIFIED rest) as [cmp0 p1].
    destruct (strtoul p1) as [[mj cp]|]; [|discriminate].
    destruct cp as [|c p2].
    - injection H as <-. discriminate.
    - destruct (c =? ":")%char; [|discriminate]. simpl negb in H.
      cbv iota in H.
      destruct (strtoul p2) as [[mn cp']|]; [|discriminate].
      destruct cp'; [|discriminate].
      injection H as <-. discriminate. }
  destruct (strip_prefix "INODE:" q) as [rest|].
  { unfold init_inode in H.
    destruct (number_colon rest) as [[mj p1]| |]; try discriminate.
    cbn [bind] in H.
    destruct (number_colon p1) as [[mn p2]| |]; try discriminate.
    cbn [bind] in H.
    destruct (strtoull p2) as [[i cp]|]; [|discriminate].
    destruct cp; [|discriminate].
    injection H as <-. discriminate. }
  destruct (strip_prefix "PCRE:" q) as [rest|].
  { unfold init_regex in H.
    destruct (strlen rest <? 3); [discriminate|].
    destruct (ign__compile_pattern PT_PCRE b' raw rest)
      as [[[cmp hww] re]| |]; try discriminate.
    cbn [bind] in H. injection H as <-. discriminate. }
  destruct (strip_prefix "./" q); [|discriminate].
  unfold init_regex in H.
  destruct (strlen q <? 3) eqn:H3; [discriminate|].
  apply Z.ltb_ge in H3.
  unfold ign__compile_pattern in H.
  assert (Hne : q <> "").
  { intros ->. unfold strlen in H3. simpl in H3. lia. }
  rewrite (translation_documented raw q Hne) in H
    by (unfold strlen in Hq; lia).
  cbn [bind] in H.
  destruct (pcre_compile (anchor q (fst (glob_text q))) b') as [re|];
    [|discriminate].
  destruct (pcre_study_err re); [discriminate|].
  injection H as <-. cbn in Hww |- *.
  rewrite Hraw. apply has_star_run_app.
  apply (glob_spec_star_run (String.length q) q (le_n _) Hww).
Qed.

Lemma wild_wildcard_needs_two_stars_witness :
  has_star_run (pattern (set_user_pat false (rule_of "t./home/**~"))) = true.
Proof.
  apply (wild_wildcard_needs_two_stars PcreFragment "t./home/**~" None
           (set_user_pat false (rule_of "t./home/**~"))).
  - vm_compute. reflexivity.
  - reflexivity.
  - reflexivity.
Defined.

(** ** The header of the file, at its edges *)

Lemma strchr_none :
  forall s c, has_char c s = false -> strchr s c = None.
Proof.
  intros s c. induction s as [|a s IH]; intros H; [reflexivity|].
  simpl in H. apply orb_false_iff in H. destruct H as [H1 H2].
  simpl. rewrite H1. now rewrite IH.
Qed.

Lemma strchr_some :
  forall s c, has_char c s = true -> exists k, strchr s c = Some k.
Proof.
  intros s c. induction s as [|a s IH]; intros H; [discriminate|].
  simpl in H. simpl. destruct (a =? c)%char; [now exists 0|].
  destruct (IH H) as [k ->]. now exists (k + 1).
Qed.

(** X20: what the first line of the file decides before any pattern is read.
    A file without a newline in its first text counts as a file without
    patterns: the call returns 0 and the list stays as it is, whatever
    the file holds.  A first line that does not start with a number
    makes the call return [EINVAL] and leaves no entry in use. *)
Theorem header_decides_before_any_pattern :
  (forall (E : Pcre) (memory : string) (ilist : list ignore_t),
      memory <> "" ->
      has_char LF (cstr memory) = false ->
      ign__load_list (Some memory) ilist = Returns 0 ilist)
  /\ (forall (E : Pcre) (c : ascii) (rest : string) (ilist : list ignore_t),
         has_char LF (cstr (String c rest)) = true ->
         isspace c = false ->
         is_digit c = false ->
         (c =? "-")%char = false ->
         (c =? "+")%char = false ->
         ign__load_list (Some (String c rest)) ilist = Returns EINVAL []).
Proof.
  split.
  - intros E memory ilist Hne Hnl. unfold ign__load_list.
    replace (strlen memory =? 0) with false.
    2:{ symmetry. apply Z.eqb_neq. destruct memory; [contradiction|].
        rewrite strlen_cons. pose proof (strlen_nonneg memory). lia. }
    now rewrite (strchr_none _ _ Hnl).
  - intros E c rest ilist Hnl Hsp Hd Hm Hp. unfold ign__load_list.
    replace (strlen (String c rest) =? 0) with false.
    2:{ symmetry. apply Z.eqb_neq. rewrite strlen_cons.
        pose proof (strlen_nonneg rest). lia. }
    destruct (strchr_some _ _ Hnl) as [k ->].
    assert (Hs : sscanf_u (cstr (String c rest)) = None).
    { cbn [cstr]. destruct (c =? NUL)%char; [reflexivity|].
      unfold sscanf_u. cbn [skip_space]. rewrite Hsp.
      cbn [sign_of]. rewrite Hm, Hp. cbn [digits].
      rewrite (digit_val_none c Hd). reflexivity. }
    now rewrite Hs.
Qed.

Lemma header_decides_before_any_pattern_witness :
  ign__load_list (Some ("./a" ++ chr NUL ++ chr LF)) [rule_of "./old"]
  = Returns 0 [rule_of "./old"].
Proof.
  apply (proj1 header_decides_before_any_pattern PcreFragment
               ("./a" ++ chr NUL ++ chr LF) [rule_of "./old"]).
  - discriminate.
  - reflexivity.
Defined.

(** ** Escaped characters and bracket expressions *)

(** The pattern that a shell text gives, from its translation. *)
Lemma shell_text_compiled :
  forall (r : string) (re : Regex.re * bool),
    r <> "" ->
    Regex.compile (anchor ("./" ++ r) (fst (glob_text ("./" ++ r)))) false
    = Some re ->
    exists ign : @ignore_t PcreFragment,
      ign___init_pattern_into ("./" ++ r) None = Ok ign
      /\ compiled ign = Some re.
Proof.
  intros r re Hne Hre.
  set (p := "./" ++ r) in *.
  assert (Hlen : 3 <= strlen p).
  { unfold p. destruct r as [|c r]; [contradiction|].
    change ("./" ++ String c r) with (String "." (String "/" (String c r))).
    rewrite !strlen_cons. pose proof (strlen_nonneg r). lia. }
  unfold ign___init_pattern_into.
  rewrite (skip_white_nospace p _ 0) by reflexivity. cbn [bind].
  rewrite (modifiers_none p) by reflexivity. cbn [bind].
  change (init_kind p true false p) with (init_regex p true false PT_SHELL p).
  unfold init_regex.
  replace (strlen p <? 3) with false by (symmetry; apply Z.ltb_ge; lia).
  unfold ign__compile_pattern.
  rewrite (translation_documented p p) by (try discriminate; lia).
  cbn [bind].
  change (pcre_compile (anchor p (fst (glob_text p))) false)
    with (Regex.compile (anchor p (fst (glob_text p))) false).
  rewrite Hre. cbn [pcre_study_err PcreFragment bind].
  eexists. split; reflexivity.
Qed.

Lemma compile_spell_end :
  forall (lit : string) (caseless : bool),
    Regex.compile (spell "?" lit ++ "$") caseless
    = Some (Regex.RSeq (lits "?" Regex.REmpty lit) Regex.REnd, caseless).
Proof.
  intros lit caseless. unfold Regex.compile.
  pose proof (length_spell "?" lit) as Hs.
  replace (S (String.length (spell "?" lit ++ "$")))
    with (String.length lit
          + S (S (String.length (spell "?" lit) - String.length lit)))%nat
    by (rewrite length_append; simpl; lia).
  rewrite parse_spell by reflexivity.
  reflexivity.
Qed.

(** The translation of a text with one escaped character. *)
Lemma glob_text_escape :
  forall a c post,
    simple_glob a = true ->
    simple_glob post = true ->
    is_plain c = false ->
    (c =? "?")%char = false ->
    glob_text (a ++ "\" ++ chr c ++ post)
    = (spell "?" (a ++ chr c ++ post), false).
Proof.
  intros a c post Ha Hpost Hc Hq. induction a as [|x a IH].
  - change ("" ++ "\" ++ chr c ++ post) with (String "\" (String c post)).
    rewrite glob_text_cons. change ("\" =? "\")%char with true. cbv iota.
    rewrite (glob_text_simple post Hpost).
    change ("" ++ chr c ++ post) with (String c post).
    cbn [spell]. unfold item. rewrite Hq. unfold spell_item. rewrite Hc.
    reflexivity.
  - unfold simple_glob in Ha. simpl in Ha. apply andb_true_iff in Ha.
    destruct Ha as [Hx Ha]. apply negb_true_iff in Hx.
    unfold is_special in Hx.
    apply orb_false_iff in Hx. destruct Hx as [Hx H3].
    apply orb_false_iff in Hx. destruct Hx as [H1 H2].
    change (String x a ++ "\" ++ chr c ++ post)
      with (String x (a ++ "\" ++ chr c ++ post)).
    rewrite glob_text_cons. rewrite H3, H1, H2.
    rewrite (IH Ha).
    change (String x a ++ chr c ++ post) with (String x (a ++ chr c ++ post)).
    cbn [spell]. unfold item, prepend. cbn [fst snd].
    destruct (x =? "?")%char; [reflexivity|].
    unfold spell_item. destruct (is_plain x); reflexivity.
Qed.

Lemma has_char_app :
  forall c a b, has_char c (a ++ b) = has_char c a || has_char c b.
Proof.
  intros c a b. induction a as [|x a IH]; [reflexivity|].
  simpl. rewrite IH. now rewrite orb_assoc.
Qed.

Lemma eqb_end :
  forall p s,
    (match wstrip false "?" p s with
     | Some rest => Regex.at_end rest
     | None => false
     end)
    = true ->
    has_char "?" p = false ->
    s = p \/ s = p ++ chr LF.
Proof.
  intros p s H Hq.
  destruct (wstrip false "?" p s) as [rest|] eqn:Hw; [|discriminate].
  apply (wstrip_literal "?" p s rest Hq) in Hw. subst s.
  apply at_end_spec in H. destruct H as [->| ->].
  - left. now rewrite append_nil_r.
  - now right.
Qed.

(** X21: a backslash makes the character behind it a literal one: the pattern
    [./pre\cpost], for a character [c] that is no letter, digit, slash,
    minus sign or question mark (a star, a bracket, a backslash, a dot
    ...), matches the path [./pre], the character [c], [post], and this
    path with one newline at its end, and nothing else. *)
Theorem escaped_character_is_literal :
  forall (pre post s : string) (c : ascii),
    c_string (pre ++ chr c ++ post) ->
    simple_glob pre = true ->
    simple_glob post = true ->
    has_char "?" pre = false ->
    has_char "?" post = false ->
    is_plain c = false ->
    (c =? "?")%char = false ->
    last_char (chr c ++ post) <> Some PATH_SEPARATOR ->
    (rule_matches ("./" ++ pre ++ "\" ++ chr c ++ post) s = Some true
     <-> s = "./" ++ pre ++ chr c ++ post
         \/ s = "./" ++ pre ++ chr c ++ post ++ chr LF)
    /\ rule_matches ("./" ++ pre ++ "\" ++ chr c ++ post) s <> None.
Proof.
  intros pre post s c _ Hpre Hpost Hq1 Hq2 Hc Hq Hl.
  set (lit := "./" ++ pre ++ chr c ++ post).
  assert (Hg : glob_text ("./" ++ pre ++ "\" ++ chr c ++ post)
               = (spell "?" lit, false)).
  { change ("./" ++ pre ++ "\" ++ chr c ++ post)
      with (("./" ++ pre) ++ "\" ++ chr c ++ post).
    apply glob_text_escape; assumption. }
  assert (Ha : anchor ("./" ++ pre ++ "\" ++ chr c ++ post) (spell "?" lit)
               = spell "?" lit ++ "$").
  { unfold anchor.
    replace (last_char ("./" ++ pre ++ "\" ++ chr c ++ post))
      with (last_char (chr c ++ post)).
    - destruct (last_char (chr c ++ post)) as [d|]; [|reflexivity].
      destruct (Ascii.eqb_spec d PATH_SEPARATOR) as [->|]; [|reflexivity].
      contradiction.
    - rewrite (last_char_app "./") by (destruct pre; discriminate).
      rewrite (last_char_app pre) by discriminate.
      now rewrite (last_char_app "\") by discriminate. }
  assert (Hne : pre ++ "\" ++ chr c ++ post <> "")
    by (destruct pre; discriminate).
  destruct (shell_text_compiled
              (pre ++ "\" ++ chr c ++ post)
              (Regex.RSeq (lits "?" Regex.REmpty lit) Regex.REnd, false) Hne)
    as (ign & Hi & Hcomp).
  { rewrite Hg. cbn [fst]. rewrite Ha. apply compile_spell_end. }
  rewrite (rule_matches_compiled _ _ _ s Hi Hcomp).
  rewrite exec_matches. cbn [fst snd Regex.run].
  rewrite run_lits. cbn [Regex.run]. rewrite lit_run_wstrip.
  split; [|discriminate].
  assert (Hlf : "./" ++ pre ++ chr c ++ post ++ chr LF = lit ++ chr LF).
  { unfold lit.
    change (("./" ++ pre ++ chr c ++ post) ++ chr LF)
      with ("./" ++ (pre ++ chr c ++ post) ++ chr LF).
    rewrite (append_assoc pre). reflexivity. }
  assert (Hql : has_char "?" lit = false).
  { unfold lit. change ("./" ++ pre ++ chr c ++ post)
      with (("./" ++ pre) ++ String c post).
    rewrite has_char_app. apply orb_false_iff. split; [exact Hq1|].
    simpl. now rewrite Hq, Hq2. }
  split.
  - intros H.
    assert (Hs : forall b, Some b = Some true -> b = true)
      by (intros b Hb; congruence).
    apply Hs in H. clear Hs.
    assert (H' : match wstrip false "?" lit s with
                 | Some rest => Regex.at_end rest
                 | None => false
                 end = true).
    { destruct (wstrip false "?" lit s); [|exact H].
      now rewrite andb_true_r in H. }
    destruct (eqb_end lit s H' Hql) as [->| ->]; [now left|right].
    symmetry. exact Hlf.
  - intros [->| ->].
    + change ("./" ++ pre ++ chr c ++ post) with lit.
      assert (Hw : wstrip false "?" lit lit = Some "")
        by (apply wstrip_self).
      rewrite Hw. reflexivity.
    + rewrite Hlf.
      assert (Hw : wstrip false "?" lit (lit ++ chr LF) = Some (chr LF))
        by (now apply wstrip_literal).
      rewrite Hw. reflexivity.
Qed.

Lemma escaped_character_is_literal_witness :
  (rule_matches ("./" ++ "a" ++ "\" ++ chr "*" ++ "b") "./a*b" = Some true
   <-> "./a*b" = "./" ++ "a" ++ chr "*" ++ "b"
       \/ "./a*b" = "./" ++ "a" ++ chr "*" ++ "b" ++ chr LF)
  /\ rule_matches ("./" ++ "a" ++ "\" ++ chr "*" ++ "b") "./a*b" <> None.
Proof.
  apply (escaped_character_is_literal "a" "b" "./a*b" "*");
    try reflexivity; discriminate.
Defined.

Lemma alnum_not_meta :
  forall c,
    is_alnum c = true ->
    (c =? "\")%char = false /\ (c =? "]")%char = false
    /\ (c =? "[")%char = false /\ (c =? "-")%char = false
    /\ (c =? "^")%char = false /\ (c =? "!")%char = false.
Proof.
  intros c H.
  repeat split;
    match goal with
    | |- (c =? ?x)%char = false =>
        destruct (Ascii.eqb_spec c x) as [Heq|];
        [subst c; vm_compute in H; discriminate|reflexivity]
    end.
Qed.

Lemma bracket_content_alnum :
  forall set post,
    all_chars is_alnum set = true ->
    bracket_content false (set ++ "]" ++ post) = (set ++ "]", post).
Proof.
  intros set post. induction set as [|c set IH]; intros H; [reflexivity|].
  simpl in H. apply andb_true_iff in H. destruct H as [Hc Hs].
  destruct (alnum_not_meta c Hc) as (H1 & H2 & _).
  change (String c set ++ "]" ++ post) with (String c (set ++ "]" ++ post)).
  cbn [bracket_content]. rewrite H1, H2. cbn [andb].
  now rewrite (IH Hs).
Qed.

Lemma bracket_spec_alnum :
  forall set post,
    set <> "" ->
    all_chars is_alnum set = true ->
    bracket_spec (set ++ "]" ++ post) = (set ++ "]", post).
Proof.
  intros set post Hne H. destruct set as [|c set]; [contradiction|].
  simpl in H. apply andb_true_iff in H. destruct H as [Hc Hs].
  destruct (alnum_not_meta c Hc) as (H1 & H2 & _ & _ & H5 & H6).
  unfold bracket_spec.
  change (String c set ++ "]" ++ post) with (String c (set ++ "]" ++ post)).
  cbn [bracket_negations]. unfold is_negation. rewrite H5, H6. cbn [orb].
  cbn [bracket_content]. rewrite H1, H2. cbn [andb].
  now rewrite (bracket_content_alnum set post Hs).
Qed.

(** The translation of a text with one bracket expression that lists
    letters and digits. *)
Lemma glob_text_class :
  forall a set post,
    simple_glob a = true ->
    simple_glob post = true ->
    set <> "" ->
    all_chars is_alnum set = true ->
    glob_text (a ++ "[" ++ set ++ "]" ++ post)
    = (spell "?" a ++ "[" ++ set ++ "]" ++ spell "?" post, false).
Proof.
  intros a set post Ha Hpost Hne Hset. induction a as [|x a IH].
  - change ("" ++ "[" ++ set ++ "]" ++ post)
      with (String "[" (set ++ "]" ++ post)).
    rewrite glob_text_cons.
    change ("[" =? "\")%char with false.
    change ("[" =? "*")%char with false.
    change ("[" =? "?")%char with false.
    change ("[" =? "[")%char with true. cbv iota.
    rewrite (bracket_spec_alnum set post Hne Hset). cbn [fst snd].
    rewrite (glob_text_simple post Hpost). unfold prepend. cbn [fst snd].
    change (String "[" (set ++ "]") ++ spell "?" post)
      with (String "[" ((set ++ "]") ++ spell "?" post)).
    rewrite append_assoc. reflexivity.
  - unfold simple_glob in Ha. simpl in Ha. apply andb_true_iff in Ha.
    destruct Ha as [Hx Ha]. apply negb_true_iff in Hx.
    unfold is_special in Hx.
    apply orb_false_iff in Hx. destruct Hx as [Hx H3].
    apply orb_false_iff in Hx. destruct Hx as [H1 H2].
    change (String x a ++ "[" ++ set ++ "]" ++ post)
      with (String x (a ++ "[" ++ set ++ "]" ++ post)).
    rewrite glob_text_cons. rewrite H3, H1, H2.
    rewrite (IH Ha).
    cbn [spell]. unfold item, prepend. cbn [fst snd].
    destruct (x =? "?")%char; [reflexivity|].
    unfold spell_item. destruct (is_plain x); reflexivity.
Qed.

Lemma class_items_alnum :
  forall set first acc rest,
    all_chars is_alnum set = true ->
    (first = true -> set <> "") ->
    Regex.class_items first acc (set ++ "]" ++ rest)
    = Some ((acc ++ pairs set)%list, rest).
Proof.
  intros set. induction set as [|c set IH]; intros first acc rest H Hf.
  - destruct first; [exfalso; now apply Hf|].
    simpl. now rewrite app_nil_r.
  - simpl in H. apply andb_true_iff in H. destruct H as [Hc Hs].
    destruct (alnum_not_meta c Hc) as (H1 & H2 & H3 & _).
    change (String c set ++ "]" ++ rest) with (String c (set ++ "]" ++ rest)).
    cbn [Regex.class_items]. rewrite H2, H1, H3. cbn [andb].
    assert (Hd : forall d t, set ++ "]" ++ rest = String d t ->
                             (d =? "-")%char = false).
    { intros d t Heq. destruct set as [|e set'].
      - injection Heq as <- _. reflexivity.
      - injection Heq as <- _. simpl in Hs. apply andb_true_iff in Hs.
        destruct Hs as [He _]. apply (alnum_not_meta e He). }
    assert (Hrec : Regex.class_items false (acc ++ [(c, c)])
                                     (set ++ "]" ++ rest)
                   = Some ((acc ++ pairs (String c set))%list, rest)).
    { rewrite (IH false (acc ++ [(c, c)])%list rest Hs)
        by (intros; discriminate).
      rewrite <- app_assoc. reflexivity. }
    destruct (set ++ "]" ++ rest) as [|d [|h s3]] eqn:Heq; try exact Hrec.
    rewrite (Hd d _ eq_refl). cbn [andb]. exact Hrec.
Qed.

Lemma in_item_same :
  forall c d, Regex.in_item d (c, c) = (c =? d)%char.
Proof.
  intros c d. unfold Regex.in_item, in_range. cbn [fst snd].
  destruct (Ascii.eqb_spec c d) as [->|Hne].
  - rewrite Z.leb_refl. reflexivity.
  - apply andb_false_iff.
    destruct (Z.leb_spec (code c) (code d)) as [H1|H1]; [|now left].
    right. apply Z.leb_gt.
    assert (code c <> code d).
    { unfold code. intros Heq. apply Nat2Z.inj in Heq. apply Hne.
      rewrite <- (ascii_nat_embedding c), <- (ascii_nat_embedding d).
      now rewrite Heq. }
    lia.
Qed.

Lemma class_matches :
  forall set d,
    Regex.cset_match false (Regex.CClass false (pairs set)) d
    = has_char d set.
Proof.
  intros set d. cbn [Regex.cset_match andb]. rewrite orb_false_r.
  cbn [xorb]. induction set as [|c set IH]; [reflexivity|].
  cbn [pairs existsb has_char]. rewrite in_item_same.
  destruct (existsb (Regex.in_item d) (pairs set));
    destruct (has_char d set); try discriminate;
    destruct (c =? d)%char; reflexivity.
Qed.

Lemma parse_class_step :
  forall f alts seq s' cs rest,
    Regex.parse_class s' = Some (cs, rest) ->
    Regex.parse (S f) alts seq (String "[" s')
    = match Regex.quantified cs rest with
      | Some (r, rest') => Regex.parse f alts (Regex.RSeq seq r) rest'
      | None => None
      end.
Proof.
  intros f alts seq s' cs rest H.
  cbn -[Regex.parse_class Regex.quantified]. rewrite H. reflexivity.
Qed.

(** The expression compiled for a text with one bracket expression. *)
Lemma compile_class :
  forall a set post,
    set <> "" ->
    all_chars is_alnum set = true ->
    Regex.compile (spell "?" a ++ "[" ++ set ++ "]" ++ spell "?" post ++ "$")
                  false
    = Some (Regex.RSeq
              (lits "?"
                    (Regex.RSeq (lits "?" Regex.REmpty a)
                                (Regex.RSet (Regex.CClass false (pairs set))))
                    post)
              Regex.REnd, false).
Proof.
  intros a set post Hne Hset. unfold Regex.compile.
  pose proof (length_spell "?" a) as Ha.
  pose proof (length_spell "?" post) as Hp.
  set (T := spell "?" a ++ "[" ++ set ++ "]" ++ spell "?" post ++ "$").
  assert (HT : String.length T
               = (String.length (spell "?" a) + 1 + String.length set + 1
                  + String.length (spell "?" post) + 1)%nat).
  { unfold T. rewrite !length_append. simpl. lia. }
  remember (String.length T - String.length a - String.length post - 2)%nat
    as k eqn:Hk.
  replace (S (String.length T))
    with (String.length a + S (String.length post + S (S k)))%nat by lia.
  unfold T. rewrite parse_spell by reflexivity.
  assert (Hcls : Regex.parse_class (set ++ "]" ++ spell "?" post ++ "$")
                 = Some (Regex.CClass false (pairs set),
                         spell "?" post ++ "$")).
  { unfold Regex.parse_class.
    destruct set as [|c set]; [contradiction|].
    pose proof Hset as Hset2.
    simpl in Hset2. apply andb_true_iff in Hset2. destruct Hset2 as [Hc Hs].
    destruct (alnum_not_meta c Hc) as (_ & _ & _ & _ & H5 & _).
    change (String c set ++ "]" ++ spell "?" post ++ "$")
      with (String c (set ++ "]" ++ spell "?" post ++ "$")).
    cbv iota. rewrite H5.
    change (String c (set ++ "]" ++ spell "?" post ++ "$"))
      with (String c set ++ "]" ++ spell "?" post ++ "$").
    rewrite (class_items_alnum (String c set) true [] _ Hset)
      by discriminate.
    reflexivity. }
  change ("[" ++ set ++ "]" ++ spell "?" post ++ "$")
    with (String "[" (set ++ "]" ++ spell "?" post ++ "$")).
  rewrite (parse_class_step _ _ _ _ _ _ Hcls).
  rewrite (quantified_none _ (spell "?" post ++ "$"))
    by (apply spell_no_quantifier; reflexivity).
  rewrite parse_spell by reflexivity.
  reflexivity.
Qed.

(** X22: a bracket expression that lists letters and digits stands for exactly
    one character, and for the characters listed: the pattern
    [./pre[set]post] matches the paths [./pre], one character of [set],
    [post] (and these with one newline at the end), and no other path. *)
Theorem bracket_expression_matches_its_characters :
  forall (pre set post s : string),
    c_string (pre ++ set ++ post) ->
    simple_glob pre = true ->
    simple_glob post = true ->
    has_char "?" pre = false ->
    has_char "?" post = false ->
    set <> "" ->
    all_chars is_alnum set = true ->
    last_char ("]" ++ post) <> Some PATH_SEPARATOR ->
    (rule_matches ("./" ++ pre ++ "[" ++ set ++ "]" ++ post) s = Some true
     <-> exists d,
          has_char d set = true
          /\ (s = "./" ++ pre ++ chr d ++ post
              \/ s = "./" ++ pre ++ chr d ++ post ++ chr LF))
    /\ rule_matches ("./" ++ pre ++ "[" ++ set ++ "]" ++ post) s <> None.
Proof.
  intros pre set post s _ Hpre Hpost Hq1 Hq2 Hne Hset Hl.
  set (a := "./" ++ pre).
  assert (Hsa : simple_glob a = true) by exact Hpre.
  assert (Hqa : has_char "?" a = false) by exact Hq1.
  assert (Hg : glob_text ("./" ++ pre ++ "[" ++ set ++ "]" ++ post)
               = (spell "?" a ++ "[" ++ set ++ "]" ++ spell "?" post, false)).
  { change ("./" ++ pre ++ "[" ++ set ++ "]" ++ post)
      with (a ++ "[" ++ set ++ "]" ++ post).
    apply glob_text_class; assumption. }
  assert (Ha : anchor ("./" ++ pre ++ "[" ++ set ++ "]" ++ post)
                      (spell "?" a ++ "[" ++ set ++ "]" ++ spell "?" post)
               = spell "?" a ++ "[" ++ set ++ "]" ++ spell "?" post ++ "$").
  { unfold anchor.
    replace (last_char ("./" ++ pre ++ "[" ++ set ++ "]" ++ post))
      with (last_char ("]" ++ post)).
    - assert (Hassoc : (spell "?" a ++ "[" ++ set ++ "]" ++ spell "?" post)
                       ++ "$"
                       = spell "?" a ++ "[" ++ set ++ "]" ++ spell "?" post
                                ++ "$").
      { rewrite !append_assoc.
        change (("[" ++ set ++ "]" ++ spell "?" post) ++ "$")
          with ("[" ++ (set ++ "]" ++ spell "?" post) ++ "$").
        rewrite ?append_assoc. reflexivity. }
      destruct (last_char ("]" ++ post)) as [d|]; [|exact Hassoc].
      destruct (Ascii.eqb_spec d PATH_SEPARATOR) as [->|]; [|exact Hassoc].
      contradiction.
    - rewrite (last_char_app "./") by (destruct pre; discriminate).
      rewrite (last_char_app pre) by discriminate.
      rewrite (last_char_app "[") by (destruct set; discriminate).
      now rewrite (last_char_app set) by discriminate. }
  assert (Hne2 : pre ++ "[" ++ set ++ "]" ++ post <> "")
    by (destruct pre; discriminate).
  destruct (shell_text_compiled
              (pre ++ "[" ++ set ++ "]" ++ post)
              (Regex.RSeq
                 (lits "?"
                       (Regex.RSeq (lits "?" Regex.REmpty a)
                                   (Regex.RSet
                                      (Regex.CClass false (pairs set))))
                       post)
                 Regex.REnd, false) Hne2)
    as (ign & Hi & Hcomp).
  { rewrite Hg. cbn [fst]. rewrite Ha. apply compile_class; assumption. }
  rewrite (rule_matches_compiled _ _ _ s Hi Hcomp).
  rewrite exec_matches. cbn [fst snd Regex.run].
  rewrite run_lits. cbn [Regex.run]. rewrite run_lits. cbn [Regex.run].
  rewrite lit_run_wstrip.
  split; [|discriminate].
  assert (Hmid : forall t,
             (match t with
              | "" => false
              | String c s' =>
                  Regex.cset_match false
                    (Regex.CClass false (pairs set)) c
                  && lit_run false "?" post
                       (fun s0 : string => Regex.at_end s0 && true) s'
              end) = true
             <-> exists d, has_char d set = true
                           /\ (t = chr d ++ post
                               \/ t = chr d ++ post ++ chr LF)).
  { intros t. destruct t as [|d t].
    - split; [discriminate|]. intros (d & _ & [H|H]); discriminate.
    - rewrite class_matches. rewrite lit_run_wstrip. split.
      + intros H. apply andb_true_iff in H. destruct H as [Hd Hm].
        exists d. split; [exact Hd|].
        assert (Hm' : match wstrip false "?" post t with
                      | Some rest => Regex.at_end rest
                      | None => false
                      end = true).
        { destruct (wstrip false "?" post t); [|exact Hm].
          now rewrite andb_true_r in Hm. }
        destruct (eqb_end post t Hm' Hq2) as [->| ->];
          [now left|now right].
      + intros (d' & Hd & [H|H]); injection H as -> ->; rewrite Hd; cbn [andb].
        * now rewrite wstrip_self.
        * assert (Hw : wstrip false "?" post (post ++ chr LF)
                       = Some (chr LF)) by (now apply wstrip_literal).
          now rewrite Hw. }
  split.
  - intros H.
    assert (Hs : forall b, Some b = Some true -> b = true)
      by (intros b Hb; congruence).
    apply Hs in H. clear Hs.
    destruct (wstrip false "?" a s) as [t|] eqn:Hw; [|discriminate].
    apply (wstrip_literal "?" a s t Hqa) in Hw. subst s.
    apply Hmid in H. destruct H as (d & Hd & [->| ->]); exists d;
      (split; [exact Hd|]); [left|right]; reflexivity.
  - intros (d & Hd & Hs).
    assert (Hw : exists t, wstrip false "?" a s = Some t
                           /\ (t = chr d ++ post
                               \/ t = chr d ++ post ++ chr LF)).
    { destruct Hs as [->| ->].
      - exists (chr d ++ post). split; [|now left].
        now apply wstrip_literal.
      - exists (chr d ++ post ++ chr LF). split; [|now right].
        now apply wstrip_literal. }
    destruct Hw as (t & Hw & Ht). rewrite Hw. f_equal.
    apply Hmid. exists d. split; assumption.
Qed.

Lemma bracket_expression_matches_its_characters_witness :
  (rule_matches ("./" ++ "" ++ "[" ++ "oa" ++ "]" ++ "pt") "./opt" = Some true
   <-> exists d,
        has_char d "oa" = true
        /\ ("./opt" = "./" ++ "" ++ chr d ++ "pt"
            \/ "./opt" = "./" ++ "" ++ chr d ++ "pt" ++ chr LF))
  /\ rule_matches ("./" ++ "" ++ "[" ++ "oa" ++ "]" ++ "pt") "./opt" <> None.
Proof.
  apply (bracket_expression_matches_its_characters "" "oa" "pt" "./opt");
    try reflexivity; discriminate.
Defined.

(** ** Device texts that are refused *)

Lemma digit_val_8_none :
  forall c, is_digit c = false -> digit_val 8 c = None.
Proof.
  intros c H. unfold digit_val. rewrite H.
  destruct (is_lower c) eqn:Hl.
  - unfold is_lower, in_range in Hl. apply andb_true_iff in Hl.
    destruct Hl as [H1 _]. apply Z.leb_le in H1.
    change (code "a") with 97 in H1.
    replace (code c - 97 + 10 <? 8) with false; [reflexivity|].
    symmetry. apply Z.ltb_ge. lia.
  - destruct (is_upper c) eqn:Hu; [|reflexivity].
    unfold is_upper, in_range in Hu. apply andb_true_iff in Hu.
    destruct Hu as [H1 _]. apply Z.leb_le in H1.
    change (code "A") with 65 in H1.
    replace (code c - 65 + 10 <? 8) with false; [reflexivity|].
    symmetry. apply Z.ltb_ge. lia.
Qed.

Lemma strtoul_no_number :
  forall s, no_number s = true -> strtoul s = None.
Proof.
  intros [|c s] H; [reflexivity|].
  simpl in H. apply negb_true_iff in H.
  apply orb_false_iff in H. destruct H as [H H4].
  apply orb_false_iff in H. destruct H as [H H3].
  apply orb_false_iff in H. destruct H as [H1 H2].
  unfold strtoul, strtoul_w. cbn [skip_space]. rewrite H2.
  cbn [sign_of]. rewrite H3, H4.
  assert (H0 : (c =? "0")%char = false).
  { apply Ascii.eqb_neq. intros ->. discriminate. }
  rewrite (base_of_nonzero c s H0). cbn [digits].
  rewrite (digit_val_none c H1). reflexivity.
Qed.

(** [strtoul] stops behind a decimal number at a character that ends
    it. *)
Lemma strtoul_print_u_stop :
  forall (n : nat) (c : ascii) (rest : string),
    ends_number c = true ->
    Z.of_nat n < 2 ^ 64 ->
    strtoul (print_u n ++ String c rest) = Some (Z.of_nat n, String c rest).
Proof.
  intros n c rest Hc Hn.
  unfold ends_number in Hc. apply negb_true_iff in Hc.
  apply orb_false_iff in Hc. destruct Hc as [Hc HX].
  apply orb_false_iff in Hc. destruct Hc as [Hd Hx].
  destruct n as [|n'].
  - change (print_u 0 ++ String c rest) with (String "0" (String c rest)).
    unfold strtoul, strtoul_w. cbn [skip_space].
    change (isspace "0") with false. cbv iota. cbn [sign_of].
    change ("0" =? "-")%char with false. change ("0" =? "+")%char with false.
    cbv iota.
    assert (Hb : base_of (String "0" (String c rest))
                 = (8, String "0" (String c rest))).
    { destruct rest as [|h r]; [reflexivity|].
      cbn [base_of]. change ("0" =? "0")%char with true. cbv iota.
      rewrite Hx, HX. reflexivity. }
    rewrite Hb. cbn [digits].
    change (digit_val 8 "0") with (Some 0). cbv iota. cbn [digits].
    rewrite (digit_val_8_none c Hd). reflexivity.
  - destruct (print_u_first (S n') ltac:(lia)) as (d & s & Hp & Hdd & H0).
    unfold strtoul, strtoul_w.
    assert (Hs : skip_space (print_u (S n') ++ String c rest)
                 = print_u (S n') ++ String c rest).
    { rewrite Hp. simpl. now rewrite (digit_no_space d Hdd). }
    rewrite Hs.
    assert (Hg : sign_of (print_u (S n') ++ String c rest)
                 = (false, print_u (S n') ++ String c rest)).
    { rewrite Hp. simpl. destruct (digit_no_sign d Hdd) as [-> ->].
      reflexivity. }
    rewrite Hg.
    assert (Hb : base_of (print_u (S n') ++ String c rest)
                 = (10, print_u (S n') ++ String c rest)).
    { rewrite Hp. apply base_of_nonzero. exact H0. }
    rewrite Hb. rewrite (digits_print_u (S n') (String c rest) Hd).
    replace (2 ^ 64 <=? Z.of_nat (S n')) with false
      by (symmetry; apply Z.leb_gt; exact Hn).
    reflexivity.
Qed.

Section DeviceRefusals.

Context {E : Pcre}.

Lemma device_text_start :
  forall (cs rest : string),
    all_chars is_comparator cs = true ->
    starts_comparator rest = false ->
    ign___init_pattern_into ("DEVICE:" ++ cs ++ rest) None
    = init_device ("DEVICE:" ++ cs ++ rest) true false
                  ("DEVICE:" ++ cs ++ rest) (cs ++ rest).
Proof.
  intros cs rest Hcs Hrest.
  set (text := "DEVICE:" ++ cs ++ rest).
  unfold ign___init_pattern_into.
  rewrite (skip_white_nospace text _ 0) by reflexivity. cbn [bind].
  rewrite (modifiers_none text) by reflexivity. cbn [bind].
  reflexivity.
Qed.

Lemma digits_no_comparator :
  forall n rest, starts_comparator (print_u n ++ rest) = false.
Proof.
  intros n rest. destruct n as [|n']; [reflexivity|].
  destruct (print_u_first (S n') ltac:(lia)) as (c & s & Hp & Hc & _).
  rewrite Hp. simpl. apply is_digit_code in Hc. unfold is_comparator.
  repeat (apply orb_false_iff; split);
    apply Ascii.eqb_neq; intros ->; vm_compute in Hc;
      destruct Hc as [H1 H2];
      first [apply H1; reflexivity | apply H2; reflexivity].
Qed.

(** X23: device texts that the parser refuses with [EINVAL]: one without a
    major number; one with anything but a colon behind the major number;
    one without a minor number behind the colon; one with anything behind
    the minor number. *)
Theorem device_text_refused :
  (forall (cs rest : string),
      all_chars is_comparator cs = true ->
      starts_comparator rest = false ->
      no_number rest = true ->
      ign___init_pattern_into ("DEVICE:" ++ cs ++ rest) None = Err EINVAL)
  /\ (forall (cs rest : string) (n : nat) (c : ascii),
         all_chars is_comparator cs = true ->
         Z.of_nat n < 2 ^ 31 ->
         ends_number c = true ->
         (c =? ":")%char = false ->
         ign___init_pattern_into
           ("DEVICE:" ++ cs ++ print_u n ++ String c rest) None
         = Err EINVAL)
  /\ (forall (cs rest : string) (n : nat),
         all_chars is_comparator cs = true ->
         Z.of_nat n < 2 ^ 31 ->
         no_number rest = true ->
         ign___init_pattern_into
           ("DEVICE:" ++ cs ++ print_u n ++ ":" ++ rest) None
         = Err EINVAL)
  /\ (forall (cs rest : string) (n m : nat) (c : ascii),
         all_chars is_comparator cs = true ->
         Z.of_nat n < 2 ^ 31 ->
         Z.of_nat m < 2 ^ 31 ->
         ends_number c = true ->
         ign___init_pattern_into
           ("DEVICE:" ++ cs ++ print_u n ++ ":" ++ print_u m
                      ++ String c rest) None
         = Err EINVAL).
Proof.
  split; [|split; [|split]].
  - intros cs rest Hcs Hrest Hno.
    rewrite (device_text_start cs rest Hcs Hrest). unfold init_device.
    change PAT_DEV__UNSPECIFIED with (bits3 false false false).
    rewrite (comparators_bits cs false false false _ Hcs Hrest).
    now rewrite (strtoul_no_number rest Hno).
  - intros cs rest n c Hcs Hn Hc Hcolon.
    rewrite (device_text_start cs _ Hcs (digits_no_comparator n _)).
    unfold init_device.
    change PAT_DEV__UNSPECIFIED with (bits3 false false false).
    rewrite (comparators_bits cs false false false _ Hcs
               (digits_no_comparator n _)).
    rewrite (strtoul_print_u_stop n c rest Hc) by lia.
    rewrite Hcolon. reflexivity.
  - intros cs rest n Hcs Hn Hno.
    rewrite (device_text_start cs _ Hcs (digits_no_comparator n _)).
    unfold init_device.
    change PAT_DEV__UNSPECIFIED with (bits3 false false false).
    rewrite (comparators_bits cs false false false _ Hcs
               (digits_no_comparator n _)).
    rewrite (strtoul_print_u n (":" ++ rest)) by (try lia; now right).
    change (":" ++ rest) with (String ":" rest). cbv iota.
    change (negb (":" =? ":")%char) with false. cbv iota.
    now rewrite (strtoul_no_number rest Hno).
  - intros cs rest n m c Hcs Hn Hm Hc.
    rewrite (device_text_start cs _ Hcs (digits_no_comparator n _)).
    unfold init_device.
    change PAT_DEV__UNSPECIFIED with (bits3 false false false).
    rewrite (comparators_bits cs false false false _ Hcs
               (digits_no_comparator n _)).
    rewrite (strtoul_print_u n (":" ++ print_u m ++ String c rest))
      by (try lia; now right).
    change (":" ++ print_u m ++ String c rest)
      with (String ":" (print_u m ++ String c rest)). cbv iota.
    change (negb (":" =? ":")%char) with false. cbv iota.
    rewrite (strtoul_print_u_stop m c rest Hc) by lia.
    reflexivity.
Qed.

End DeviceRefusals.

Lemma device_text_refused_witness :
  ign___init_pattern_into (E := PcreFragment)
                          ("DEVICE:" ++ "<=" ++ print_u 3 ++ String "." "5")
                          None
  = Err EINVAL.
Proof.
  apply (proj1 (proj2 (device_text_refused (E := PcreFragment)))
               "<=" "5" 3%nat "."%char).
  - reflexivity.
  - vm_compute. reflexivity.
  - reflexivity.
  - reflexivity.
Defined.
